(** * EmailValidator28: the validation core, embedded and verified

    A shallow embedding of the Python modules under [app/utils] that make
    up the validation core: [syntax_validator], [typo_detector] (with the
    part of [difflib] it calls), [disposable_email_detector],
    [smtp_verifier], [domain_reputation_checker], [catch_all_detector] and
    [validation_orchestrator]; of the modules the orchestrator draws on:
    [risk_score], [domain_reputation] with [sqlite_cache] and
    [cache_manager], and the rate limit and score of
    [email_dns_validator]; and of its callers [batch_processing] and
    [batch_validator].

    Conventions of the embedding.
    - A Python call that may raise is a value of [outcome]: [Ret v] or
      [Raise e], with [e] carrying the exception class and [str(e)].
    - Whatever the code obtains from the network (DNS, SMTP, HTTP, WHOIS)
      is an oracle: a field of a record the function takes as argument.
    - Python [float]s are idealised as exact rationals ([Q]).
    - Python [dict]s are [gmap string _]; [d[k]] on a missing key raises
      [KeyError], [d.get(k)] is the lookup.
    - A function a module imports from a file that does not define it
      is a parameter of the code that calls it. *)

From Stdlib Require Import ZArith QArith Qround Qabs Qpower String Ascii List Bool Lia Lqa.
From Stdlib Require Import Sorting.Permutation Sorting.Sorted.
From stdpp Require Import gmap strings.
Import ListNotations.
Local Open Scope string_scope.

(* ===================================================================== *)
(** * Python prelude: exceptions, outcomes, strings                       *)
(* ===================================================================== *)

Module Py.

(** The exception classes that occur in the modelled modules. *)
Inductive exn_class :=
| Exception
| ValidationError          (* app.utils.exceptions *)
| RateLimitExceeded        (* named by the orchestrator and the DNS validator *)
| SMTPVerificationError    (* app.utils.exceptions *)
| NameError | KeyError | TypeError | AttributeError | ValueError | IndexError
| OverflowError
| OSError
| SocketTimeout            (* socket.timeout *)
| SMTPException            (* smtplib *)
| RequestException         (* requests *)
| RequestsConnectionError  (* requests.ConnectionError *)
| RequestsTimeout.         (* requests.Timeout *)

Definition exn_class_eqb (c d : exn_class) : bool :=
  match c, d with
  | Exception, Exception | ValidationError, ValidationError
  | RateLimitExceeded, RateLimitExceeded
  | SMTPVerificationError, SMTPVerificationError
  | NameError, NameError | KeyError, KeyError | TypeError, TypeError
  | AttributeError, AttributeError | ValueError, ValueError
  | IndexError, IndexError | OverflowError, OverflowError | OSError, OSError
  | SocketTimeout, SocketTimeout | SMTPException, SMTPException
  | RequestException, RequestException
  | RequestsConnectionError, RequestsConnectionError
  | RequestsTimeout, RequestsTimeout => true
  | _, _ => false
  end.

(** The direct base class, [None] for [Exception] itself. *)
Definition base (c : exn_class) : option exn_class :=
  match c with
  | Exception => None
  | SocketTimeout | SMTPException | RequestException => Some OSError
  | RequestsConnectionError | RequestsTimeout => Some RequestException
  | _ => Some Exception
  end.

(** [issubclass c d]; three steps reach the root from every class. *)
Definition issubclass (c d : exn_class) : bool :=
  exn_class_eqb c d ||
  match base c with
  | None => false
  | Some c1 =>
      exn_class_eqb c1 d ||
      match base c1 with
      | None => false
      | Some c2 =>
          exn_class_eqb c2 d ||
          match base c2 with
          | None => false
          | Some c3 => exn_class_eqb c3 d
          end
      end
  end.

(** A raised exception: its class and [str(e)]. *)
Record exn := mk_exn { exn_cls : exn_class; exn_str : string }.

Definition isinstance (e : exn) (c : exn_class) : bool :=
  issubclass (exn_cls e) c.

Inductive outcome (A : Type) :=
| Ret (a : A)
| Raise (e : exn).
Arguments Ret {A} a.
Arguments Raise {A} e.

Definition bind {A B} (m : outcome A) (k : A -> outcome B) : outcome B :=
  match m with
  | Ret a => k a
  | Raise e => Raise e
  end.

(** [try: m  except c as e: h e] *)
Definition try_except {A} (m : outcome A) (c : exn_class)
           (h : exn -> outcome A) : outcome A :=
  match m with
  | Ret a => Ret a
  | Raise e => if isinstance e c then h e else Raise e
  end.

Definition returns {A} (m : outcome A) : bool :=
  match m with Ret _ => true | Raise _ => false end.

(** Dynamically typed values, as far as the modelled code inspects them. *)
#[warnings="-register-all"]
Inductive pyval :=
| VNone
| VBool (b : bool)
| VInt (z : Z)
| VNum (q : Q)              (* a finite float *)
| VStr (s : string)
| VList (l : list pyval)
| VDict (d : gmap string pyval).

(** Python truthiness. *)
Definition truthy (v : pyval) : bool :=
  match v with
  | VNone => false
  | VBool b => b
  | VInt z => negb (z =? 0)%Z
  | VNum q => negb (Qeq_bool q 0)
  | VStr s => negb (String.eqb s "")
  | VList l => match l with [] => false | _ => true end
  | VDict d => negb (bool_decide (d = ∅))
  end.

(** [d[k]] *)
Definition getitem {V} (d : gmap string V) (k : string) : outcome V :=
  match d !! k with
  | Some v => Ret v
  | None => Raise (mk_exn KeyError ("'" +:+ k +:+ "'"))
  end.

(** [v.get(k, default)]: only a dict has the method. *)
Definition dict_get (v : pyval) (k : string) (default : pyval) : outcome pyval :=
  match v with
  | VDict d => Ret (match d !! k with Some x => x | None => default end)
  | _ => Raise (mk_exn AttributeError "object has no attribute 'get'")
  end.

(** [s.split(sep)] for a one-character separator: never empty. *)
Fixpoint split (sep : ascii) (s : string) : list string :=
  match s with
  | EmptyString => [EmptyString]
  | String c rest =>
      if Ascii.eqb c sep then EmptyString :: split sep rest
      else match split sep rest with
           | [] => [String c EmptyString]
           | w :: ws => String c w :: ws
           end
  end.

(** [l[1]] and [l[-1]] on a list of strings. *)
Definition index1 (l : list string) : outcome string :=
  match l with
  | _ :: x :: _ => Ret x
  | _ => Raise (mk_exn IndexError "list index out of range")
  end.

Definition index_last (l : list string) : string := List.last l EmptyString.

(** [str.lower] restricted to ASCII letters; other bytes are kept. *)
Definition ascii_lower (c : ascii) : ascii :=
  let n := nat_of_ascii c in
  if (65 <=? n)%nat && (n <=? 90)%nat then ascii_of_nat (n + 32) else c.

Fixpoint lower_ascii (s : string) : string :=
  match s with
  | EmptyString => EmptyString
  | String c rest => String (ascii_lower c) (lower_ascii rest)
  end.

End Py.
Import Py.

Declare Scope outcome_scope.
Delimit Scope outcome_scope with outcome.
Notation "x <- m ;; k" := (bind m (fun x => k))
  (at level 100, m at next level, right associativity) : outcome_scope.

(* ===================================================================== *)
(** * app/utils/syntax_validator.py                                       *)
(* ===================================================================== *)

Module SyntaxValidator.

Definition in_range (lo hi : nat) (c : ascii) : bool :=
  let n := nat_of_ascii c in (lo <=? n)%nat && (n <=? hi)%nat.

(** [a-zA-Z0-9] *)
Definition is_alnum (c : ascii) : bool :=
  in_range 97 122 c || in_range 65 90 c || in_range 48 57 c.

Fixpoint mem_ascii (c : ascii) (s : string) : bool :=
  match s with
  | EmptyString => false
  | String d rest => Ascii.eqb c d || mem_ascii c rest
  end.

(** [[a-zA-Z0-9.!#$%&'*+/=?^_`{|}~-]] *)
Definition is_local_char (c : ascii) : bool :=
  is_alnum c || mem_ascii c ".!#$%&'*+/=?^_`{|}~-".

(** [[a-zA-Z0-9-]] *)
Definition is_domain_char (c : ascii) : bool :=
  is_alnum c || Ascii.eqb c "-".

Definition newline : ascii := "010"%char.

(** [[a-zA-Z0-9-]+(?:\.[a-zA-Z0-9-]+)*$] on the rest of the string;
    [seen] tells whether the current label already has a character.
    Without [re.MULTILINE], [$] matches at the end of the string and
    just before a newline that ends it. *)
Fixpoint match_domain (seen : bool) (s : string) : bool :=
  match s with
  | EmptyString => seen
  | String c rest =>
      if is_domain_char c then match_domain true rest
      else if Ascii.eqb c "." then seen && match_domain false rest
      else if Ascii.eqb c newline then
             seen && match rest with EmptyString => true | _ => false end
      else false
  end.

(** [^[...]+@] then the domain; [seen] as above, for the local part. *)
Fixpoint match_local (seen : bool) (s : string) : bool :=
  match s with
  | EmptyString => false
  | String c rest =>
      if is_local_char c then match_local true rest
      else if Ascii.eqb c "@" then seen && match_domain false rest
      else false
  end.

(** [re.match(regex, email)], as a truth value. *)
Definition re_match (email : string) : bool := match_local false email.

(** [validate_syntax]: [True] on a match, raises otherwise; no path
    returns [False]. *)
Definition validate_syntax (email : string) : outcome bool :=
  if re_match email then Ret true
  else Raise (mk_exn ValidationError "Invalid email syntax.").

End SyntaxValidator.


(* ===================================================================== *)
(** * The part of Python's [difflib] that [typo_detector] calls           *)
(* ===================================================================== *)

Module Difflib.

(** [SequenceMatcher(None, a, b)] on strings: sequences of characters,
    no junk predicate, [autojunk=True]. *)

Fixpoint indices_from (c : ascii) (b : list ascii) (j : nat) : list nat :=
  match b with
  | [] => []
  | d :: rest =>
      if Ascii.eqb c d then j :: indices_from c rest (S j)
      else indices_from c rest (S j)
  end.

(** [__chain_b]: [b2j[c]] lists the positions of [c] in [b], ascending;
    with [len(b) >= 200] an element occurring more than
    [len(b) // 100 + 1] times is "popular" and dropped. *)
Definition b2j (b : list ascii) (c : ascii) : list nat :=
  let idxs := indices_from c b 0 in
  let n := length b in
  if (200 <=? n)%nat && (n / 100 + 1 <? length idxs)%nat then [] else idxs.

Definition at_ (s : list ascii) (i : nat) : ascii := nth i s "000"%char.

(** [j2lenget(j-1, 0)]: the key [-1] is never present. *)
Definition j2lenget_pred (j2len : gmap nat nat) (j : nat) : nat :=
  match j with
  | O => 0%nat
  | S p => default 0%nat (j2len !! p)
  end.

(** The inner loop of [find_longest_match] for one [i]:
    [for j in b2j.get(a[i], nothing)], with its [continue] and [break]. *)
Fixpoint row (i blo bhi : nat) (j2len : gmap nat nat) (js : list nat)
         (newj2len : gmap nat nat) (best : nat * nat * nat)
  : gmap nat nat * (nat * nat * nat) :=
  match js with
  | [] => (newj2len, best)
  | j :: js' =>
      if (j <? blo)%nat then row i blo bhi j2len js' newj2len best
      else if (bhi <=? j)%nat then (newj2len, best)
      else
        let k := (j2lenget_pred j2len j + 1)%nat in
        let '(_, _, bestsize) := best in
        row i blo bhi j2len js' (<[j := k]> newj2len)
            (if (bestsize <? k)%nat then ((i + 1 - k)%nat, (j + 1 - k)%nat, k)
             else best)
  end.

(** The outer loop, [for i in range(alo, ahi)]; [n] counts the rows left. *)
Fixpoint rows (a b : list ascii) (blo bhi : nat) (n i : nat)
         (j2len : gmap nat nat) (best : nat * nat * nat) : nat * nat * nat :=
  match n with
  | O => best
  | S n' =>
      let '(newj2len, best') :=
        row i blo bhi j2len (b2j b (at_ a i)) ∅ best in
      rows a b blo bhi n' (S i) newj2len best'
  end.

(** First [while]: extend the block to the left over equal elements. *)
Fixpoint extend_left (a b : list ascii) (alo blo : nat)
         (besti bestj bestsize : nat) : nat * nat * nat :=
  match besti with
  | O => (besti, bestj, bestsize)
  | S bi =>
      if (alo <? besti)%nat && (blo <? bestj)%nat
         && Ascii.eqb (at_ a bi) (at_ b (bestj - 1))
      then extend_left a b alo blo bi (bestj - 1)%nat (bestsize + 1)%nat
      else (besti, bestj, bestsize)
  end.

(** Second [while]: extend to the right; [n] bounds the iterations by
    [ahi - (besti + bestsize)], the loop's own variant. *)
Fixpoint extend_right (a b : list ascii) (ahi bhi : nat)
         (besti bestj bestsize : nat) (n : nat) : nat :=
  match n with
  | O => bestsize
  | S n' =>
      if (besti + bestsize <? ahi)%nat && (bestj + bestsize <? bhi)%nat
         && Ascii.eqb (at_ a (besti + bestsize)) (at_ b (bestj + bestsize))
      then extend_right a b ahi bhi besti bestj (bestsize + 1)%nat n'
      else bestsize
  end.

(** [find_longest_match(alo, ahi, blo, bhi)].  The last two [while]
    loops of the source only step over junk; [bjunk] is empty here. *)
Definition find_longest_match (a b : list ascii) (alo ahi blo bhi : nat)
  : nat * nat * nat :=
  let '(besti, bestj, bestsize) :=
    rows a b blo bhi (ahi - alo) alo ∅ (alo, blo, 0%nat) in
  let '(besti, bestj, bestsize) :=
    extend_left a b alo blo besti bestj bestsize in
  let bestsize :=
    extend_right a b ahi bhi besti bestj bestsize (ahi - (besti + bestsize)) in
  (besti, bestj, bestsize).

(** The sum of the sizes of [get_matching_blocks()].  The source keeps
    the regions still to be searched on a stack; here the two regions
    left and right of a block are searched recursively.  [fuel] bounds
    the nesting, [None] tells that it ran out. *)
Fixpoint matches (fuel : nat) (a b : list ascii) (alo ahi blo bhi : nat)
  : option nat :=
  match fuel with
  | O => None
  | S f =>
      let '(i, j, k) := find_longest_match a b alo ahi blo bhi in
      if (k =? 0)%nat then Some 0%nat
      else
        match
          (if (alo <? i)%nat && (blo <? j)%nat
           then matches f a b alo i blo j else Some 0%nat),
          (if (i + k <? ahi)%nat && (j + k <? bhi)%nat
           then matches f a b (i + k) ahi (j + k) bhi else Some 0%nat)
        with
        | Some l, Some r => Some (k + l + r)%nat
        | _, _ => None
        end
  end.

(** [_calculate_ratio(matches, length)] *)
Definition _calculate_ratio (m length : nat) : Q :=
  match length with
  | O => 1%Q
  | S _ => (2 * inject_Z (Z.of_nat m) / inject_Z (Z.of_nat length))%Q
  end.

(** [ratio()]; every nested region is shorter in [a], so [len(a) + 1]
    levels are enough. *)
Definition ratio (a b : list ascii) : option Q :=
  match matches (S (length a)) a b 0 (length a) 0 (length b) with
  | Some m => Some (_calculate_ratio m (length a + length b))
  | None => None
  end.

(** [quick_ratio()]: the size of the multiset intersection. *)
Fixpoint quick_matches (b : list ascii) (avail : gmap ascii Z)
         (a : list ascii) (m : nat) : nat :=
  match a with
  | [] => m
  | elt :: rest =>
      let numb :=
        match avail !! elt with
        | Some n => n
        | None => Z.of_nat (count_occ ascii_dec b elt)
        end in
      quick_matches b (<[elt := (numb - 1)%Z]> avail) rest
                    (if (0 <? numb)%Z then S m else m)
  end.

Definition quick_ratio (a b : list ascii) : Q :=
  _calculate_ratio (quick_matches b ∅ a 0) (length a + length b).

(** [real_quick_ratio()] *)
Definition real_quick_ratio (a b : list ascii) : Q :=
  _calculate_ratio (Nat.min (length a) (length b)) (length a + length b).

(** Tuples [(score, x)] compared as Python compares them. *)
Definition tuple_ltb (p q : Q * string) : bool :=
  match Qcompare (fst p) (fst q) with
  | Lt => true
  | Gt => false
  | Eq => match String.compare (snd p) (snd q) with Lt => true | _ => false end
  end.

Fixpoint insert_desc (p : Q * string) (l : list (Q * string)) :=
  match l with
  | [] => [p]
  | q :: rest => if tuple_ltb p q then q :: insert_desc p rest else p :: l
  end.

(** [heapq.nlargest(n, result)]: the [n] largest, largest first. *)
Definition nlargest (n : nat) (l : list (Q * string)) : list (Q * string) :=
  firstn n (fold_right insert_desc [] l).

(** The loop of [get_close_matches]; [and] evaluates [ratio()] only
    when both quick bounds reach the cutoff. *)
Fixpoint scored (word : list ascii) (cutoff : Q) (possibilities : list string)
  : option (list (Q * string)) :=
  match possibilities with
  | [] => Some []
  | x :: rest =>
      let a := list_ascii_of_string x in
      match scored word cutoff rest with
      | None => None
      | Some tl =>
          if Qle_bool cutoff (real_quick_ratio a word)
             && Qle_bool cutoff (quick_ratio a word)
          then match ratio a word with
               | None => None
               | Some r => Some (if Qle_bool cutoff r then (r, x) :: tl else tl)
               end
          else Some tl
      end
  end.

(** [get_close_matches(word, possibilities, n, cutoff)] for [n > 0] and
    [0 <= cutoff <= 1], which is how [detect_typo] calls it. *)
Definition get_close_matches (word : string) (possibilities : list string)
           (n : nat) (cutoff : Q) : option (list string) :=
  match scored (list_ascii_of_string word) cutoff possibilities with
  | None => None
  | Some result => Some (map snd (nlargest n result))
  end.

(** A block [(besti, bestj, bestsize)] lies in [a[alo:hi]]. *)
Definition block_within (alo hi : nat) (best : nat * nat * nat) : Prop :=
  let '(besti, _, bestsize) := best in
  (alo <= besti)%nat /\ (besti + bestsize <= hi)%nat.

(** No run recorded in [j2len] is longer than [bound]. *)
Definition runs_within (bound : nat) (j2len : gmap nat nat) : Prop :=
  forall j v, j2len !! j = Some v -> (v <= bound)%nat.

End Difflib.

(* ===================================================================== *)
(** * app/utils/typo_detector.py                                          *)
(* ===================================================================== *)

Module TypoDetector.

Definition COMMON_EMAIL_DOMAINS : list string :=
  [ "gmail.com"; "yahoo.com"; "outlook.com"; "hotmail.com"; "aol.com";
    "icloud.com"; "mail.com"; "gmx.com"; "protonmail.com"; "zoho.com" ].

Section WithLower.

(** [str.lower]: Unicode lowercasing, left open; [Py.lower_ascii] is
    its restriction to ASCII text. *)
Variable lower : string -> string.

(** [detect_typo]: the inner option is Python's [Optional[str]], the
    outer one is [None] only if the matcher ran out of fuel. *)
Definition detect_typo (email : string) : option (option string) :=
  match split "@" email with
  | [local_part; domain] =>
      let domain := lower domain in
      match Difflib.get_close_matches domain COMMON_EMAIL_DOMAINS 1 0.8%Q with
      | None => None
      | Some close_matches =>
          match close_matches with
          | m :: _ =>
              if negb (String.eqb m domain)
              then Some (Some ("Did you mean '@" +:+ m +:+ "'?"))
              else Some None
          | [] => Some None
          end
      end
  | _ => Some None   (* ValueError: not exactly one "@" *)
  end.

Definition is_typo_detected (email : string) : option bool :=
  match detect_typo email with
  | Some (Some _) => Some true
  | Some None => Some false
  | None => None
  end.

End WithLower.

End TypoDetector.


(* ===================================================================== *)
(** * app/utils/disposable_email_detector.py                              *)
(* ===================================================================== *)

Module DisposableEmailDetector.

Definition DISPOSABLE_EMAIL_API_URL : string :=
  "https://api.disposable-email-detector.com/check".

(** A [requests.Response], as far as the code looks at it. *)
Record Response := {
  status_code : Z;
  json : outcome pyval          (* response.json() *)
}.

Section WithHttp.

(** [requests.get(url, timeout=5)] *)
Variable requests_get : string -> outcome Response.

Definition lookup_url (email : string) : string :=
  DISPOSABLE_EMAIL_API_URL +:+ "?domain=" +:+ index_last (split "@" email).

Definition is_disposable_email (email : string) : outcome pyval :=
  try_except
    (response <- requests_get (lookup_url email) ;;
     if (status_code response =? 200)%Z then
       data <- json response ;;
       dict_get data "is_disposable" (VBool false)
     else
       (* If API fails, assume not disposable *)
       Ret (VBool false))%outcome
    RequestException
    (fun _ => Ret (VBool false)).

End WithHttp.

(** The lookup failed: [requests.get] raised one of the [requests]
    exceptions (connection error, timeout, ...), or the API answered
    with a status other than 200. *)
Definition lookup_failed (o : outcome Response) : Prop :=
  match o with
  | Raise e => isinstance e RequestException = true
  | Ret response => status_code response <> 200%Z
  end.

(** A failure in wider terms: the lookup raises an I/O error, that is an
    [OSError] (of which [IOError] is an alias and the [requests]
    exceptions are subclasses), or the API answers with a status other
    than 200. *)
Definition io_error_or_bad_status (o : outcome Response) : Prop :=
  match o with
  | Raise e => isinstance e OSError = true
  | Ret response => status_code response <> 200%Z
  end.

End DisposableEmailDetector.

(* ===================================================================== *)
(** * app/utils/smtp_verifier.py                                          *)
(* ===================================================================== *)

Module SmtpVerifier.

Inductive Details :=
| NoDetails
| DnsDetails
| ServerDetails (mx_host domain : string) (response_code : Z)
                (response_message : string)
| TriedServers (tried_servers : list string).

(** The dataclass [SMTPResult] with its defaults. *)
Record SMTPResult := {
  valid : bool;
  error : string;
  code : Z;
  message : string;
  details : Details;
  supports_tls : bool
}.

(** What [validate_dns(email)] answers, as [verify_smtp] reads it:
    [.get('valid', False)] and [.get('details', {}).get('mx_records', [])].
    The function is imported from [dns_resolver], which does not define
    it; it is an oracle here. *)
Record DnsResult := {
  dns_valid : bool;
  mx_records : list (Z * string)
}.

(** One SMTP dialogue with a server, step by step. *)
Record Session := {
  connect : outcome unit;        (* smtp.connect(mx_host, 25) *)
  helo : outcome unit;           (* smtp.helo() *)
  has_starttls : bool;           (* smtp.has_extn('starttls') *)
  starttls : outcome unit;       (* smtp.starttls(context=context) *)
  helo_again : outcome unit;     (* smtp.helo() after STARTTLS *)
  mail : outcome unit;           (* smtp.mail('') *)
  rcpt : outcome (Z * string);   (* smtp.rcpt(email): code and reply bytes *)
  (** [message.decode()] on the reply to RCPT: the text when the bytes
      are UTF-8, a [UnicodeDecodeError] otherwise. *)
  decode : outcome string;
  (** Leaving the [with smtplib.SMTP(...)] block: [__exit__] sends QUIT
      and raises [SMTPResponseException] unless the reply is 221; a lost
      or missing connection is ignored. *)
  leave : outcome unit
}.

(** [sorted(mx_records)]: tuples compare by priority, then by host. *)
Definition mx_leb (x y : Z * string) : bool :=
  (fst x <? fst y)%Z
  || ((fst x =? fst y)%Z
      && match String.compare (snd x) (snd y) with Gt => false | _ => true end).

Fixpoint mx_insert (x : Z * string) (l : list (Z * string)) :=
  match l with
  | [] => [x]
  | y :: rest => if mx_leb x y then x :: l else y :: mx_insert x rest
  end.

Definition sorted (l : list (Z * string)) : list (Z * string) :=
  fold_right mx_insert [] l.

(** Ascending MX priority. *)
Definition by_priority (x y : Z * string) : Prop := (fst x <= fst y)%Z.

(** The session runs through with RCPT TO answered by 250: every step
    of the dialogue returns, the code is 250, the reply text decodes,
    and leaving the block raises nothing. *)
Definition runs_through_with_250 (s : Session) : Prop :=
  connect s = Ret tt /\ helo s = Ret tt
  /\ (has_starttls s = true -> starttls s = Ret tt /\ helo_again s = Ret tt)
  /\ mail s = Ret tt
  /\ (exists text, rcpt s = Ret (250%Z, text))
  /\ returns (decode s) = true
  /\ leave s = Ret tt.

Section WithNetwork.

Variable validate_dns : string -> outcome DnsResult.
(** The server behind [mx_host], asked about [email]. *)
Variable server : string -> string -> Session.

(** The body of the [with] block, up to the [return]. *)
Definition dialogue (email mx_host domain : string) : outcome SMTPResult :=
  let s := server mx_host email in
  (_ <- connect s ;;
   _ <- helo s ;;
   let tls := has_starttls s in
   _ <- (if tls then (_ <- starttls s ;; helo_again s) else Ret tt) ;;
   _ <- mail s ;;
   r <- rcpt s ;;
   text <- decode s ;;
   Ret {| valid := (fst r =? 250)%Z;
          error := "";
          code := fst r;
          message := text;
          details := ServerDetails mx_host domain (fst r) (snd r);
          supports_tls := tls |})%outcome.

(** [_check_smtp_server].  The [with] block is left by the [return] or
    by an exception; either way [__exit__] runs, and an exception it
    raises replaces what the block did. *)
Definition _check_smtp_server (email mx_host domain : string)
  : outcome SMTPResult :=
  let s := server mx_host email in
  let body :=
    match leave s with
    | Ret _ => dialogue email mx_host domain
    | Raise e => Raise e
    end in
  match body with
  | Ret r => Ret r
  | Raise e =>
      (* except (socket.timeout, smtplib.SMTPException) as e *)
      if isinstance e SocketTimeout || isinstance e SMTPException then
        Raise (mk_exn SMTPVerificationError
                 ("SMTP verification failed for " +:+ mx_host +:+ ": "
                  +:+ exn_str e))
      else Raise e
  end.

(** Whether the probe of [mx_host] ends with [result.valid] true; it is
    false when the server answers another code and when the probe
    raises. *)
Definition accepted_by (email domain mx_host : string) : bool :=
  match _check_smtp_server email mx_host domain with
  | Ret result => valid result
  | Raise _ => false
  end.

(** The loop over [sorted(mx_records)].  Returns the result of the
    first server that verifies the address, if any, and the hosts a
    connection was attempted to, in order. *)
Fixpoint try_servers (email domain : string) (servers : list (Z * string))
  : option SMTPResult * list string :=
  match servers with
  | [] => (None, [])
  | (priority, mx_host) :: rest =>
      match try_except
              (result <- _check_smtp_server email mx_host domain ;;
               Ret (if valid result then Some result else None))%outcome
              Exception
              (fun _ => Ret None (* continue *)) with
      | Ret (Some result) => (Some result, [mx_host])
      | _ =>
          let '(r, tried) := try_servers email domain rest in
          (r, mx_host :: tried)
      end
  end.

Definition failed (err : string) (d : Details) : SMTPResult :=
  {| valid := false; error := err; code := 0; message := "";
     details := d; supports_tls := false |}.

(** [verify_smtp]; the context manager [ValidationTimer] (imported
    from [metrics], which does not define it) only measures time.
    The second component lists the MX hosts contacted. *)
Definition verify_smtp (email : string) : SMTPResult * list string :=
  match validate_dns email with
  | Raise e => (failed ("Verification failed: " +:+ exn_str e) NoDetails, [])
  | Ret dns_result =>
      if negb (dns_valid dns_result) then
        (failed "DNS validation failed" DnsDetails, [])
      else
        match index1 (split "@" email) with
        | Raise e =>
            (failed ("Verification failed: " +:+ exn_str e) NoDetails, [])
        | Ret domain =>
            match mx_records dns_result with
            | [] =>
                (failed ("No MX records found for domain: " +:+ domain)
                        NoDetails, [])
            | _ =>
                match try_servers email domain
                                  (sorted (mx_records dns_result)) with
                | (Some result, tried) => (result, tried)
                | (None, tried) =>
                    (failed "All MX servers failed verification"
                            (TriedServers
                               (map snd (mx_records dns_result))),
                     tried)
                end
            end
        end
  end.

End WithNetwork.

End SmtpVerifier.

(* ===================================================================== *)
(** * app/utils/domain_reputation_checker.py                              *)
(* ===================================================================== *)

Module DomainReputationChecker.

Local Open Scope Q_scope.

(** Reputation scoring weights, [WEIGHTS]. *)
Definition W_domain_age : Q := 0.25.
Definition W_blacklist_status : Q := 0.30.
Definition W_ssl_status : Q := 0.15.
Definition W_web_presence : Q := 0.15.
Definition W_mail_config : Q := 0.15.

Definition BLACKLIST_SERVERS : list string :=
  [ "zen.spamhaus.org"; "bl.spamcop.net"; "dnsbl.sorbs.net";
    "spam.abuse.ch"; "cbl.abuseat.org" ].

Definition high_risk_threshold : Q := 70.
Definition medium_risk_threshold : Q := 40.

Record SubScores := {
  domain_age_score : Q;
  blacklist_score : Q;
  ssl_score : Q;
  web_presence_score : Q;
  mail_config_score : Q
}.

(** The dataclass [DomainReputation]; [details] is [None] by default. *)
Record DomainReputation := {
  score : Q;
  risk_level : string;
  details : option SubScores;
  error : string
}.

(** What the sub-checks learn from outside. *)
Record World := {
  (** [whois.whois(domain)] and the date arithmetic on its answer:
      [Ret None] when [creation_date] is empty, [Ret (Some d)] when the
      domain is [d] days old, [Raise] when any of it fails. *)
  whois_age_days : string -> outcome (option Z);
  (** [socket.gethostbyname_ex(bl_server)], as a truth value. *)
  gethostbyname_ex : string -> outcome bool;
  (** Starting the [ThreadPoolExecutor] of [_check_blacklists] and
      submitting its tasks; raises when no thread can be started. *)
  thread_pool : outcome unit;
  (** The TLS handshake on port 443 and the reading of the certificate. *)
  tls_certificate : string -> outcome unit;
  (** [requests.get("https://" + domain, timeout=5).status_code] *)
  https_status : string -> outcome Z;
  (** [socket.getaddrinfo("@" + domain, None)], as a truth value. *)
  getaddrinfo : string -> outcome bool;
  (** [socket.gethostbyname(name)] *)
  gethostbyname : string -> outcome unit
}.

(** Python's [min(a, b)] and [max(a, b)]: the first argument wins ties. *)
Definition py_min (a b : Q) : Q := if Qle_bool a b then a else b.
Definition py_max (a b : Q) : Q := if Qle_bool b a then a else b.

Section WithWorld.

Variable w : World.

(** [_check_domain_age]: [None] is Python's [None], returned when the
    [if w.creation_date:] test fails and the function falls off its
    end. *)
Definition _check_domain_age (domain : string) : option Q :=
  match whois_age_days w domain with
  | Ret (Some age_days) =>
      let max_age : Q := inject_Z (5 * 365) in
      Some (py_max 0 (py_min 100
              ((max_age - inject_Z age_days) / max_age * 100)))
  | Ret None => None
  | Raise _ => Some 50        (* Neutral score on failure *)
  end.

(** [check_single_blacklist]: a bare [except:] swallows every error. *)
Definition check_single_blacklist (bl_server : string) : option string :=
  match gethostbyname_ex w bl_server with
  | Ret true => Some bl_server
  | _ => None
  end.

Definition listed_on : list string :=
  omap check_single_blacklist BLACKLIST_SERVERS.

(** [_check_blacklists]: the only sub-check without a [try] of its own
    around its body. *)
Definition _check_blacklists (domain : string) : outcome Q :=
  (_ <- thread_pool w ;;
   Ret (inject_Z (Z.of_nat (length listed_on))
        / inject_Z (Z.of_nat (length BLACKLIST_SERVERS)) * 100))%outcome.

Definition _check_ssl (domain : string) : Q :=
  match tls_certificate w domain with
  | Ret _ => 0                (* Good SSL = low risk *)
  | Raise _ => 100            (* No/bad SSL = high risk *)
  end.

Definition _check_web_presence (domain : string) : Q :=
  match https_status w domain with
  | Ret status => if (status =? 200)%Z then 0 else 50
  | Raise _ => 50             (* Neutral score on failure *)
  end.

Definition _check_mail_config (domain : string) : Q :=
  match getaddrinfo w ("@" +:+ domain) with
  | Raise _ => 50             (* Neutral score on failure *)
  | Ret mx_records =>
      let has_spf := returns (gethostbyname w ("_spf." +:+ domain)) in
      let has_dmarc := returns (gethostbyname w ("_dmarc." +:+ domain)) in
      (if negb mx_records then 40 else 0)
      + (if negb has_spf then 30 else 0)
      + (if negb has_dmarc then 30 else 0)
  end.

(** The left operand of [age_score * WEIGHTS["domain_age"]]:
    multiplying [None] by a float is a [TypeError]. *)
Definition as_factor (x : option Q) : outcome Q :=
  match x with
  | Some v => Ret v
  | None =>
      Raise (mk_exn TypeError
        "unsupported operand type(s) for *: 'NoneType' and 'float'")
  end.

Definition risk_of (total_score : Q) : string :=
  if Qle_bool high_risk_threshold total_score then "high"
  else if Qle_bool medium_risk_threshold total_score then "medium"
  else "low".

(** The body of the [try:] in [check_reputation]. *)
Definition check_reputation_try (domain : string)
  : outcome DomainReputation :=
  let age_score := _check_domain_age domain in
  (blacklist_score <- _check_blacklists domain ;;
   let ssl_score := _check_ssl domain in
   let web_score := _check_web_presence domain in
   let mail_score := _check_mail_config domain in
   age_score <- as_factor age_score ;;
   let total_score :=
     0 + age_score * W_domain_age
       + blacklist_score * W_blacklist_status
       + ssl_score * W_ssl_status
       + web_score * W_web_presence
       + mail_score * W_mail_config in
   Ret {| score := total_score;
          risk_level := risk_of total_score;
          details :=
            Some {| domain_age_score := age_score;
                    blacklist_score := blacklist_score;
                    ssl_score := ssl_score;
                    web_presence_score := web_score;
                    mail_config_score := mail_score |};
          error := "" |})%outcome.

(** [check_reputation]: [except Exception] assumes the worst.  As in
    [smtp_verifier], [ValidationTimer] only measures time. *)
Definition check_reputation (domain : string) : outcome DomainReputation :=
  try_except (check_reputation_try domain) Exception
    (fun e => Ret {| score := 100;      (* Assume worst score on failure *)
                     risk_level := "high";
                     details := None;
                     error := exn_str e |}).

End WithWorld.

End DomainReputationChecker.

(* ===================================================================== *)
(** * app/utils/catch_all_detector.py                                     *)
(* ===================================================================== *)

Module CatchAllDetector.

(** One probe response, [{"code": ...}]. *)
Record Response := { code : Z }.

Definition count_code (c : Z) (responses : list Response) : nat :=
  length (List.filter (fun r => (code r =? c)%Z) responses).

(** How often the most frequent response code occurs. *)
Definition dominant_count (responses : list Response) : nat :=
  fold_right Nat.max 0%nat
             (map (fun r => count_code (code r) responses) responses).

(** Modelled from the spec: [_calculate_confidence] is imported by
    [tests/test_utils/test_catch_all_detector.py] from
    [app.utils.catch_all_detector], which does not define it.  The spec
    (section 4.6) gives: all-identical responses, confidence 1.0; mixed
    responses, proportional to the dominant response's share; empty
    response set, confidence 0.0. *)
Definition _calculate_confidence (responses : list Response) : Q :=
  match responses with
  | [] => 0
  | _ => inject_Z (Z.of_nat (dominant_count responses))
         / inject_Z (Z.of_nat (length responses))
  end.

(** "Mixed": two responses carry different codes. *)
Definition mixed (responses : list Response) : Prop :=
  exists r1 r2, In r1 responses /\ In r2 responses /\ code r1 <> code r2.

(** ** The detector itself: [get_mx_record] and [is_catch_all] *)

(** What [dns.resolver.resolve(domain, 'MX')] does: it returns the
    records, as pairs [(r.preference, r.exchange.to_text())], or raises
    [NoAnswer], [NXDOMAIN] or something else. *)
Inductive MxAnswer :=
| Answers (records : list (Z * string))
| NoAnswer
| NXDOMAIN
| ResolveFailed (e : exn).

(** [sorted(..., key=lambda x: x[0])]: by preference only, and stable. *)
Fixpoint insert_by_preference (x : Z * string) (l : list (Z * string))
  : list (Z * string) :=
  match l with
  | [] => [x]
  | y :: rest =>
      if (fst x <=? fst y)%Z then x :: l
      else y :: insert_by_preference x rest
  end.

Definition sorted_by_preference (l : list (Z * string)) : list (Z * string) :=
  fold_right insert_by_preference [] l.

(** The SMTP dialogue of [is_catch_all] with one server. *)
Record Probe := {
  connect : outcome unit;        (* server.connect(mx_record) *)
  helo : outcome unit;           (* server.helo(server.local_hostname) *)
  mail : outcome unit;           (* server.mail('no-reply@example.com') *)
  rcpt : outcome (Z * string);   (* server.rcpt(random_email) *)
  quit : outcome unit            (* server.quit() *)
}.

Section WithNetwork.

Variable resolve : string -> MxAnswer.
(** The server behind an MX host, asked about an address. *)
Variable server : string -> string -> Probe.
(** The ten characters [random.choices] draws. *)
Variable random_local_part : string.

Definition generate_random_email (domain : string) : string :=
  random_local_part +:+ "@" +:+ domain.

Definition get_mx_record (domain : string) : outcome string :=
  match resolve domain with
  | Answers answers =>
      match sorted_by_preference answers with
      | (_, primary_mx) :: _ => Ret primary_mx
      | [] =>
          (* mx_records[0] raises IndexError, caught by except Exception *)
          Raise (mk_exn SMTPVerificationError
                   "Error retrieving MX records: list index out of range")
      end
  | NoAnswer =>
      Raise (mk_exn SMTPVerificationError "No MX records found for domain.")
  | NXDOMAIN =>
      Raise (mk_exn SMTPVerificationError "Domain does not exist.")
  | ResolveFailed e =>
      Raise (mk_exn SMTPVerificationError
               ("Error retrieving MX records: " +:+ exn_str e))
  end.

Definition is_catch_all (domain : string) : outcome bool :=
  let random_email := generate_random_email domain in
  let body :=
    (mx_record <- get_mx_record domain ;;
     let s := server mx_record random_email in
     _ <- connect s ;;
     _ <- helo s ;;
     _ <- mail s ;;
     r <- rcpt s ;;
     _ <- quit s ;;
     Ret (fst r =? 250)%Z)%outcome in
  match body with
  | Ret answer => Ret answer
  | Raise e =>
      if isinstance e SMTPVerificationError then Raise e
      else Raise (mk_exn SMTPVerificationError
                    ("Unexpected error: " +:+ exn_str e))
  end.

End WithNetwork.

End CatchAllDetector.

(* ===================================================================== *)
(** * app/utils/validation_orchestrator.py                                *)
(* ===================================================================== *)

Module ValidationOrchestrator.

(** [results["checks"]]; the key ["smtp"] is absent at first. *)
Record Checks := {
  syntax_is_valid : bool;
  dns : gmap string pyval;
  disposable_is_disposable : pyval;
  role_account_is_role : pyval;
  spam_trap_is_trap : pyval;
  catch_all_is_catch_all : pyval;
  typos_suggestions : pyval;
  reputation_score : pyval;
  smtp_verified : option pyval
}.

(** The dictionary [results] that [validate_email] fills in place. *)
Record Results := {
  email : string;
  is_valid : pyval;
  checks : Checks;
  score : pyval;
  error : option string
}.

Definition initial_results (email : string) : Results :=
  {| email := email;
     is_valid := VBool false;
     checks := {| syntax_is_valid := false;
                  dns := ∅;
                  disposable_is_disposable := VBool false;
                  role_account_is_role := VBool false;
                  spam_trap_is_trap := VBool false;
                  catch_all_is_catch_all := VBool false;
                  typos_suggestions := VList [];
                  reputation_score := VInt 0;
                  smtp_verified := None |};
     score := VInt 0;
     error := None |}.

(** [results] as the dictionary it is, for code that indexes it. *)
Definition checks_dict (c : Checks) : gmap string pyval :=
  let base : gmap string pyval :=
    {[ "syntax" := VDict {[ "is_valid" := VBool (syntax_is_valid c) ]};
       "dns" := VDict (dns c);
       "disposable" := VDict {[ "is_disposable" := disposable_is_disposable c ]};
       "role_account" := VDict {[ "is_role" := role_account_is_role c ]};
       "spam_trap" := VDict {[ "is_trap" := spam_trap_is_trap c ]};
       "catch_all" := VDict {[ "is_catch_all" := catch_all_is_catch_all c ]};
       "typos" := VDict {[ "suggestions" := typos_suggestions c ]};
       "reputation" := VDict {[ "score" := reputation_score c ]} ]} in
  match smtp_verified c with
  | Some v => <[ "smtp" := VDict {[ "verified" := v ]} ]> base
  | None => base
  end.

Definition results_dict (r : Results) : gmap string pyval :=
  {[ "email" := VStr (email r);
     "is_valid" := is_valid r;
     "checks" := VDict (checks_dict (checks r));
     "score" := score r;
     "error" := match error r with Some e => VStr e | None => VNone end ]}.

(** A number operand; anything else is a [TypeError]. *)
Definition number (v : pyval) : outcome Q :=
  match v with
  | VInt z => Ret (inject_Z z)
  | VNum q => Ret q
  | VBool b => Ret (if b then 1%Q else 0%Q)
  | _ => Raise (mk_exn TypeError "unsupported operand type(s) for -")
  end.

(** [if not d[k]: score += n] and [if d[k]: score += n] *)
Definition add_unless (d : gmap string pyval) (k : string) (n score : Q)
  : outcome Q :=
  (v <- getitem d k ;; Ret (if truthy v then score else (score + n)%Q))%outcome.

Definition add_if (d : gmap string pyval) (k : string) (n score : Q)
  : outcome Q :=
  (v <- getitem d k ;; Ret (if truthy v then (score + n)%Q else score))%outcome.

(** [calculate_risk_score], the function defined at the end of the
    module.  Its [def] rebinds the name imported from [risk_score], so
    it is the one [validate_email] calls. *)
Definition calculate_risk_score (validation_result : gmap string pyval)
  : outcome Q :=
  (score <- add_unless validation_result "syntax_valid" 40 0 ;;
   score <- add_unless validation_result "domain_exists" 40 score ;;
   score <- add_unless validation_result "mx_records_valid" 30 score ;;
   score <- add_unless validation_result "smtp_verified" 20 score ;;
   score <- add_unless validation_result "has_ptr" 10 score ;;
   score <- add_if validation_result "disposable" 15 score ;;
   score <- add_if validation_result "role_account" 5 score ;;
   score <- add_if validation_result "spam_trap" 40 score ;;
   score <- add_if validation_result "catch_all" 10 score ;;
   domain_reputation <- getitem validation_result "domain_reputation" ;;
   reputation <- number domain_reputation ;;
   let reputation_factor := ((100 - reputation) * 0.2)%Q in
   let score := (score + reputation_factor)%Q in
   Ret (if Qle_bool 100 score then 100%Q else score))%outcome.

(** ** Updating [results] in place *)

Definition with_error (e : option string) (r : Results) : Results :=
  {| email := email r; is_valid := is_valid r; checks := checks r;
     score := score r; error := e |}.

Definition with_is_valid (v : pyval) (r : Results) : Results :=
  {| email := email r; is_valid := v; checks := checks r;
     score := score r; error := error r |}.

Definition with_score (v : pyval) (r : Results) : Results :=
  {| email := email r; is_valid := is_valid r; checks := checks r;
     score := v; error := error r |}.

Definition with_checks (f : Checks -> Checks) (r : Results) : Results :=
  {| email := email r; is_valid := is_valid r; checks := f (checks r);
     score := score r; error := error r |}.

Definition set_syntax_is_valid (b : bool) (c : Checks) : Checks :=
  {| syntax_is_valid := b; dns := dns c;
     disposable_is_disposable := disposable_is_disposable c;
     role_account_is_role := role_account_is_role c;
     spam_trap_is_trap := spam_trap_is_trap c;
     catch_all_is_catch_all := catch_all_is_catch_all c;
     typos_suggestions := typos_suggestions c;
     reputation_score := reputation_score c;
     smtp_verified := smtp_verified c |}.

Definition set_dns (d : gmap string pyval) (c : Checks) : Checks :=
  {| syntax_is_valid := syntax_is_valid c; dns := d;
     disposable_is_disposable := disposable_is_disposable c;
     role_account_is_role := role_account_is_role c;
     spam_trap_is_trap := spam_trap_is_trap c;
     catch_all_is_catch_all := catch_all_is_catch_all c;
     typos_suggestions := typos_suggestions c;
     reputation_score := reputation_score c;
     smtp_verified := smtp_verified c |}.

Definition set_disposable (v : pyval) (c : Checks) : Checks :=
  {| syntax_is_valid := syntax_is_valid c; dns := dns c;
     disposable_is_disposable := v;
     role_account_is_role := role_account_is_role c;
     spam_trap_is_trap := spam_trap_is_trap c;
     catch_all_is_catch_all := catch_all_is_catch_all c;
     typos_suggestions := typos_suggestions c;
     reputation_score := reputation_score c;
     smtp_verified := smtp_verified c |}.

Definition set_role_account (v : pyval) (c : Checks) : Checks :=
  {| syntax_is_valid := syntax_is_valid c; dns := dns c;
     disposable_is_disposable := disposable_is_disposable c;
     role_account_is_role := v;
     spam_trap_is_trap := spam_trap_is_trap c;
     catch_all_is_catch_all := catch_all_is_catch_all c;
     typos_suggestions := typos_suggestions c;
     reputation_score := reputation_score c;
     smtp_verified := smtp_verified c |}.

Definition set_spam_trap (v : pyval) (c : Checks) : Checks :=
  {| syntax_is_valid := syntax_is_valid c; dns := dns c;
     disposable_is_disposable := disposable_is_disposable c;
     role_account_is_role := role_account_is_role c;
     spam_trap_is_trap := v;
     catch_all_is_catch_all := catch_all_is_catch_all c;
     typos_suggestions := typos_suggestions c;
     reputation_score := reputation_score c;
     smtp_verified := smtp_verified c |}.

Definition set_catch_all (v : pyval) (c : Checks) : Checks :=
  {| syntax_is_valid := syntax_is_valid c; dns := dns c;
     disposable_is_disposable := disposable_is_disposable c;
     role_account_is_role := role_account_is_role c;
     spam_trap_is_trap := spam_trap_is_trap c;
     catch_all_is_catch_all := v;
     typos_suggestions := typos_suggestions c;
     reputation_score := reputation_score c;
     smtp_verified := smtp_verified c |}.

Definition set_typos (v : pyval) (c : Checks) : Checks :=
  {| syntax_is_valid := syntax_is_valid c; dns := dns c;
     disposable_is_disposable := disposable_is_disposable c;
     role_account_is_role := role_account_is_role c;
     spam_trap_is_trap := spam_trap_is_trap c;
     catch_all_is_catch_all := catch_all_is_catch_all c;
     typos_suggestions := v;
     reputation_score := reputation_score c;
     smtp_verified := smtp_verified c |}.

Definition set_reputation (v : pyval) (c : Checks) : Checks :=
  {| syntax_is_valid := syntax_is_valid c; dns := dns c;
     disposable_is_disposable := disposable_is_disposable c;
     role_account_is_role := role_account_is_role c;
     spam_trap_is_trap := spam_trap_is_trap c;
     catch_all_is_catch_all := catch_all_is_catch_all c;
     typos_suggestions := typos_suggestions c;
     reputation_score := v;
     smtp_verified := smtp_verified c |}.

Definition set_smtp (v : pyval) (c : Checks) : Checks :=
  {| syntax_is_valid := syntax_is_valid c; dns := dns c;
     disposable_is_disposable := disposable_is_disposable c;
     role_account_is_role := role_account_is_role c;
     spam_trap_is_trap := spam_trap_is_trap c;
     catch_all_is_catch_all := catch_all_is_catch_all c;
     typos_suggestions := typos_suggestions c;
     reputation_score := reputation_score c;
     smtp_verified := Some v |}.

(** ** The collaborators and the state of one call *)

(** The calls [validate_email] makes after the syntax check. *)
Inductive Call :=
| DnsValidateDomain (domain : string)
| VerifySmtp (domain : string)
| IsDisposableEmail (email : string)
| IsRoleAccount (email : string)
| DetectTypo (email : string)
| GetDomainReputation (domain : string)
| SpamTrapCheck (email : string)
| CatchAllCheck (domain : string).

(** What each call expression of [validate_email] evaluates to,
    [await] included; in tests these are the mocks. *)
Record Env := {
  str_lower : string -> string;
  dns_validate_domain : string -> outcome (gmap string pyval);
  verify_smtp : string -> outcome pyval;
  is_disposable_email : string -> outcome pyval;
  is_role_account : string -> outcome pyval;
  detect_typo : string -> outcome pyval;
  get_domain_reputation : string -> outcome pyval;
  spam_trap_check : string -> outcome pyval;
  catch_all_check : string -> outcome pyval;
  (** Whether the global names [logger] and [RateLimitExceeded] are
      bound when [validate_email] runs.  [validation_orchestrator.py]
      uses both and neither imports nor assigns them, so as shipped
      both are [false]. *)
  logger_bound : bool;
  RateLimitExceeded_bound : bool
}.

(** [results] and the collaborator calls made so far. *)
Record State := { results : Results; calls : list Call }.

(** A computation that reads and updates the state and may raise; the
    state survives an exception, as the mutated dictionary does. *)
Definition M (A : Type) : Type := State -> outcome A * State.

Definition ret {A} (a : A) : M A := fun st => (Ret a, st).

Definition raise {A} (e : exn) : M A := fun st => (Raise e, st).

Definition bindM {A B} (m : M A) (k : A -> M B) : M B :=
  fun st => match m st with
            | (Ret a, st') => k a st'
            | (Raise e, st') => (Raise e, st')
            end.

Definition lift {A} (o : outcome A) : M A := fun st => (o, st).

Definition call {A} (c : Call) (o : outcome A) : M A :=
  fun st => (o, {| results := results st; calls := calls st ++ [c] |}).

Definition modify (f : Results -> Results) : M unit :=
  fun st => (Ret tt, {| results := f (results st); calls := calls st |}).

Definition get_results : M Results := fun st => (Ret (results st), st).

(** [try: m  except c as e: h e] *)
Definition try_M {A} (m : M A) (c : exn_class) (h : exn -> M A) : M A :=
  fun st => match m st with
            | (Ret a, st') => (Ret a, st')
            | (Raise e, st') =>
                if isinstance e c then h e st' else (Raise e, st')
            end.

Declare Scope orch_scope.
Delimit Scope orch_scope with orch.
Notation "x <- m ;; k" := (bindM m (fun x => k))
  (at level 100, m at next level, right associativity) : orch_scope.

(** A use of a global name that is not bound. *)
Definition unbound {A} (name : string) : M A :=
  raise (mk_exn NameError ("name '" +:+ name +:+ "' is not defined")).

Definition set_error (msg : string) : M unit := modify (with_error (Some msg)).

(** [d.get(k)] and [d.get(k, False)] *)
Definition get (d : gmap string pyval) (k : string) : pyval :=
  default VNone (d !! k).

Definition get_or_false (d : gmap string pyval) (k : string) : pyval :=
  default (VBool false) (d !! k).

(** [a and b], with [b] evaluated only when [a] is truthy. *)
Definition py_and (a : pyval) (b : pyval) : pyval :=
  if truthy a then b else a.

Definition py_not (a : pyval) : pyval := VBool (negb (truthy a)).

(** An entry of a batch: a result of [validate_email], or the
    dictionary built for a task that raised,
    [{"email": ..., "is_valid": False, "status": "Error", "error": ...}]. *)
Inductive BatchItem :=
| Validated (r : Results)
| Errored (email : string) (error : string).

Definition item_email (i : BatchItem) : string :=
  match i with
  | Validated r => email r
  | Errored e _ => e
  end.

Section WithEnv.

Variable env : Env.

(** [extract_domain]: the [IndexError] of an address without "@" is
    caught, so the function raises nothing and the [except
    ValidationError] around its call in [validate_email] never runs. *)
Definition extract_domain (email : string) : string :=
  match index1 (split "@" email) with
  | Ret d => str_lower env d
  | Raise _ => ""
  end.

(** [logger.error(...)] and [logger.warning(...)]: nothing that
    [validate_email] can observe while [logger] is bound. *)
Definition log : M unit :=
  if logger_bound env then ret tt else unbound "logger".

(** The block under [# Syntax Validation]; [false] stands for the
    [return results] inside it. *)
Definition syntax_validation (email : string) : M bool :=
  try_M
    (ok <- lift (SyntaxValidator.validate_syntax email) ;;
     if negb ok then
       _ <- set_error "Invalid email syntax" ;; ret false
     else
       _ <- modify (with_checks (set_syntax_is_valid true)) ;; ret true)%orch
    Exception
    (fun e =>
       _ <- log ;;
       _ <- set_error ("Syntax validation error: " +:+ exn_str e) ;;
       ret false)%orch.

(** The block under [# DNS Validation]; [None] stands for the
    [return results] inside it.  When the body raises, Python first
    looks up the class named by [except RateLimitExceeded]. *)
Definition dns_validation (domain : string) : M (option (gmap string pyval)) :=
  try_M
    (dns_results <- call (DnsValidateDomain domain)
                         (dns_validate_domain env domain) ;;
     _ <- modify (with_checks (set_dns dns_results)) ;;
     if negb (truthy (get dns_results "has_mx"))
        && negb (truthy (get dns_results "has_a"))
     then
       _ <- set_error "Domain has no valid mail servers" ;; ret None
     else ret (Some dns_results))%orch
    Exception
    (fun e =>
       if negb (RateLimitExceeded_bound env) then unbound "RateLimitExceeded"
       else if isinstance e RateLimitExceeded then
         _ <- log ;;
         _ <- set_error ("Rate limit exceeded: " +:+ exn_str e) ;;
         ret None
       else if isinstance e ValidationError then
         _ <- log ;;
         _ <- set_error ("DNS validation error: " +:+ exn_str e) ;;
         ret None
       else raise e)%orch.

(** The [try] body under [# Additional Validation Steps]. *)
Definition additional_steps (email domain : string)
           (dns_results : gmap string pyval) : M Results :=
  (smtp_result <- call (VerifySmtp domain) (verify_smtp env domain) ;;
   _ <- modify (with_checks (set_smtp smtp_result)) ;;
   is_disposable <- call (IsDisposableEmail email)
                         (is_disposable_email env email) ;;
   _ <- modify (with_checks (set_disposable is_disposable)) ;;
   is_role <- call (IsRoleAccount email) (is_role_account env email) ;;
   _ <- modify (with_checks (set_role_account is_role)) ;;
   typo_suggestions <- call (DetectTypo email) (detect_typo env email) ;;
   _ <- (if truthy typo_suggestions
         then modify (with_checks (set_typos typo_suggestions))
         else ret tt) ;;
   reputation <- call (GetDomainReputation domain)
                      (get_domain_reputation env domain) ;;
   _ <- modify (with_checks (set_reputation reputation)) ;;
   is_spam_trap <- call (SpamTrapCheck email) (spam_trap_check env email) ;;
   _ <- modify (with_checks (set_spam_trap is_spam_trap)) ;;
   is_catch_all <- call (CatchAllCheck domain) (catch_all_check env domain) ;;
   _ <- modify (with_checks (set_catch_all is_catch_all)) ;;
   r <- get_results ;;
   _ <- modify (with_is_valid
          (py_and (VBool (syntax_is_valid (checks r)))
             (py_and (get_or_false dns_results "has_mx")
                (py_and (py_not (disposable_is_disposable (checks r)))
                        (py_not (spam_trap_is_trap (checks r))))))) ;;
   r <- get_results ;;
   risk <- lift (calculate_risk_score (results_dict r)) ;;
   _ <- modify (with_score (VNum risk)) ;;
   get_results)%orch.

Definition validate_email_body (email : string) : M Results :=
  (let domain := extract_domain email in
   go_on <- syntax_validation email ;;
   if negb go_on then get_results
   else
     dns_results <- dns_validation domain ;;
     match dns_results with
     | None => get_results
     | Some dns_results =>
         try_M (additional_steps email domain dns_results)
               Exception
               (fun e =>
                  _ <- log ;;
                  _ <- set_error ("Validation error: " +:+ exn_str e) ;;
                  get_results)
     end)%orch.

(** [validate_email]: what the call returns or raises, and the state
    it leaves: the [results] dictionary and the calls made. *)
Definition validate_email (email : string) : outcome Results * State :=
  validate_email_body email
    {| results := initial_results email; calls := [] |}.

(** ** Batches *)

(** The inner function [process_batch]: [gather(..., return_exceptions
    =True)] yields the outcomes in task order, and [zip] pairs them
    with the batch. *)
Definition process_batch (batch : list string) : list BatchItem :=
  let completed_tasks := map (fun e => fst (validate_email e)) batch in
  map (fun '(email, result) =>
         match result with
         | Raise e => Errored email (exn_str e)
         | Ret r => Validated r
         end)
      (combine batch completed_tasks).

End WithEnv.

(** The checks after DNS, in the order [validate_email] calls them. *)
Definition post_dns_calls (email domain : string) : list Call :=
  [ VerifySmtp domain; IsDisposableEmail email; IsRoleAccount email;
    DetectTypo email; GetDomainReputation domain; SpamTrapCheck email;
    CatchAllCheck domain ].

(** Whether the collaborator behind a call returns rather than raises. *)
Definition call_returns (env : Env) (c : Call) : bool :=
  match c with
  | DnsValidateDomain domain => returns (dns_validate_domain env domain)
  | VerifySmtp domain => returns (verify_smtp env domain)
  | IsDisposableEmail email => returns (is_disposable_email env email)
  | IsRoleAccount email => returns (is_role_account env email)
  | DetectTypo email => returns (detect_typo env email)
  | GetDomainReputation domain => returns (get_domain_reputation env domain)
  | SpamTrapCheck email => returns (spam_trap_check env email)
  | CatchAllCheck domain => returns (catch_all_check env domain)
  end.

(** The calls of a sequence that are made when the first one that
    raises ends the sequence. *)
Fixpoint up_to_first_raise (env : Env) (cs : list Call) : list Call :=
  match cs with
  | [] => []
  | c :: rest =>
      if call_returns env c then c :: up_to_first_raise env rest else [c]
  end.

(** The address passes the syntax check and the DNS check finds an MX
    or an A record: [validate_email] gets to its additional steps. *)
Definition reaches_additional_steps (env : Env) (email : string) : Prop :=
  SyntaxValidator.re_match email = true
  /\ exists dns_results,
       dns_validate_domain env (extract_domain env email) = Ret dns_results
       /\ (truthy (get dns_results "has_mx")
           || truthy (get dns_results "has_a")) = true.

(** The state in which the additional steps start: syntax and DNS
    results recorded, one call made. *)
Definition state_after_gates (env : Env) (email : string)
           (dns_results : gmap string pyval) : State :=
  {| results :=
       with_checks (set_dns dns_results)
         (with_checks (set_syntax_is_valid true) (initial_results email));
     calls := [ DnsValidateDomain (extract_domain env email) ] |}.

(** Every external check healthy for [email]: MX records present, SMTP
    verified, reputation 80, not disposable, no typo, role or spam-trap
    match (and no catch-all). *)
Definition healthy (env : Env) (email : string) : Prop :=
  let domain := extract_domain env email in
  exists dns_results smtp_result,
    dns_validate_domain env domain = Ret dns_results
    /\ dns_results !! "has_mx" = Some (VBool true)
    /\ verify_smtp env domain = Ret smtp_result
    /\ truthy smtp_result = true
    /\ is_disposable_email env email = Ret (VBool false)
    /\ is_role_account env email = Ret (VBool false)
    /\ detect_typo env email = Ret VNone
    /\ get_domain_reputation env domain = Ret (VInt 80)
    /\ spam_trap_check env email = Ret (VBool false)
    /\ catch_all_check env domain = Ret (VBool false).

Record Summary := { total : Z; valid : Z; invalid : Z; errors : Z }.

(** What [validate_emails_batch] hands back: the dictionary with
    ["results"] and ["summary"], or a bare list. *)
Inductive BatchReturn :=
| ResultsAndSummary (results : list BatchItem) (summary : Summary)
| ResultsOnly (results : list BatchItem).

Definition returned_results (b : BatchReturn) : list BatchItem :=
  match b with
  | ResultsAndSummary l _ => l
  | ResultsOnly l => l
  end.

(** [validate_emails_batch]: for a non-empty input the statements run
    are [results = []], the [def] of [process_batch] and [return
    results].  The loop that slices [emails] and extends [results] is
    indented into [process_batch], after its [return]; nothing calls
    [process_batch]. *)
Definition validate_emails_batch (emails : list string) (batch_size : Z)
  : BatchReturn :=
  match emails with
  | [] => ResultsAndSummary []
            {| total := 0; valid := 0; invalid := 0; errors := 0 |}
  | _ :: _ => ResultsOnly []
  end.

(** The ten keys [calculate_risk_score] indexes. *)
Definition flat_keys : list string :=
  [ "syntax_valid"; "domain_exists"; "mx_records_valid"; "smtp_verified";
    "has_ptr"; "disposable"; "role_account"; "spam_trap"; "catch_all";
    "domain_reputation" ].

End ValidationOrchestrator.

(* ===================================================================== *)
(** * app/utils/risk_score.py                                             *)
(* ===================================================================== *)

Module RiskScore.

(** [v[k]] with a string key: only a dict can be indexed that way. *)
Definition index (v : pyval) (k : string) : outcome pyval :=
  match v with
  | VDict d => getitem d k
  | _ => Raise (mk_exn TypeError "indices must be integers")
  end.

(** A number operand of [*]; [VBool] counts as 0 or 1. *)
Definition number (v : pyval) : outcome Q :=
  match v with
  | VInt z => Ret (inject_Z z)
  | VNum q => Ret q
  | VBool b => Ret (if b then 1%Q else 0%Q)
  | _ => Raise (mk_exn TypeError "unsupported operand type(s) for /")
  end.

(** [int(x)]: truncation toward zero. *)
Definition py_int (q : Q) : Z := Z.quot (Qnum q) (Zpos (Qden q)).

(** ** Float arithmetic

    A [VNum] is a finite float.  An operation on floats gives the float
    nearest to the exact result, ties going to the even significand. *)

(** For [0 < x], the [e] with [2^e <= x < 2^(e+1)]. *)
Definition floor_log2 (x : Q) : Z :=
  let k := (Z.log2 (Qnum x) - Z.log2 (Zpos (Qden x)))%Z in
  if Qle_bool (2 ^ k) x then k else (k - 1)%Z.

(** The nearest integer, the even one of two that are equally near. *)
Definition round_half_even (x : Q) : Z :=
  let f := Qfloor x in
  match (x - inject_Z f ?= 1 # 2)%Q with
  | Lt => f
  | Gt => (f + 1)%Z
  | Eq => if Z.even f then f else (f + 1)%Z
  end.

(** The nearest float: 53 bits of significand, and a spacing that never
    goes below [2^-1074], that of the subnormal floats.  The upper end
    of the range is [too_large_for_float]'s business. *)
Definition to_float (x : Q) : Q :=
  if Qeq_bool x 0 then 0%Q
  else
    let quantum := (2 ^ Z.max (floor_log2 (Qabs x) - 52) (-1074))%Q in
    (inject_Z (round_half_even (x / quantum)) * quantum)%Q.

(** The largest float is [2^1024 - 2^971]; a result half a spacing
    above it or more rounds to [2^1024], which no float holds. *)
Definition float_limit : Q := inject_Z (2 ^ 1024 - 2 ^ 970).
Definition too_large_for_float (x : Q) : bool :=
  Qle_bool float_limit (Qabs x).

(** The point allotments, [weights]. *)
Definition W_syntax : Z := 20.
Definition W_dns : Z := 30.
Definition W_smtp : Z := 20.
Definition W_disposable : Z := 10.
Definition W_spam_trap : Z := 10.
Definition W_reputation : Z := 10.

(** [int((weights["reputation"] * reputation_score) / 100)].

    With an [int] (a [bool] is one) the product is an exact [int], and
    [/] gives the float nearest to the exact quotient or raises
    [OverflowError] when no float is near enough.  With a [float] the
    product is rounded, and beyond the range it is [inf] without an
    error; [inf / 100] is [inf] again, and it is [int] that raises
    [OverflowError] then.  [None] and a dict fail in [*]; a [str] and a
    list are repeated by [*] and fail in [/]. *)
Definition reputation_points (reputation_score : pyval) : outcome Z :=
  let of_int (z : Z) :=
    let product := (W_reputation * z)%Z in
    let quotient := (inject_Z product / 100)%Q in
    if too_large_for_float quotient
    then Raise (mk_exn OverflowError
                  "integer division result too large for a float")
    else Ret (py_int (to_float quotient)) in
  match reputation_score with
  | VInt z => of_int z
  | VBool b => of_int (if b then 1 else 0)%Z
  | VNum x =>
      let product := (inject_Z W_reputation * x)%Q in
      if too_large_for_float product
      then Raise (mk_exn OverflowError
                    "cannot convert float infinity to integer")
      else Ret (py_int (to_float (to_float product / 100)))
  | VNone =>
      Raise (mk_exn TypeError
               "unsupported operand type(s) for *: 'int' and 'NoneType'")
  | VStr _ =>
      Raise (mk_exn TypeError
               "unsupported operand type(s) for /: 'str' and 'int'")
  | VList _ =>
      Raise (mk_exn TypeError
               "unsupported operand type(s) for /: 'list' and 'int'")
  | VDict _ =>
      Raise (mk_exn TypeError
               "unsupported operand type(s) for *: 'int' and 'dict'")
  end.

(** Whether the reputation is a number so large that
    [reputation_points] leaves the range of floats: with an [int] the
    quotient does, with a [float] already the product. *)
Definition overflows (reputation_score : pyval) : bool :=
  match reputation_score with
  | VInt z => too_large_for_float (inject_Z (W_reputation * z) / 100)
  | VNum x => too_large_for_float (inject_Z W_reputation * x)
  | _ => false
  end.

(** [calculate_risk_score], the function [validation_orchestrator]
    imports (and then shadows): "higher is better". *)
Definition calculate_risk_score (validation_result : gmap string pyval)
  : outcome Z :=
  (let score := 0%Z in
   checks <- getitem validation_result "checks" ;;
   syntax <- index checks "syntax" ;;
   is_valid <- index syntax "is_valid" ;;
   let score := if truthy is_valid then (score + W_syntax)%Z else score in
   dns <- index checks "dns" ;;
   has_mx <- dict_get dns "has_mx" VNone ;;
   let dns_score := if truthy has_mx then 15%Z else 0%Z in
   has_a <- dict_get dns "has_a" VNone ;;
   let dns_score := if truthy has_a then (dns_score + 10)%Z else dns_score in
   has_ptr <- dict_get dns "has_ptr" VNone ;;
   let dns_score := if truthy has_ptr then (dns_score + 5)%Z else dns_score in
   let score := (score + Z.min dns_score W_dns)%Z in
   smtp <- dict_get checks "smtp" (VDict ∅) ;;
   verified <- dict_get smtp "verified" VNone ;;
   let score := if truthy verified then (score + W_smtp)%Z else score in
   disposable <- index checks "disposable" ;;
   is_disposable <- index disposable "is_disposable" ;;
   let score :=
     if negb (truthy is_disposable) then (score + W_disposable)%Z else score in
   spam_trap <- index checks "spam_trap" ;;
   is_trap <- index spam_trap "is_trap" ;;
   let score :=
     if negb (truthy is_trap) then (score + W_spam_trap)%Z else score in
   reputation <- index checks "reputation" ;;
   reputation_score <- dict_get reputation "score" (VInt 0) ;;
   points <- reputation_points reputation_score ;;
   let score := (score + points)%Z in
   Ret (Z.min (Z.max score 0) 100))%outcome.

End RiskScore.

(* ===================================================================== *)
(** * app/utils/batch_processing.py                                       *)
(* ===================================================================== *)

Module BatchProcessing.

Import ValidationOrchestrator.

Section WithEnv.

Variable env : Env.

(** [process_email_batch]: the tasks are gathered with
    [return_exceptions=True], so the outcomes come back in task order and
    [zip] pairs them with the batch. *)
Definition process_email_batch (batch : list string) : list BatchItem :=
  let completed_tasks := map (fun e => fst (validate_email env e)) batch in
  map (fun '(email, result) =>
         match result with
         | Raise e => Errored email (exn_str e)
         | Ret r => Validated r
         end)
      (combine batch completed_tasks).

(** The entry built for one address. *)
Definition entry_of (e : string) : BatchItem :=
  match fst (validate_email env e) with
  | Ret r => Validated r
  | Raise x => Errored e (exn_str x)
  end.

End WithEnv.

(** The dictionary behind an entry of a batch. *)
Definition item_dict (i : BatchItem) : gmap string pyval :=
  match i with
  | Validated r => results_dict r
  | Errored email error =>
      {[ "email" := VStr email; "is_valid" := VBool false;
         "status" := VStr "Error"; "error" := VStr error ]}
  end.

(** [r.get(k, default)] on a dictionary. *)
Definition get_or (r : gmap string pyval) (k : string) (default : pyval)
  : pyval :=
  match r !! k with Some v => v | None => default end.

(** [v == "Error"] *)
Definition eq_str (v : pyval) (s : string) : bool :=
  match v with VStr t => String.eqb t s | _ => false end.

(** [sum(1 for r in results if cond(r))] *)
Definition count_if (cond : gmap string pyval -> bool)
           (results : list (gmap string pyval)) : Z :=
  Z.of_nat (length (List.filter cond results)).

Definition generate_batch_summary (results : list (gmap string pyval))
  : Summary :=
  {| total := Z.of_nat (length results);
     valid := count_if (fun r => truthy (get_or r "is_valid" (VBool false)))
                       results;
     invalid :=
       count_if (fun r => negb (truthy (get_or r "is_valid" (VBool false))))
                results;
     errors := count_if (fun r => eq_str (get_or r "status" VNone) "Error")
                        results |}.

End BatchProcessing.

(* ===================================================================== *)
(** * app/utils/batch_validator.py                                        *)
(* ===================================================================== *)

Module BatchValidator.

Import ValidationOrchestrator.

(** An entry of the list [validate_emails_batch] returns: a result of
    [validate_email], or the dictionary built for a validation that
    raised, [{"email": ..., "is_valid": False, "error": ..., "checks":
    {}, "score": 0}]. *)
Inductive Item :=
| Validated (r : Results)
| Failed (email : string) (error : string).

Definition item_email (i : Item) : string :=
  match i with
  | Validated r => email r
  | Failed e _ => e
  end.

Definition item_dict (i : Item) : gmap string pyval :=
  match i with
  | Validated r => results_dict r
  | Failed email error =>
      {[ "email" := VStr email; "is_valid" := VBool false;
         "error" := VStr error; "checks" := VDict ∅; "score" := VInt 0 ]}
  end.

(** [range(start, stop, step)], counting up for a positive step and
    down for a negative one; [fuel] bounds the number of elements. *)
Fixpoint range_up (fuel : nat) (i stop step : Z) : list Z :=
  match fuel with
  | O => []
  | S f => if (i <? stop)%Z then i :: range_up f (i + step)%Z stop step else []
  end.

Fixpoint range_down (fuel : nat) (i stop step : Z) : list Z :=
  match fuel with
  | O => []
  | S f => if (stop <? i)%Z then i :: range_down f (i + step)%Z stop step else []
  end.

Definition py_range (start stop step : Z) : outcome (list Z) :=
  if (step =? 0)%Z then
    Raise (mk_exn ValueError "range() arg 3 must not be zero")
  else if (0 <? step)%Z then
    Ret (range_up (Z.to_nat (stop - start)) start stop step)
  else
    Ret (range_down (Z.to_nat (start - stop)) start stop step).

(** [l[i:j]] for the bounds the loop produces, [0 <= i]; a bound past
    the end of the list is clipped. *)
Definition slice {A} (l : list A) (i j : Z) : list A :=
  firstn (Z.to_nat (j - i)) (skipn (Z.to_nat i) l).

Section WithEnv.

Variable env : Env.

(** One batch: [asyncio.gather(..., return_exceptions=True)] and the
    loop over [enumerate(batch_results)]. *)
Definition batch_items (batch : list string) : list Item :=
  let batch_results := map (fun e => fst (validate_email env e)) batch in
  map (fun '(email, result) =>
         match result with
         | Raise e => Failed email (exn_str e)
         | Ret r => Validated r
         end)
      (combine batch batch_results).

Definition validate_emails_batch (emails : list string) (batch_size : Z)
  : outcome (list Item) :=
  try_except
    (starts <- py_range 0 (Z.of_nat (length emails)) batch_size ;;
     Ret (flat_map
            (fun i => batch_items (slice emails i (i + batch_size)%Z))
            starts))%outcome
    Exception
    (fun e =>
       Raise (mk_exn ValidationError
                ("Batch validation failed: " +:+ exn_str e))).

End WithEnv.

End BatchValidator.

(* ===================================================================== *)
(** * app/utils/sqlite_cache.py and app/utils/cache_manager.py            *)
(* ===================================================================== *)

Module SqliteCache.

(** A row of the table [cache], whose primary key is the cache key.
    The column [value] holds [json.dumps(value)], read back with
    [json.loads]; a [json_value] survives that round trip unchanged, so
    the row holds the value itself. *)
Record Row := { value : pyval; expiry : Z }.

Abbreviation Table := (gmap string Row).

(** The values that [json.dumps] writes and [json.loads] reads back as
    they were, nested at most [depth] containers deep: an [int] longer
    than 4300 digits is refused by the conversion to text, and nesting
    is limited by the interpreter's recursion limit. *)
#[warnings="-register-all"]
Inductive json_value : nat -> pyval -> Prop :=
| json_none depth : json_value depth VNone
| json_bool depth b : json_value depth (VBool b)
| json_int depth z : (Z.abs z < 10 ^ 4300)%Z -> json_value depth (VInt z)
| json_num depth x : json_value depth (VNum x)
| json_str depth s : json_value depth (VStr s)
| json_list depth l :
    Forall (json_value depth) l -> json_value (S depth) (VList l)
| json_dict depth d :
    map_Forall (fun _ => json_value depth) d -> json_value (S depth) (VDict d).

(** The integers that SQLite stores and compares: 64 bits, signed.
    Binding any other [int] to a statement raises [OverflowError]. *)
Definition sqlite_integer (z : Z) : bool :=
  (- 2 ^ 63 <=? z)%Z && (z <? 2 ^ 63)%Z.

Section WithDatabase.

(** [sqlite3.connect(self.db_path)] and the statements run on the
    connection, taken together: raises when the database cannot be
    used or a statement is refused.  With [Ret tt] every statement
    runs, which takes a value that is a [json_value] and clock readings
    and an expiry that are [sqlite_integer]s. *)
Variable connect : outcome unit.

(** [_cleanup_expired]: [DELETE FROM cache WHERE expiry < ?] with
    [current_time = int(time.time())]. *)
Definition _cleanup_expired (current_time : Z) (t : Table)
  : outcome unit * Table :=
  match connect with
  | Ret _ => (Ret tt, filter (fun kv => (current_time <= expiry kv.2)%Z) t)
  | Raise e => (Raise e, t)
  end.

(** [set_cache], called at second [now]: [INSERT OR REPLACE]; any
    exception gives [False].  What can raise is all in [connect]:
    [json.dumps] refusing the value and SQLite refusing the expiry are
    among the statements that [Ret tt] lets run. *)
Definition set_cache (key : string) (v : pyval) (expire : Z) (now : Z)
           (t : Table) : bool * Table :=
  match connect with
  | Ret _ => (true, <[ key := {| value := v; expiry := (now + expire)%Z |} ]> t)
  | Raise _ => (false, t)
  end.

(** [get_cache]: the clean-up runs before the [try], at second
    [now_cleanup]; then [SELECT value FROM cache WHERE key = ? AND
    expiry >= ?] at second [now].  Python's [None] is [VNone]. *)
Definition get_cache (key : string) (now_cleanup now : Z) (t : Table)
  : outcome pyval * Table :=
  match _cleanup_expired now_cleanup t with
  | (Raise e, t) => (Raise e, t)
  | (Ret _, t) =>
      (Ret match connect with
           | Ret _ =>
               match t !! key with
               | Some row =>
                   if (now <=? expiry row)%Z then value row else VNone
               | None => VNone
               end
           | Raise _ => VNone
           end,
       t)
  end.

(** [delete_cache] *)
Definition delete_cache (key : string) (t : Table) : bool * Table :=
  match connect with
  | Ret _ => (true, delete key t)
  | Raise _ => (false, t)
  end.

End WithDatabase.

End SqliteCache.

Module CacheManager.

Import SqliteCache.

Section WithDatabase.

Variable connect : outcome unit.

(** The subclass wraps each method in [try: ... except Exception] and
    logs; its logger is bound. *)
Definition set_cache (key : string) (v : pyval) (expire : Z) (now : Z)
           (t : Table) : bool * Table :=
  SqliteCache.set_cache connect key v expire now t.

Definition get_cache (key : string) (now_cleanup now : Z) (t : Table)
  : pyval * Table :=
  match SqliteCache.get_cache connect key now_cleanup now t with
  | (Ret v, t) => (v, t)
  | (Raise _, t) => (VNone, t)
  end.

Definition delete_cache (key : string) (t : Table) : bool * Table :=
  SqliteCache.delete_cache connect key t.

End WithDatabase.

End CacheManager.

(* ===================================================================== *)
(** * app/utils/domain_reputation.py                                      *)
(* ===================================================================== *)

Module DomainReputation.

Import SqliteCache.

Definition is_none (v : pyval) : bool :=
  match v with VNone => true | _ => false end.

Section WithCollaborators.

(** [os.getenv("DOMAIN_REPUTATION_API_URL", ...)] *)
Variable DOMAIN_REPUTATION_API_URL : string.
(** [requests.get(url, timeout=5)] *)
Variable requests_get : string -> outcome DisposableEmailDetector.Response.
Variable connect : outcome unit.

Definition cache_key (domain : string) : string :=
  "domain_reputation:" +:+ domain.

Definition lookup_url (domain : string) : string :=
  DOMAIN_REPUTATION_API_URL +:+ "?domain=" +:+ domain.

(** The [try] block of [get_domain_reputation], run at second [now]. *)
Definition fetch (domain : string) (now : Z) (t : Table)
  : outcome pyval * Table :=
  match requests_get (lookup_url domain) with
  | Raise e => (Raise e, t)
  | Ret response =>
      if (DisposableEmailDetector.status_code response =? 200)%Z then
        match (data <- DisposableEmailDetector.json response ;;
               dict_get data "reputation_score" (VInt 50))%outcome with
        | Raise e => (Raise e, t)
        | Ret score =>
            let '(_, t) :=
              CacheManager.set_cache
                connect (cache_key domain)
                (VDict {[ "reputation_score" := score ]}) 3600 now t in
            (Ret score, t)
        end
      else (Ret (VInt 50), t)       (* Neutral score on API failure *)
  end.

(** [get_domain_reputation]; [CacheManager()] opens the database
    outside every [try].  The clock is read at [now_cleanup] and
    [now_select] by [get_cache], and at [now_set] by [set_cache]. *)
Definition get_domain_reputation (domain : string)
           (now_cleanup now_select now_set : Z) (t : Table)
  : outcome pyval * Table :=
  match connect with
  | Raise e => (Raise e, t)
  | Ret _ =>
      let '(cached_score, t) :=
        CacheManager.get_cache connect (cache_key domain)
                               now_cleanup now_select t in
      if negb (is_none cached_score) then
        (RiskScore.index cached_score "reputation_score", t)
      else
        match fetch domain now_set t with
        | (Raise e, t) =>
            if isinstance e RequestException
            then (Ret (VInt 50), t)  (* Neutral score on exception *)
            else (Raise e, t)
        | r => r
        end
  end.

End WithCollaborators.

End DomainReputation.

(* ===================================================================== *)
(** * app/utils/email_dns_validator.py                                    *)
(* ===================================================================== *)

Module EmailDnsValidator.

(** [self.last_check]: for each domain the instants of its checks that
    were let through.  A [datetime] is its number of microseconds. *)
Abbreviation LastCheck := (gmap string (list Z)).

(** [timedelta(seconds=window)] *)
Definition timedelta_seconds (window : Z) : Z := (window * 1000000)%Z.

(** [_check_rate_limit], called at instant [now = datetime.utcnow()]:
    [true] tells that the limit is exceeded, and then the tracker is
    left as it was. *)
Definition _check_rate_limit (last_check : LastCheck) (now : Z)
           (domain : string) (limit window : Z) : bool * LastCheck :=
  match last_check !! domain with
  | Some checks =>
      (* Remove old checks *)
      let checks :=
        List.filter (fun t => (now - t <? timedelta_seconds window)%Z) checks in
      if (limit <=? Z.of_nat (length checks))%Z then (true, last_check)
      else (false, <[ domain := (checks ++ [now])%list ]> last_check)
  | None => (false, <[ domain := [now] ]> last_check)
  end.

(** A sequence of checks [(now, domain)] made one after the other on
    the same validator: each with its answer, and the tracker left. *)
Fixpoint check_all (limit window : Z) (last_check : LastCheck)
         (calls : list (Z * string)) : list (Z * string * bool) * LastCheck :=
  match calls with
  | [] => ([], last_check)
  | (now, domain) :: rest =>
      let '(exceeded, last_check) :=
        _check_rate_limit last_check now domain limit window in
      let '(log, last_check) := check_all limit window last_check rest in
      ((now, domain, exceeded) :: log, last_check)
  end.

(** [t] is recent at instant [now]: it passes the filter of
    [_check_rate_limit]. *)
Definition recent (window now t : Z) : bool :=
  (now - t <? timedelta_seconds window)%Z.

(** How the tracker entry of [domain] relates to the instants [history]
    at which checks of the domain were let through: at every later
    instant, the same checks are recent in both. *)
Definition tracks (window : Z) (domain : string) (last_check : LastCheck)
           (history : list Z) : Prop :=
  match last_check !! domain with
  | None => history = []
  | Some checks =>
      forall later,
        Forall (fun t => (t <= later)%Z) history ->
        List.filter (recent window later) checks
        = List.filter (recent window later) history
  end.

(** The instants at which a check of [domain] was let through. *)
Definition let_through (domain : string) (log : list (Z * string * bool))
  : list Z :=
  map (fun '(now, _, _) => now)
      (List.filter (fun '(_, d, exceeded) => String.eqb d domain && negb exceeded)
                   log).

(** [get_validation_score]: the weights of the checks that hold. *)
Definition weights : list (string * Z) :=
  [ ("has_mx", 40%Z); ("has_a", 20%Z); ("has_aaaa", 10%Z); ("has_ptr", 30%Z) ].

(** [result.get(check, False)], as a truth value. *)
Definition holds (result : gmap string pyval) (check : string) : bool :=
  truthy (match result !! check with Some v => v | None => VBool false end).

Definition get_validation_score (result : gmap string pyval) : Z :=
  fold_left
    (fun score '(check, weight) =>
       if truthy (match result !! check with
                  | Some v => v
                  | None => VBool false
                  end)
       then (score + weight)%Z else score)
    weights 0%Z.

End EmailDnsValidator.

(* ===================================================================== *)
(** * Scenarios: concrete collaborators used by the examples below        *)
(* ===================================================================== *)

Module Scenarios.

Import ValidationOrchestrator.

(** Every external check healthy: MX present, SMTP answering 250,
    reputation 80, not disposable, no typo, role or spam-trap match. *)
Definition healthy_env : Env :=
  {| str_lower := lower_ascii;
     dns_validate_domain := fun _ =>
       Ret ({[ "has_mx" := VBool true; "has_a" := VBool true;
               "has_ptr" := VBool true ]} : gmap string pyval);
     verify_smtp := fun _ =>
       Ret (VDict {[ "valid" := VBool true; "code" := VInt 250 ]});
     is_disposable_email := fun _ => Ret (VBool false);
     is_role_account := fun _ => Ret (VBool false);
     detect_typo := fun _ => Ret VNone;
     get_domain_reputation := fun _ => Ret (VInt 80);
     spam_trap_check := fun _ => Ret (VBool false);
     catch_all_check := fun _ => Ret (VBool false);
     logger_bound := false;
     RateLimitExceeded_bound := false |}.

(** [healthy_env] with [logger] and [RateLimitExceeded] bound, as a
    test harness may arrange. *)
Definition healthy_env_with_logger : Env :=
  {| str_lower := str_lower healthy_env;
     dns_validate_domain := dns_validate_domain healthy_env;
     verify_smtp := verify_smtp healthy_env;
     is_disposable_email := is_disposable_email healthy_env;
     is_role_account := is_role_account healthy_env;
     detect_typo := detect_typo healthy_env;
     get_domain_reputation := get_domain_reputation healthy_env;
     spam_trap_check := spam_trap_check healthy_env;
     catch_all_check := catch_all_check healthy_env;
     logger_bound := true;
     RateLimitExceeded_bound := true |}.

(** As [healthy_env], but the reputation service answers 200 with a
    body that is not JSON, and the lookup raises on decoding it. *)
Definition reputation_down_env : Env :=
  {| str_lower := lower_ascii;
     dns_validate_domain := dns_validate_domain healthy_env;
     verify_smtp := verify_smtp healthy_env;
     is_disposable_email := is_disposable_email healthy_env;
     is_role_account := is_role_account healthy_env;
     detect_typo := detect_typo healthy_env;
     get_domain_reputation := fun _ =>
       Raise (mk_exn ValueError "Expecting value: line 1 column 1 (char 0)");
     spam_trap_check := spam_trap_check healthy_env;
     catch_all_check := catch_all_check healthy_env;
     logger_bound := false;
     RateLimitExceeded_bound := false |}.

(** A ten-year-old domain on no blacklist, with a valid certificate, a
    web site answering 200, and MX, SPF and DMARC records. *)
Definition reputable_world : DomainReputationChecker.World :=
  {| DomainReputationChecker.whois_age_days := fun _ => Ret (Some 3650%Z);
     DomainReputationChecker.gethostbyname_ex := fun _ =>
       Raise (mk_exn OSError "Name or service not known");
     DomainReputationChecker.thread_pool := Ret tt;
     DomainReputationChecker.tls_certificate := fun _ => Ret tt;
     DomainReputationChecker.https_status := fun _ => Ret 200%Z;
     DomainReputationChecker.getaddrinfo := fun _ => Ret true;
     DomainReputationChecker.gethostbyname := fun _ => Ret tt |}.

(** As [reputable_world], but WHOIS reports no creation date. *)
Definition no_creation_date_world : DomainReputationChecker.World :=
  {| DomainReputationChecker.whois_age_days := fun _ => Ret None;
     DomainReputationChecker.gethostbyname_ex :=
       DomainReputationChecker.gethostbyname_ex reputable_world;
     DomainReputationChecker.thread_pool := Ret tt;
     DomainReputationChecker.tls_certificate :=
       DomainReputationChecker.tls_certificate reputable_world;
     DomainReputationChecker.https_status :=
       DomainReputationChecker.https_status reputable_world;
     DomainReputationChecker.getaddrinfo :=
       DomainReputationChecker.getaddrinfo reputable_world;
     DomainReputationChecker.gethostbyname :=
       DomainReputationChecker.gethostbyname reputable_world |}.

(** As [healthy_env], but the domain has an A record and no MX record;
    the DNS validator files the A record under ["a_record"]. *)
Definition no_mail_servers_env : Env :=
  {| str_lower := lower_ascii;
     dns_validate_domain := fun _ =>
       Ret ({[ "a_record" := VBool true; "has_mx" := VBool false;
               "has_ptr" := VBool false ]} : gmap string pyval);
     verify_smtp := verify_smtp healthy_env;
     is_disposable_email := is_disposable_email healthy_env;
     is_role_account := is_role_account healthy_env;
     detect_typo := detect_typo healthy_env;
     get_domain_reputation := get_domain_reputation healthy_env;
     spam_trap_check := spam_trap_check healthy_env;
     catch_all_check := catch_all_check healthy_env;
     logger_bound := false;
     RateLimitExceeded_bound := false |}.

(** As [healthy_env], but the DNS validator raises. *)
Definition dns_timeout_env : Env :=
  {| str_lower := lower_ascii;
     dns_validate_domain := fun _ =>
       Raise (mk_exn ValidationError "Domain validation failed: timeout");
     verify_smtp := verify_smtp healthy_env;
     is_disposable_email := is_disposable_email healthy_env;
     is_role_account := is_role_account healthy_env;
     detect_typo := detect_typo healthy_env;
     get_domain_reputation := get_domain_reputation healthy_env;
     spam_trap_check := spam_trap_check healthy_env;
     catch_all_check := catch_all_check healthy_env;
     logger_bound := false;
     RateLimitExceeded_bound := false |}.

(** A server that completes the dialogue without TLS and answers RCPT TO
    with [code]. *)
Definition answering (code : Z) (message : string) : SmtpVerifier.Session :=
  {| SmtpVerifier.connect := Ret tt;
     SmtpVerifier.helo := Ret tt;
     SmtpVerifier.has_starttls := false;
     SmtpVerifier.starttls := Ret tt;
     SmtpVerifier.helo_again := Ret tt;
     SmtpVerifier.mail := Ret tt;
     SmtpVerifier.rcpt := Ret (code, message);
     SmtpVerifier.decode := Ret message;
     SmtpVerifier.leave := Ret tt |}.

(** A server the connection to which times out. *)
Definition unreachable : SmtpVerifier.Session :=
  {| SmtpVerifier.connect := Raise (mk_exn SocketTimeout "timed out");
     SmtpVerifier.helo := Ret tt;
     SmtpVerifier.has_starttls := false;
     SmtpVerifier.starttls := Ret tt;
     SmtpVerifier.helo_again := Ret tt;
     SmtpVerifier.mail := Ret tt;
     SmtpVerifier.rcpt := Ret (0%Z, "");
     SmtpVerifier.decode := Ret "";
     SmtpVerifier.leave := Ret tt |}.

(** DNS lists [b.example] (priority 20) before [a.example] (priority 10). *)
Definition two_mx_dns (email : string) : outcome SmtpVerifier.DnsResult :=
  Ret {| SmtpVerifier.dns_valid := true;
         SmtpVerifier.mx_records := [ (20%Z, "b.example"); (10%Z, "a.example") ] |}.

(** [a.example] answers 550, [b.example] answers 250. *)
Definition reject_then_accept (mx_host email : string) : SmtpVerifier.Session :=
  if String.eqb mx_host "a.example" then answering 550 "User unknown"
  else answering 250 "OK".

(** [a.example] times out, [b.example] answers 250. *)
Definition timeout_then_accept (mx_host email : string) : SmtpVerifier.Session :=
  if String.eqb mx_host "a.example" then unreachable else answering 250 "OK".

(** [a.example] answers RCPT TO with 250 and then QUIT with 421, so
    that leaving the session raises; [b.example] answers 250. *)
Definition quit_refused_then_accept (mx_host email : string)
  : SmtpVerifier.Session :=
  if String.eqb mx_host "a.example" then
    {| SmtpVerifier.connect := Ret tt;
       SmtpVerifier.helo := Ret tt;
       SmtpVerifier.has_starttls := false;
       SmtpVerifier.starttls := Ret tt;
       SmtpVerifier.helo_again := Ret tt;
       SmtpVerifier.mail := Ret tt;
       SmtpVerifier.rcpt := Ret (250%Z, "OK");
       SmtpVerifier.decode := Ret "OK";
       SmtpVerifier.leave :=
         Raise (mk_exn SMTPException "(421, b'Service not available')") |}
  else answering 250 "OK".

(** Every server answers 550. *)
Definition all_reject (mx_host email : string) : SmtpVerifier.Session :=
  answering 550 "User unknown".

(** A flat record of the kind [calculate_risk_score] indexes: every
    check clean, reputation 80. *)
Definition clean_flat_record : gmap string pyval :=
  {[ "syntax_valid" := VBool true; "domain_exists" := VBool true;
     "mx_records_valid" := VBool true; "smtp_verified" := VBool true;
     "has_ptr" := VBool true; "disposable" := VBool false;
     "role_account" := VBool false; "spam_trap" := VBool false;
     "catch_all" := VBool false; "domain_reputation" := VInt 80 ]}.

(** The [results] dictionary as [validate_email] leaves it in the
    healthy scenario. *)
Definition healthy_results : Results :=
  results (snd (validate_email healthy_env "user@example.com")).

(** The same dictionary with a reputation of [10^400], and with one of
    [1e308]. *)
Definition results_with_reputation (v : pyval) : Results :=
  with_checks (set_reputation v) healthy_results.

Definition huge_int_reputation : pyval := VInt (10 ^ 400).
Definition huge_float_reputation : pyval := VNum (inject_Z (10 ^ 308)).

(** The reputation API answering 200 with the score 80, and the API
    out of reach. *)
Definition reputation_api_url : string :=
  "https://api.domain-reputation.com/check".

Definition reputation_api_80 (url : string)
  : outcome DisposableEmailDetector.Response :=
  Ret {| DisposableEmailDetector.status_code := 200;
         DisposableEmailDetector.json :=
           Ret (VDict {[ "reputation_score" := VInt 80 ]}) |}.

Definition reputation_api_down (url : string)
  : outcome DisposableEmailDetector.Response :=
  Raise (mk_exn RequestsTimeout "Read timed out.").

(** [requests.get] failing before any request is sent, on a CA bundle
    that is not where [requests] looks for it: a plain [OSError]. *)
Definition ca_bundle_missing (url : string)
  : outcome DisposableEmailDetector.Response :=
  Raise (mk_exn OSError
           "Could not find a suitable TLS CA certificate bundle, invalid path: /etc/ssl/cert.pem").

(** The resolver answering with two MX records, the secondary first. *)
Definition two_mx_answers (domain : string) : CatchAllDetector.MxAnswer :=
  CatchAllDetector.Answers [ (20%Z, "b.example."); (10%Z, "a.example.") ].

End Scenarios.

(* ===================================================================== *)
(** * Properties                                                          *)
(* ===================================================================== *)

(** ** Exceptions *)

Lemma isinstance_Exception (e : exn) : isinstance e Exception = true.
Proof. destruct e as [c m]; destruct c; reflexivity. Qed.

Lemma try_except_Exception {A} (m : outcome A) (h : exn -> outcome A) :
  try_except m Exception h = match m with Ret a => Ret a | Raise e => h e end.
Proof. destruct m; simpl; [reflexivity | now rewrite isinstance_Exception]. Qed.

(** ** Batches (C1) *)

Section BatchFacts.

Import ValidationOrchestrator.

Lemma validate_emails_batch_nonempty (emails : list string) (batch_size : Z) :
  emails <> [] -> validate_emails_batch emails batch_size = ResultsOnly [].
Proof. destruct emails; [congruence | reflexivity]. Qed.

(** C1, at the input [["user@example.com"]] with the default batch
    size: [validate_emails_batch] returns the empty list, so the output
    has length 0 where the input has length 1 and there is no
    [result[0]] to carry the input address. *)
Theorem validate_emails_batch_drops_every_email :
  validate_emails_batch ["user@example.com"] 50 = ResultsOnly []
  /\ length (returned_results (validate_emails_batch ["user@example.com"] 50))
     <> length ["user@example.com"].
Proof. split; [reflexivity | discriminate]. Qed.

End BatchFacts.

(** ** Syntax gate (C3) *)

Section SyntaxGateFacts.

Import ValidationOrchestrator.

Lemma validate_syntax_never_false (email : string) :
  SyntaxValidator.validate_syntax email <> Ret false.
Proof.
  unfold SyntaxValidator.validate_syntax.
  destruct (SyntaxValidator.re_match email); discriminate.
Qed.

(** What [validate_email] does with an address the regex rejects. *)
Lemma validate_email_on_invalid_syntax (env : Env) (email : string) :
  SyntaxValidator.re_match email = false ->
  validate_email env email
  = if logger_bound env then
      (Ret (with_error
              (Some "Syntax validation error: Invalid email syntax.")
              (initial_results email)),
       {| results :=
            with_error
              (Some "Syntax validation error: Invalid email syntax.")
              (initial_results email);
          calls := [] |})
    else
      (Raise (mk_exn NameError "name 'logger' is not defined"),
       {| results := initial_results email; calls := [] |}).
Proof.
  intros Hbad.
  unfold validate_email, validate_email_body, syntax_validation, try_M, bindM,
    lift, log, SyntaxValidator.validate_syntax.
  rewrite Hbad. cbn.
  destruct (logger_bound env); reflexivity.
Qed.

(** C3: for an address the syntax regex rejects, [validate_syntax]
    raises instead of returning [False], so the branch that would set
    the error "Invalid email syntax" is never taken.  The [except
    Exception] handler runs instead: with [logger] unbound, as shipped,
    the call ends in a [NameError] and returns nothing; with [logger]
    bound it returns [is_valid=False] with the error "Syntax validation
    error: Invalid email syntax.".  Either way the error is not "Invalid
    email syntax", and no collaborator has been called. *)
Theorem invalid_syntax_raises_instead_of_returning (env : Env) (email : string) :
  SyntaxValidator.re_match email = false ->
  SyntaxValidator.validate_syntax email
  = Raise (mk_exn ValidationError "Invalid email syntax.")
  /\ fst (validate_email env email)
     = (if logger_bound env then
          Ret (with_error
                 (Some "Syntax validation error: Invalid email syntax.")
                 (initial_results email))
        else Raise (mk_exn NameError "name 'logger' is not defined"))
  /\ error (results (snd (validate_email env email)))
     <> Some "Invalid email syntax"
  /\ calls (snd (validate_email env email)) = [].
Proof.
  intros Hbad.
  rewrite (validate_email_on_invalid_syntax env email Hbad).
  unfold SyntaxValidator.validate_syntax. rewrite Hbad.
  destruct (logger_bound env); repeat split; try reflexivity; discriminate.
Qed.

Lemma invalid_syntax_raises_instead_of_returning_witness :
  SyntaxValidator.re_match "not-an-email" = false
  /\ fst (validate_email Scenarios.healthy_env "not-an-email")
     = Raise (mk_exn NameError "name 'logger' is not defined")
  /\ calls (snd (validate_email Scenarios.healthy_env "not-an-email")) = [].
Proof.
  assert (Hbad : SyntaxValidator.re_match "not-an-email" = false)
    by reflexivity.
  destruct (invalid_syntax_raises_instead_of_returning
              Scenarios.healthy_env "not-an-email" Hbad)
    as (_ & Hraise & _ & Hcalls).
  split; [exact Hbad | split; [exact Hraise | exact Hcalls]].
Defined.

Example invalid_syntax_with_logger_bound :
  fst (validate_email Scenarios.healthy_env_with_logger "not-an-email")
  = Ret {| email := "not-an-email";
           is_valid := VBool false;
           checks := checks (initial_results "not-an-email");
           score := VInt 0;
           error := Some "Syntax validation error: Invalid email syntax." |}.
Proof. reflexivity. Qed.

End SyntaxGateFacts.

(** ** Typo detector (C10) *)

Section TypoFacts.

Import TypoDetector.

Lemma close_match_of_common_domain (d : string) :
  In d COMMON_EMAIL_DOMAINS ->
  Difflib.get_close_matches d COMMON_EMAIL_DOMAINS 1 0.8%Q = Some [d].
Proof.
  unfold COMMON_EMAIL_DOMAINS. simpl.
  intros H.
  repeat (destruct H as [H | H]; [subst d; vm_compute; reflexivity |]).
  contradiction.
Qed.

(** C10: whenever the domain part of the address, lowercased, is one of
    the ten entries of [COMMON_EMAIL_DOMAINS], [detect_typo] returns
    [None]: the closest match is the entry itself, which the guard
    [close_matches[0] != domain] excludes.  This holds for every
    lowercasing function. *)
Theorem detect_typo_none_on_common_domain
  (lower : string -> string) (email local_part domain : string) :
  split "@" email = [local_part; domain] ->
  In (lower domain) COMMON_EMAIL_DOMAINS ->
  detect_typo lower email = Some None.
Proof.
  intros Hsplit Hin.
  unfold detect_typo. rewrite Hsplit.
  rewrite (close_match_of_common_domain _ Hin).
  rewrite String.eqb_refl. reflexivity.
Qed.

Lemma detect_typo_none_on_common_domain_witness :
  split "@" "user@GMail.com" = ["user"; "GMail.com"]
  /\ In (lower_ascii "GMail.com") COMMON_EMAIL_DOMAINS
  /\ detect_typo lower_ascii "user@GMail.com" = Some None.
Proof.
  assert (Hsplit : split "@" "user@GMail.com" = ["user"; "GMail.com"])
    by reflexivity.
  assert (Hin : In (lower_ascii "GMail.com") COMMON_EMAIL_DOMAINS)
    by (left; reflexivity).
  split; [exact Hsplit | split; [exact Hin |]].
  exact (detect_typo_none_on_common_domain
           lower_ascii "user@GMail.com" "user" "GMail.com" Hsplit Hin).
Defined.

(** An address without exactly one "@" gets no suggestion either. *)
Lemma detect_typo_none_without_single_at
  (lower : string -> string) (email : string) :
  length (split "@" email) <> 2%nat ->
  detect_typo lower email = Some None.
Proof.
  unfold detect_typo.
  destruct (split "@" email) as [| a [| b [| c l]]]; simpl; intros H;
    try reflexivity.
  congruence.
Qed.

Example detect_typo_suggests_gmail :
  detect_typo lower_ascii "user@gmial.com"
  = Some (Some "Did you mean '@gmail.com'?").
Proof. vm_compute. reflexivity. Qed.

End TypoFacts.

(** ** Disposable detector (C8) *)

Section DisposableFacts.

Import DisposableEmailDetector.

(** C8, as the code has it: when the lookup raises one of the [requests]
    exceptions ([RequestException] or a subclass: connection error,
    timeout, ...) or the API answers with a status other than 200,
    [is_disposable_email] returns [False]; any other exception of the
    lookup, a plain [OSError] included, leaves [is_disposable_email] as
    it was raised. *)
Theorem is_disposable_email_fails_open
  (requests_get : string -> outcome Response) (email : string) :
  (lookup_failed (requests_get (lookup_url email)) ->
   is_disposable_email requests_get email = Ret (VBool false))
  /\ (forall e,
        requests_get (lookup_url email) = Raise e ->
        isinstance e RequestException = false ->
        is_disposable_email requests_get email = Raise e).
Proof.
  unfold is_disposable_email, lookup_failed, try_except.
  destruct (requests_get (lookup_url email)) as [response | e]; simpl.
  - split; [| discriminate].
    intros Hstatus.
    destruct (Z.eqb_spec (status_code response) 200);
      [contradiction | reflexivity].
  - split.
    + intros Hio. rewrite Hio. reflexivity.
    + intros e' He' Hother. injection He' as <-. rewrite Hother. reflexivity.
Qed.

Lemma is_disposable_email_fails_open_witness :
  lookup_failed
    ((fun _ => Raise (mk_exn RequestsTimeout "Read timed out."))
       (lookup_url "user@mailinator.com"))
  /\ is_disposable_email
       (fun _ => Raise (mk_exn RequestsTimeout "Read timed out."))
       "user@mailinator.com" = Ret (VBool false).
Proof.
  split; [reflexivity |].
  apply (proj1 (is_disposable_email_fails_open
                  (fun _ => Raise (mk_exn RequestsTimeout "Read timed out."))
                  "user@mailinator.com")).
  reflexivity.
Defined.

(** C8 as stated, with a lookup that raises an I/O error which is not
    one of the [requests] exceptions: [is_disposable_email] does not
    return [False], it raises the [OSError]. *)
Lemma is_disposable_email_lets_an_os_error_out :
  io_error_or_bad_status
    (Scenarios.ca_bundle_missing (lookup_url "user@mailinator.com"))
  /\ is_disposable_email Scenarios.ca_bundle_missing "user@mailinator.com"
     <> Ret (VBool false)
  /\ is_disposable_email Scenarios.ca_bundle_missing "user@mailinator.com"
     = Raise (mk_exn OSError
                "Could not find a suitable TLS CA certificate bundle, invalid path: /etc/ssl/cert.pem").
Proof.
  split; [reflexivity |].
  split; [discriminate | reflexivity].
Qed.

Example is_disposable_email_on_503 :
  is_disposable_email
    (fun _ => Ret {| status_code := 503; json := Ret VNone |})
    "user@mailinator.com" = Ret (VBool false).
Proof. reflexivity. Qed.

Example is_disposable_email_on_hit :
  is_disposable_email
    (fun _ => Ret {| status_code := 200;
                     json := Ret (VDict {[ "is_disposable" := VBool true ]}) |})
    "user@mailinator.com" = Ret (VBool true).
Proof. vm_compute. reflexivity. Qed.

End DisposableFacts.

(** ** Catch-all confidence (C9) *)

Section ConfidenceFacts.

Import CatchAllDetector.
Local Open Scope Q_scope.

Lemma count_code_le (c : Z) (l : list Response) :
  (count_code c l <= length l)%nat.
Proof. unfold count_code. apply filter_length_le. Qed.

Lemma count_code_all (c : Z) (l : list Response) :
  (forall r, In r l -> code r = c) -> count_code c l = length l.
Proof.
  unfold count_code. induction l as [| r l IH]; intros H; simpl; [reflexivity |].
  rewrite (H r (or_introl eq_refl)), Z.eqb_refl. simpl.
  f_equal. apply IH. intros r' Hr'. apply H. now right.
Qed.

Lemma count_code_lt (c : Z) (l : list Response) (r : Response) :
  In r l -> code r <> c -> (count_code c l < length l)%nat.
Proof.
  unfold count_code. induction l as [| x l IH]; intros Hin Hne; [destruct Hin |].
  simpl. destruct Hin as [-> | Hin].
  - destruct (Z.eqb_spec (code r) c); [contradiction |].
    pose proof (filter_length_le (fun r => (code r =? c)%Z) l). lia.
  - specialize (IH Hin Hne).
    destruct (code x =? c)%Z; simpl; lia.
Qed.

Lemma fold_max_bound (n : nat) (l : list nat) :
  (forall x, In x l -> (x <= n)%nat) -> (fold_right Nat.max 0%nat l <= n)%nat.
Proof.
  induction l as [| x l IH]; intros H; simpl; [lia |].
  pose proof (H x (or_introl eq_refl)).
  assert (fold_right Nat.max 0%nat l <= n)%nat
    by (apply IH; intros y Hy; apply H; now right).
  lia.
Qed.

Lemma fold_max_ge (x : nat) (l : list nat) :
  In x l -> (x <= fold_right Nat.max 0%nat l)%nat.
Proof.
  induction l as [| y l IH]; intros Hin; [destruct Hin |].
  simpl. destruct Hin as [-> | Hin]; [lia |]. specialize (IH Hin). lia.
Qed.

Lemma dominant_count_uniform (c : Z) (l : list Response) :
  l <> [] -> (forall r, In r l -> code r = c) ->
  dominant_count l = length l.
Proof.
  intros Hne Hall. unfold dominant_count.
  apply Nat.le_antisymm.
  - apply fold_max_bound. intros x Hx.
    apply in_map_iff in Hx as (r & <- & _). apply count_code_le.
  - destruct l as [| r l]; [congruence |].
    rewrite <- (count_code_all (code r) (r :: l)) at 1.
    + apply fold_max_ge. apply in_map_iff. exists r. split; [reflexivity | now left].
    + intros r' Hr'. rewrite (Hall r' Hr'), (Hall r (or_introl eq_refl)).
      reflexivity.
Qed.

Lemma dominant_count_mixed (l : list Response) :
  mixed l -> (dominant_count l < length l)%nat.
Proof.
  intros (r1 & r2 & H1 & H2 & Hne). unfold dominant_count.
  assert (Hlen : (0 < length l)%nat) by (destruct l; [destruct H1 | simpl; lia]).
  enough (fold_right Nat.max 0%nat
            (map (fun r => count_code (code r) l) l) <= length l - 1)%nat by lia.
  apply fold_max_bound. intros x Hx.
  apply in_map_iff in Hx as (r & <- & Hr).
  destruct (Z.eq_dec (code r1) (code r)) as [Heq | Hdiff].
  - assert (code r2 <> code r) by congruence.
    pose proof (count_code_lt (code r) l r2 H2 H). lia.
  - pose proof (count_code_lt (code r) l r1 H1 Hdiff). lia.
Qed.

Lemma share_lt_1 (n m : nat) :
  (n < m)%nat -> inject_Z (Z.of_nat n) / inject_Z (Z.of_nat m) < 1.
Proof.
  intros H.
  assert (Hm : 0 < inject_Z (Z.of_nat m))
    by (unfold Qlt; simpl; lia).
  apply Qlt_shift_div_r; [exact Hm |].
  rewrite Qmult_1_l. rewrite <- Zlt_Qlt. lia.
Qed.

(** C9: [_calculate_confidence] is a function of the response list
    alone; it yields 1 on every non-empty list of identical codes, 0 on
    the empty list, and on every list of mixed codes the share of the
    dominant code, which is below 1. *)
Theorem calculate_confidence_spec :
  (forall (c : Z) (l : list Response),
      l <> [] -> (forall r, In r l -> code r = c) ->
      _calculate_confidence l == 1)
  /\ _calculate_confidence [] == 0
  /\ (forall l : list Response,
         mixed l ->
         _calculate_confidence l
         == inject_Z (Z.of_nat (dominant_count l)) / inject_Z (Z.of_nat (length l))
         /\ _calculate_confidence l < 1).
Proof.
  split; [| split].
  - intros c l Hne Hall. unfold _calculate_confidence.
    destruct l as [| r l]; [congruence |].
    rewrite (dominant_count_uniform c (r :: l) Hne Hall).
    apply Qmult_inv_r. intros H0.
    unfold Qeq in H0. simpl in H0. lia.
  - reflexivity.
  - intros l Hmixed. unfold _calculate_confidence.
    destruct l as [| r l]; [destruct Hmixed as (? & _ & [] & _) |].
    split; [reflexivity |].
    apply share_lt_1. now apply dominant_count_mixed.
Qed.

Lemma calculate_confidence_spec_witness :
  (_calculate_confidence [ {| code := 250 |}; {| code := 250 |}; {| code := 250 |} ] == 1)
  /\ (_calculate_confidence [ {| code := 250 |}; {| code := 550 |}; {| code := 250 |} ] < 1).
Proof.
  split.
  - apply (proj1 calculate_confidence_spec 250%Z); [discriminate |].
    intros r [<- | [<- | [<- | []]]]; reflexivity.
  - apply (proj2 (proj2 calculate_confidence_spec)).
    exists {| code := 250 |}, {| code := 550 |}.
    split; [now left | split; [right; now left | discriminate]].
Defined.

Example calculate_confidence_two_thirds :
  _calculate_confidence [ {| code := 250 |}; {| code := 550 |}; {| code := 250 |} ]
  == 2 # 3.
Proof. reflexivity. Qed.

End ConfidenceFacts.

(** ** Domain reputation (C6, C7) *)

Section ReputationFacts.

Import DomainReputationChecker.
Local Open Scope Q_scope.

Variable w : World.

Lemma py_min_spec (a b : Q) : py_min a b <= a /\ py_min a b <= b.
Proof.
  unfold py_min. destruct (Qle_bool a b) eqn:E.
  - apply Qle_bool_iff in E. split; lra.
  - assert (~ a <= b) by (intros H; apply Qle_bool_iff in H; congruence).
    split; lra.
Qed.

Lemma py_max_spec (a b : Q) : a <= py_max a b /\ b <= py_max a b.
Proof.
  unfold py_max. destruct (Qle_bool b a) eqn:E.
  - apply Qle_bool_iff in E. split; lra.
  - assert (~ b <= a) by (intros H; apply Qle_bool_iff in H; congruence).
    split; lra.
Qed.

Lemma py_max_either (a b : Q) : py_max a b = a \/ py_max a b = b.
Proof. unfold py_max. destruct (Qle_bool b a); auto. Qed.

Lemma domain_age_bounds (domain : string) (age : Q) :
  _check_domain_age w domain = Some age -> 0 <= age <= 100.
Proof.
  unfold _check_domain_age.
  destruct (whois_age_days w domain) as [[d |] | e]; intros H; inversion H; subst.
  - set (x := (inject_Z (5 * 365) - inject_Z d) / inject_Z (5 * 365) * 100).
    split; [apply py_max_spec |].
    destruct (py_max_either 0 (py_min 100 x)) as [-> | ->]; [lra |].
    apply py_min_spec.
  - lra.
Qed.

Lemma blacklists_bounds (domain : string) (blacklist_score : Q) :
  _check_blacklists w domain = Ret blacklist_score ->
  0 <= blacklist_score <= 100.
Proof.
  unfold _check_blacklists, listed_on, BLACKLIST_SERVERS.
  destruct (thread_pool w); simpl; intros H; inversion H; subst; clear H.
  repeat match goal with
         | |- context [check_single_blacklist ?world ?s] =>
             destruct (check_single_blacklist world s)
         end;
    simpl; unfold Qle; simpl; lia.
Qed.

Lemma ssl_bounds (domain : string) : 0 <= _check_ssl w domain <= 100.
Proof. unfold _check_ssl. destruct (tls_certificate w domain); lra. Qed.

Lemma web_presence_bounds (domain : string) :
  0 <= _check_web_presence w domain <= 50.
Proof.
  unfold _check_web_presence.
  destruct (https_status w domain) as [status | e]; [| lra].
  destruct (status =? 200)%Z; lra.
Qed.

Lemma mail_config_bounds (domain : string) :
  0 <= _check_mail_config w domain <= 100.
Proof.
  unfold _check_mail_config.
  destruct (getaddrinfo w ("@" +:+ domain)) as [mx | e]; [| lra].
  destruct mx, (returns (gethostbyname w ("_spf." +:+ domain))),
    (returns (gethostbyname w ("_dmarc." +:+ domain))); simpl; lra.
Qed.

Lemma risk_of_high (s : Q) : risk_of s = "high"%string <-> 70 <= s.
Proof.
  unfold risk_of, high_risk_threshold, medium_risk_threshold.
  destruct (Qle_bool 70 s) eqn:E70.
  - apply Qle_bool_iff in E70. tauto.
  - assert (~ 70 <= s) by (intros H; apply Qle_bool_iff in H; congruence).
    destruct (Qle_bool 40 s); split; intros; try discriminate; contradiction.
Qed.

Lemma risk_of_medium (s : Q) : risk_of s = "medium"%string <-> 40 <= s /\ s < 70.
Proof.
  unfold risk_of, high_risk_threshold, medium_risk_threshold.
  destruct (Qle_bool 70 s) eqn:E70.
  - apply Qle_bool_iff in E70. split; [discriminate | lra].
  - assert (~ 70 <= s) by (intros H; apply Qle_bool_iff in H; congruence).
    destruct (Qle_bool 40 s) eqn:E40.
    + apply Qle_bool_iff in E40. split; [intros _; lra | reflexivity].
    + assert (~ 40 <= s) by (intros H'; apply Qle_bool_iff in H'; congruence).
      split; [discriminate | lra].
Qed.

Lemma risk_of_low (s : Q) : risk_of s = "low"%string <-> s < 40.
Proof.
  unfold risk_of, high_risk_threshold, medium_risk_threshold.
  destruct (Qle_bool 70 s) eqn:E70.
  - apply Qle_bool_iff in E70. split; [discriminate | lra].
  - destruct (Qle_bool 40 s) eqn:E40.
    + apply Qle_bool_iff in E40. split; [discriminate | lra].
    + assert (~ 40 <= s) by (intros H'; apply Qle_bool_iff in H'; congruence).
      split; [intros _; lra | reflexivity].
Qed.

(** C6: whatever exception the body of the [try] in [check_reputation]
    raises, [check_reputation] does not propagate it: it returns the
    record with score 100 and risk level "high" (and the exception's
    text as [error]). *)
Theorem check_reputation_assumes_worst (domain : string) (e : exn) :
  check_reputation_try w domain = Raise e ->
  check_reputation w domain
  = Ret {| score := 100; risk_level := "high"; details := None;
           error := exn_str e |}.
Proof.
  intros Hraise. unfold check_reputation.
  rewrite try_except_Exception, Hraise. reflexivity.
Qed.

Lemma check_reputation_returns (domain : string) :
  exists r, check_reputation w domain = Ret r.
Proof.
  unfold check_reputation. rewrite try_except_Exception.
  destruct (check_reputation_try w domain) as [r | e]; eauto.
Qed.

(** C7: when the body of the [try] completes, [check_reputation] returns
    its record; the score is the weighted sum of the five sub-scores
    with weights 0.25, 0.30, 0.15, 0.15 and 0.15, it lies in [0,100],
    and the risk level is "high" iff score >= 70, "medium" iff
    40 <= score < 70, and "low" iff score < 40. *)
Theorem check_reputation_weighted_sum (domain : string) (r : DomainReputation) :
  check_reputation_try w domain = Ret r ->
  check_reputation w domain = Ret r
  /\ (exists age_score blacklist_score : Q,
         _check_domain_age w domain = Some age_score
         /\ _check_blacklists w domain = Ret blacklist_score
         /\ score r == 0.25 * age_score
                       + 0.30 * blacklist_score
                       + 0.15 * _check_ssl w domain
                       + 0.15 * _check_web_presence w domain
                       + 0.15 * _check_mail_config w domain)
  /\ 0 <= score r <= 100
  /\ (risk_level r = "high"%string <-> 70 <= score r)
  /\ (risk_level r = "medium"%string <-> 40 <= score r /\ score r < 70)
  /\ (risk_level r = "low"%string <-> score r < 40).
Proof.
  intros Hret.
  split; [unfold check_reputation; now rewrite try_except_Exception, Hret |].
  unfold check_reputation_try in Hret.
  destruct (_check_blacklists w domain) as [bl |] eqn:Hbl;
    simpl in Hret; [| discriminate].
  destruct (_check_domain_age w domain) as [age |] eqn:Hage;
    simpl in Hret; [| discriminate].
  inversion Hret; subst r; clear Hret. simpl.
  pose proof (domain_age_bounds domain age Hage).
  pose proof (blacklists_bounds domain bl Hbl).
  pose proof (ssl_bounds domain).
  pose proof (web_presence_bounds domain).
  pose proof (mail_config_bounds domain).
  unfold W_domain_age, W_blacklist_status, W_ssl_status, W_web_presence,
    W_mail_config.
  split; [exists age, bl; split; [reflexivity | split; [reflexivity | lra]] |].
  split; [lra |].
  split; [apply risk_of_high | split; [apply risk_of_medium | apply risk_of_low]].
Qed.

End ReputationFacts.

Lemma check_reputation_assumes_worst_witness :
  DomainReputationChecker.check_reputation_try
    Scenarios.no_creation_date_world "example.com"
  = Raise (mk_exn TypeError
             "unsupported operand type(s) for *: 'NoneType' and 'float'")
  /\ DomainReputationChecker.check_reputation
       Scenarios.no_creation_date_world "example.com"
     = Ret {| DomainReputationChecker.score := 100;
              DomainReputationChecker.risk_level := "high";
              DomainReputationChecker.details := None;
              DomainReputationChecker.error :=
                "unsupported operand type(s) for *: 'NoneType' and 'float'" |}.
Proof.
  split; [reflexivity |].
  apply (check_reputation_assumes_worst
           Scenarios.no_creation_date_world "example.com"
           (mk_exn TypeError
              "unsupported operand type(s) for *: 'NoneType' and 'float'")).
  reflexivity.
Defined.

Lemma check_reputation_weighted_sum_witness :
  exists r,
    DomainReputationChecker.check_reputation_try
      Scenarios.reputable_world "example.com" = Ret r
    /\ DomainReputationChecker.check_reputation
         Scenarios.reputable_world "example.com" = Ret r
    /\ (0 <= DomainReputationChecker.score r <= 100)%Q
    /\ DomainReputationChecker.risk_level r = "low".
Proof.
  eexists. split; [reflexivity |].
  destruct (check_reputation_weighted_sum
              Scenarios.reputable_world "example.com" _ eq_refl)
    as (Hret & _ & Hbounds & _ & _ & _).
  split; [exact Hret | split; [exact Hbounds | reflexivity]].
Defined.

(** ** SMTP prober (C4) *)

Section SmtpFacts.

Import SmtpVerifier.

Lemma mx_leb_priority (x y : Z * string) :
  mx_leb x y = true -> by_priority x y.
Proof.
  unfold mx_leb, by_priority. intros H.
  apply orb_true_iff in H as [H | H].
  - apply Z.ltb_lt in H. lia.
  - apply andb_true_iff in H as [H _]. apply Z.eqb_eq in H. lia.
Qed.

Lemma mx_leb_false_priority (x y : Z * string) :
  mx_leb x y = false -> by_priority y x.
Proof.
  unfold mx_leb, by_priority. intros H.
  apply orb_false_iff in H as [H _]. apply Z.ltb_ge in H. exact H.
Qed.

Lemma mx_insert_perm (x : Z * string) (l : list (Z * string)) :
  Permutation (x :: l) (mx_insert x l).
Proof.
  induction l as [| y l IH]; simpl; [reflexivity |].
  destruct (mx_leb x y); [reflexivity |].
  rewrite perm_swap. now apply perm_skip.
Qed.

Lemma sorted_perm (l : list (Z * string)) : Permutation l (sorted l).
Proof.
  induction l as [| x l IH]; simpl; [reflexivity |].
  rewrite <- mx_insert_perm. now apply perm_skip.
Qed.

Lemma mx_insert_sorted (x : Z * string) (l : list (Z * string)) :
  StronglySorted by_priority l -> StronglySorted by_priority (mx_insert x l).
Proof.
  induction 1 as [| y l Hsorted IH Hy]; simpl.
  - constructor; constructor.
  - destruct (mx_leb x y) eqn:E.
    + apply mx_leb_priority in E.
      constructor; [constructor; assumption |].
      constructor; [exact E |].
      eapply List.Forall_impl; [| exact Hy].
      unfold by_priority in *. intros z Hz. lia.
    + apply mx_leb_false_priority in E.
      constructor; [exact IH |].
      eapply Permutation_Forall; [apply mx_insert_perm |].
      constructor; assumption.
Qed.

Lemma sorted_ascending (l : list (Z * string)) :
  StronglySorted by_priority (sorted l).
Proof.
  induction l as [| x l IH]; simpl; [constructor | now apply mx_insert_sorted].
Qed.

Variable server : string -> string -> Session.

(** What a dialogue that reaches its [return] went through. *)
Lemma dialogue_returns (email mx_host domain : string) (r : SMTPResult) :
  dialogue server email mx_host domain = Ret r ->
  let s := server mx_host email in
  connect s = Ret tt /\ helo s = Ret tt
  /\ (has_starttls s = true -> starttls s = Ret tt /\ helo_again s = Ret tt)
  /\ mail s = Ret tt
  /\ exists reply text,
       rcpt s = Ret reply /\ decode s = Ret text
       /\ r = {| valid := (fst reply =? 250)%Z;
                 error := "";
                 code := fst reply;
                 message := text;
                 details := ServerDetails mx_host domain (fst reply) (snd reply);
                 supports_tls := has_starttls s |}.
Proof.
  unfold dialogue. cbn zeta.
  destruct (connect (server mx_host email)) as [[] |]; simpl; [| discriminate].
  destruct (helo (server mx_host email)) as [[] |]; simpl; [| discriminate].
  destruct (has_starttls (server mx_host email)); simpl.
  - destruct (starttls (server mx_host email)) as [[] |]; simpl;
      [| discriminate].
    destruct (helo_again (server mx_host email)) as [[] |]; simpl;
      [| discriminate].
    destruct (mail (server mx_host email)) as [[] |]; simpl; [| discriminate].
    destruct (rcpt (server mx_host email)) as [reply |]; simpl;
      [| discriminate].
    destruct (decode (server mx_host email)) as [text |]; simpl;
      [| discriminate].
    intros H; inversion H.
    repeat split; eauto.
  - destruct (mail (server mx_host email)) as [[] |]; simpl; [| discriminate].
    destruct (rcpt (server mx_host email)) as [reply |]; simpl;
      [| discriminate].
    destruct (decode (server mx_host email)) as [text |]; simpl;
      [| discriminate].
    intros H; inversion H.
    repeat split; eauto; discriminate.
Qed.

(** A probe returns exactly when the dialogue reaches its [return] and
    leaving the block raises nothing. *)
Lemma check_smtp_server_returns (email mx_host domain : string)
      (r : SMTPResult) :
  _check_smtp_server server email mx_host domain = Ret r
  <-> leave (server mx_host email) = Ret tt
      /\ dialogue server email mx_host domain = Ret r.
Proof.
  unfold _check_smtp_server. cbn zeta.
  destruct (leave (server mx_host email)) as [[] | e].
  - destruct (dialogue server email mx_host domain) as [r' | e].
    + split; [intros H; inversion H; now split | intros [_ H]; exact H].
    + split; [destruct (_ || _); discriminate | intros [_ H]; discriminate].
  - split; [destruct (_ || _); discriminate | intros [H _]; discriminate].
Qed.

Lemma check_smtp_server_valid_iff_250 (email mx_host domain : string)
      (r : SMTPResult) :
  _check_smtp_server server email mx_host domain = Ret r ->
  valid r = (code r =? 250)%Z.
Proof.
  intros H. apply check_smtp_server_returns in H as [_ H].
  apply dialogue_returns in H as (_ & _ & _ & _ & reply & text & _ & _ & ->).
  reflexivity.
Qed.

(** A host is accepted exactly when its session runs through with RCPT
    TO answered by 250. *)
Lemma accepted_by_runs_through (email domain mx_host : string) :
  accepted_by server email domain mx_host = true
  <-> runs_through_with_250 (server mx_host email).
Proof.
  unfold accepted_by, runs_through_with_250.
  destruct (_check_smtp_server server email mx_host domain) as [r | e] eqn:Hrun.
  - apply check_smtp_server_returns in Hrun as [Hleave Hrun].
    apply dialogue_returns in Hrun
      as (Hc & Hh & Htls & Hm & [code text] & decoded & Hr & Hd & ->).
    cbn [valid fst]. rewrite Hd. cbn [returns].
    split.
    + intros H250. apply Z.eqb_eq in H250. subst code.
      split; [exact Hc | split; [exact Hh | split; [exact Htls |]]].
      split; [exact Hm | split; [now exists text | now split]].
    + intros (_ & _ & _ & _ & (text' & Hr') & _).
      rewrite Hr in Hr'. injection Hr' as -> _. reflexivity.
  - split; [discriminate |].
    intros (Hc & Hh & Htls & Hm & (text & Hr) & Hd & Hleave).
    exfalso.
    assert (Hreturns : exists r,
               _check_smtp_server server email mx_host domain = Ret r).
    { destruct (decode (server mx_host email)) as [decoded |] eqn:Hdec;
        [| discriminate].
      destruct (has_starttls (server mx_host email)) eqn:Hs.
      - destruct (Htls eq_refl) as [Hstart Hagain].
        eexists. apply check_smtp_server_returns. split; [exact Hleave |].
        unfold dialogue. cbn zeta.
        rewrite Hc, Hh, Hs. simpl. rewrite Hstart, Hagain. simpl.
        rewrite Hm, Hr, Hdec. simpl. reflexivity.
      - eexists. apply check_smtp_server_returns. split; [exact Hleave |].
        unfold dialogue. cbn zeta.
        rewrite Hc, Hh, Hs. simpl.
        rewrite Hm, Hr, Hdec. simpl. reflexivity. }
    destruct Hreturns as [r Hreturns]. congruence.
Qed.

Lemma try_servers_step_reject (email domain : string) (p : Z) (h : string)
      (rest : list (Z * string)) :
  accepted_by server email domain h = false ->
  try_servers server email domain ((p, h) :: rest)
  = (fst (try_servers server email domain rest),
     h :: snd (try_servers server email domain rest)).
Proof.
  unfold accepted_by. intros Hrej. simpl.
  rewrite try_except_Exception.
  destruct (_check_smtp_server server email h domain) as [r |]; simpl.
  - rewrite Hrej. now destruct (try_servers server email domain rest).
  - now destruct (try_servers server email domain rest).
Qed.

Lemma try_servers_all_reject (email domain : string) (l : list (Z * string)) :
  (forall x, In x l -> accepted_by server email domain (snd x) = false) ->
  try_servers server email domain l = (None, map snd l).
Proof.
  induction l as [| [p h] l IH]; intros Hall; [reflexivity |].
  rewrite try_servers_step_reject by (apply (Hall (p, h)); now left).
  rewrite IH by (intros x Hx; apply Hall; now right).
  reflexivity.
Qed.

Lemma try_servers_first_accept (email domain : string)
      (before : list (Z * string)) (p : Z) (h : string)
      (after : list (Z * string)) (r : SMTPResult) :
  (forall x, In x before -> accepted_by server email domain (snd x) = false) ->
  _check_smtp_server server email h domain = Ret r ->
  valid r = true ->
  try_servers server email domain (before ++ (p, h) :: after)%list
  = (Some r, (map snd before ++ [h])%list).
Proof.
  intros Hbefore Hret Hvalid.
  induction before as [| [q g] before IH]; simpl app.
  - simpl. rewrite try_except_Exception, Hret. simpl. now rewrite Hvalid.
  - rewrite try_servers_step_reject by (apply (Hbefore (q, g)); now left).
    rewrite IH by (intros x Hx; apply Hbefore; now right).
    reflexivity.
Qed.

Variable validate_dns : string -> outcome DnsResult.

(** C4, as the code has it: for an address with a part after "@",
    with DNS valid and MX records present, [verify_smtp] probes the
    hosts of [sorted(mx_records)], that is in ascending priority order;
    a host is accepted exactly when its session runs through with RCPT
    TO answered by 250 (every step returns, the reply text decodes, and
    the QUIT sent on leaving the session raises nothing), and a probe
    that returns is valid exactly when its code is 250; the first
    accepted host ends the loop with its result, after every host
    before it, whatever code it answered (550 included) or however it
    failed, has been tried; and when no host is accepted the result is
    [valid=False] with the error "All MX servers failed verification",
    every host having been tried. *)
Theorem verify_smtp_first_250_wins
  (email domain : string) (d : DnsResult) :
  validate_dns email = Ret d ->
  dns_valid d = true ->
  index1 (split "@" email) = Ret domain ->
  mx_records d <> [] ->
  let order := sorted (mx_records d) in
  (Permutation (mx_records d) order /\ StronglySorted by_priority order)
  /\ (forall h,
         accepted_by server email domain h = true
         <-> runs_through_with_250 (server h email))
  /\ (forall h r,
         _check_smtp_server server email h domain = Ret r ->
         valid r = (code r =? 250)%Z)
  /\ (forall before p h after r,
         order = (before ++ (p, h) :: after)%list ->
         (forall x, In x before ->
                    accepted_by server email domain (snd x) = false) ->
         _check_smtp_server server email h domain = Ret r ->
         code r = 250%Z ->
         valid r = true
         /\ verify_smtp validate_dns server email
            = (r, (map snd before ++ [h])%list))
  /\ ((forall x, In x order ->
                 accepted_by server email domain (snd x) = false) ->
      verify_smtp validate_dns server email
      = (failed "All MX servers failed verification"
                (TriedServers (map snd (mx_records d))),
         map snd order)).
Proof.
  intros Hdns Hvalid Hdomain Hmx order.
  split; [split; [apply sorted_perm | apply sorted_ascending] |].
  split; [intros h; apply accepted_by_runs_through |].
  split; [intros h r; apply check_smtp_server_valid_iff_250 |].
  assert (Hunfold :
            verify_smtp validate_dns server email
            = match try_servers server email domain order with
              | (Some result, tried) => (result, tried)
              | (None, tried) =>
                  (failed "All MX servers failed verification"
                          (TriedServers (map snd (mx_records d))), tried)
              end).
  { unfold verify_smtp. rewrite Hdns, Hvalid, Hdomain. simpl.
    destruct (mx_records d); [congruence | reflexivity]. }
  split.
  - intros before p h after r Horder Hbefore Hret Hcode.
    assert (Hv : valid r = true).
    { rewrite (check_smtp_server_valid_iff_250 _ _ _ _ Hret), Hcode.
      reflexivity. }
    split; [exact Hv |].
    rewrite Hunfold, Horder.
    now rewrite (try_servers_first_accept _ _ _ _ _ _ _ Hbefore Hret Hv).
  - intros Hall. rewrite Hunfold.
    now rewrite (try_servers_all_reject _ _ _ Hall).
Qed.

End SmtpFacts.

Lemma verify_smtp_first_250_wins_witness :
  SmtpVerifier.verify_smtp Scenarios.two_mx_dns Scenarios.timeout_then_accept
                           "user@example.com"
  = ({| SmtpVerifier.valid := true;
        SmtpVerifier.error := "";
        SmtpVerifier.code := 250;
        SmtpVerifier.message := "OK";
        SmtpVerifier.details :=
          SmtpVerifier.ServerDetails "b.example" "example.com" 250 "OK";
        SmtpVerifier.supports_tls := false |},
     [ "a.example"; "b.example" ]).
Proof.
  pose proof (verify_smtp_first_250_wins
                Scenarios.timeout_then_accept Scenarios.two_mx_dns
                "user@example.com" "example.com"
                {| SmtpVerifier.dns_valid := true;
                   SmtpVerifier.mx_records :=
                     [ (20%Z, "b.example"); (10%Z, "a.example") ] |}
                eq_refl eq_refl eq_refl ltac:(discriminate)) as H.
  destruct H as (_ & _ & _ & Hfirst & _).
  apply (Hfirst [ (10%Z, "a.example") ] 20%Z "b.example" []).
  - reflexivity.
  - intros x [<- | []]. reflexivity.
  - reflexivity.
  - reflexivity.
Defined.

(** C4 as stated, at the MX list [(20, b.example), (10, a.example)] where
    [a.example] answers RCPT TO with 550 and [b.example] with 250: the
    claim has the probe stop at [a.example] with [valid=False]; the code
    goes on to [b.example] and returns [valid=True]. *)
Lemma verify_smtp_550_does_not_stop_the_loop :
  SmtpVerifier.rcpt (Scenarios.reject_then_accept "a.example" "user@example.com")
  = Ret (550%Z, "User unknown")
  /\ ~ (SmtpVerifier.valid
          (fst (SmtpVerifier.verify_smtp
                  Scenarios.two_mx_dns Scenarios.reject_then_accept
                  "user@example.com")) = false
        /\ snd (SmtpVerifier.verify_smtp
                  Scenarios.two_mx_dns Scenarios.reject_then_accept
                  "user@example.com") = [ "a.example" ]).
Proof.
  split; [reflexivity |].
  intros [Hvalid _]. vm_compute in Hvalid. discriminate.
Qed.

Example verify_smtp_550_then_250 :
  SmtpVerifier.verify_smtp Scenarios.two_mx_dns Scenarios.reject_then_accept
                           "user@example.com"
  = ({| SmtpVerifier.valid := true;
        SmtpVerifier.error := "";
        SmtpVerifier.code := 250;
        SmtpVerifier.message := "OK";
        SmtpVerifier.details :=
          SmtpVerifier.ServerDetails "b.example" "example.com" 250 "OK";
        SmtpVerifier.supports_tls := false |},
     [ "a.example"; "b.example" ]).
Proof. reflexivity. Qed.

(** A 250 does not count when the session cannot be left in order:
    the probe of [a.example] raises and [b.example] is asked. *)
Example verify_smtp_250_with_refused_quit :
  SmtpVerifier._check_smtp_server Scenarios.quit_refused_then_accept
    "user@example.com" "a.example" "example.com"
  = Raise (mk_exn SMTPVerificationError
             "SMTP verification failed for a.example: (421, b'Service not available')")
  /\ snd (SmtpVerifier.verify_smtp
            Scenarios.two_mx_dns Scenarios.quit_refused_then_accept
            "user@example.com")
     = [ "a.example"; "b.example" ].
Proof. split; reflexivity. Qed.

Example verify_smtp_all_550 :
  SmtpVerifier.verify_smtp Scenarios.two_mx_dns Scenarios.all_reject
                           "user@example.com"
  = (SmtpVerifier.failed "All MX servers failed verification"
       (SmtpVerifier.TriedServers [ "b.example"; "a.example" ]),
     [ "a.example"; "b.example" ]).
Proof. reflexivity. Qed.

(** ** Orchestrator: the additional steps (C2, C5) *)

(** Stepping through the orchestrator's state monad: only the state
    projections are unfolded, so [results] stays a chain of updates. *)
Ltac run_steps :=
  cbn beta iota zeta delta
      [ValidationOrchestrator.calls ValidationOrchestrator.results
       fst snd returns].

Ltac finish_steps :=
  run_steps; rewrite <- ?app_assoc; repeat split; reflexivity.

Section OrchestratorFacts.

Import ValidationOrchestrator.

Lemma results_dict_has_no_flat_keys (r : Results) :
  results_dict r !! "syntax_valid" = None
  /\ results_dict r !! "risk_level" = None.
Proof. unfold results_dict. split; simplify_map_eq; reflexivity. Qed.

(** The scorer indexes the keys of a flat record; [results] has none of
    them, so the first lookup raises. *)
Lemma calculate_risk_score_key_error (r : Results) :
  calculate_risk_score (results_dict r)
  = Raise (mk_exn KeyError "'syntax_valid'").
Proof.
  unfold calculate_risk_score, add_unless, getitem.
  rewrite (proj1 (results_dict_has_no_flat_keys r)). reflexivity.
Qed.

Variable env : Env.

(** The additional steps make their calls in source order up to the
    first one that raises, and never complete: when every check returns,
    the scorer raises.  They leave [results["email"]] alone. *)
Lemma additional_steps_spec (email domain : string)
      (dns_results : gmap string pyval) (st : State) :
  calls (snd (additional_steps env email domain dns_results st))
  = (calls st ++ up_to_first_raise env (post_dns_calls email domain))%list
  /\ returns (fst (additional_steps env email domain dns_results st)) = false
  /\ ValidationOrchestrator.email
       (results (snd (additional_steps env email domain dns_results st)))
     = ValidationOrchestrator.email (results st).
Proof.
  destruct st as [r cs].
  unfold additional_steps, bindM, call, modify, lift, get_results, ret.
  cbn [up_to_first_raise post_dns_calls call_returns].
  run_steps.
  destruct (verify_smtp env domain); run_steps; [| finish_steps].
  destruct (is_disposable_email env email); run_steps; [| finish_steps].
  destruct (is_role_account env email); run_steps; [| finish_steps].
  destruct (detect_typo env email) as [typo |]; run_steps; [| finish_steps].
  destruct (truthy typo); run_steps;
    (destruct (get_domain_reputation env domain); run_steps; [| finish_steps]);
    (destruct (spam_trap_check env email); run_steps; [| finish_steps]);
    (destruct (catch_all_check env domain); run_steps; [| finish_steps]);
    rewrite calculate_risk_score_key_error;
    finish_steps.
Qed.

(** Past the two gates, [validate_email] is its additional steps run
    under the [except Exception] handler. *)
Lemma validate_email_past_gates (email : string)
      (dns_results : gmap string pyval) :
  SyntaxValidator.re_match email = true ->
  dns_validate_domain env (extract_domain env email) = Ret dns_results ->
  (truthy (get dns_results "has_mx") || truthy (get dns_results "has_a")) = true ->
  validate_email env email
  = try_M (additional_steps env email (extract_domain env email) dns_results)
          Exception
          (fun e =>
             bindM (log env) (fun _ =>
             bindM (set_error ("Validation error: " +:+ exn_str e)) (fun _ =>
             get_results)))
          (state_after_gates env email dns_results).
Proof.
  intros Hsyntax Hdns Hrecords.
  unfold validate_email, validate_email_body, syntax_validation,
    dns_validation, SyntaxValidator.validate_syntax, state_after_gates.
  rewrite Hsyntax.
  unfold try_M at 1 2, bindM, lift, modify, call, ret, set_error. cbn.
  rewrite Hdns. cbn.
  apply orb_true_iff in Hrecords.
  destruct (truthy (get dns_results "has_mx")),
    (truthy (get dns_results "has_a"));
    try reflexivity.
  destruct Hrecords; discriminate.
Qed.

(** The additional steps always end in an exception, so the handler
    always runs: with [logger] unbound the call ends in a [NameError],
    with [logger] bound it returns [results] with the error recorded.
    Calls, checks and [is_valid] are as the steps left them. *)
Lemma validate_email_after_gates (email : string)
      (dns_results : gmap string pyval) :
  SyntaxValidator.re_match email = true ->
  dns_validate_domain env (extract_domain env email) = Ret dns_results ->
  (truthy (get dns_results "has_mx") || truthy (get dns_results "has_a")) = true ->
  let st' := snd (additional_steps env email (extract_domain env email)
                    dns_results (state_after_gates env email dns_results)) in
  exists e,
    fst (additional_steps env email (extract_domain env email)
           dns_results (state_after_gates env email dns_results)) = Raise e
    /\ validate_email env email
       = if logger_bound env then
           (Ret (with_error (Some ("Validation error: " +:+ exn_str e))
                            (results st')),
            {| results :=
                 with_error (Some ("Validation error: " +:+ exn_str e))
                            (results st');
               calls := calls st' |})
         else
           (Raise (mk_exn NameError "name 'logger' is not defined"), st').
Proof.
  intros Hsyntax Hdns Hrecords st'. subst st'.
  rewrite (validate_email_past_gates email dns_results Hsyntax Hdns Hrecords).
  unfold try_M.
  pose proof (additional_steps_spec email (extract_domain env email)
                dns_results (state_after_gates env email dns_results))
    as (_ & Hraises & _).
  destruct (additional_steps _ _ _ _ _) as [[r | e] st']; simpl in *;
    [discriminate |].
  exists e. split; [reflexivity |].
  rewrite isinstance_Exception.
  unfold bindM, log, set_error, modify, get_results, ret, unbound, raise.
  destruct (logger_bound env); reflexivity.
Qed.

Lemma validate_email_state_after_gates (email : string)
      (dns_results : gmap string pyval) :
  SyntaxValidator.re_match email = true ->
  dns_validate_domain env (extract_domain env email) = Ret dns_results ->
  (truthy (get dns_results "has_mx") || truthy (get dns_results "has_a")) = true ->
  let st' := snd (additional_steps env email (extract_domain env email)
                    dns_results (state_after_gates env email dns_results)) in
  calls (snd (validate_email env email)) = calls st'
  /\ checks (results (snd (validate_email env email))) = checks (results st')
  /\ is_valid (results (snd (validate_email env email)))
     = is_valid (results st').
Proof.
  intros Hsyntax Hdns Hrecords st'.
  destruct (validate_email_after_gates email dns_results
              Hsyntax Hdns Hrecords) as (e & _ & Hrun).
  fold st' in Hrun. rewrite Hrun.
  destruct (logger_bound env); repeat split; reflexivity.
Qed.

(** C5, as the code has it: for every address that gets past the syntax
    and DNS checks, the seven later checks are called one after another
    in the order SMTP, disposable, role account, typo, reputation, spam
    trap, catch-all; a check is called exactly when every check before
    it returned, so all seven are called when none raises, and the first
    one that raises ends the sequence with the checks after it
    skipped. *)
Theorem additional_checks_stop_at_first_raise (email : string) :
  reaches_additional_steps env email ->
  let domain := extract_domain env email in
  calls (snd (validate_email env email))
  = DnsValidateDomain domain
      :: up_to_first_raise env (post_dns_calls email domain)
  /\ ((forall c, In c (post_dns_calls email domain) ->
                 call_returns env c = true) ->
      calls (snd (validate_email env email))
      = DnsValidateDomain domain :: post_dns_calls email domain).
Proof.
  intros (Hsyntax & dns_results & Hdns & Hrecords) domain.
  destruct (validate_email_state_after_gates email dns_results
              Hsyntax Hdns Hrecords) as (Hstate & _ & _).
  assert (Hcalls :
            calls (snd (validate_email env email))
            = DnsValidateDomain domain
                :: up_to_first_raise env (post_dns_calls email domain)).
  { rewrite Hstate.
    now rewrite (proj1 (additional_steps_spec _ _ _ _)). }
  split; [exact Hcalls |].
  intros Hall. rewrite Hcalls. f_equal.
  unfold post_dns_calls in *. cbn [up_to_first_raise].
  repeat (rewrite Hall by (simpl; tauto)).
  reflexivity.
Qed.

End OrchestratorFacts.

Lemma additional_checks_stop_at_first_raise_witness :
  ValidationOrchestrator.reaches_additional_steps
    Scenarios.reputation_down_env "user@example.com"
  /\ ValidationOrchestrator.calls
       (snd (ValidationOrchestrator.validate_email
               Scenarios.reputation_down_env "user@example.com"))
     = [ ValidationOrchestrator.DnsValidateDomain "example.com";
         ValidationOrchestrator.VerifySmtp "example.com";
         ValidationOrchestrator.IsDisposableEmail "user@example.com";
         ValidationOrchestrator.IsRoleAccount "user@example.com";
         ValidationOrchestrator.DetectTypo "user@example.com";
         ValidationOrchestrator.GetDomainReputation "example.com" ].
Proof.
  assert (Hreach : ValidationOrchestrator.reaches_additional_steps
                     Scenarios.reputation_down_env "user@example.com").
  { split; [reflexivity |].
    eexists. split; [reflexivity | vm_compute; reflexivity]. }
  split; [exact Hreach |].
  exact (proj1 (additional_checks_stop_at_first_raise
                  Scenarios.reputation_down_env "user@example.com" Hreach)).
Defined.

(** C5 as stated, at "user@example.com" with every collaborator healthy
    except the reputation lookup, which raises: the claim has all seven
    later checks performed; the spam-trap and catch-all checks are never
    called. *)
Lemma reputation_failure_skips_later_checks :
  ~ (forall c,
        In c (ValidationOrchestrator.post_dns_calls
                "user@example.com" "example.com") ->
        In c (ValidationOrchestrator.calls
                (snd (ValidationOrchestrator.validate_email
                        Scenarios.reputation_down_env "user@example.com")))).
Proof.
  intros Hall.
  specialize (Hall (ValidationOrchestrator.SpamTrapCheck "user@example.com")).
  assert (Hin : In (ValidationOrchestrator.SpamTrapCheck "user@example.com")
                   (ValidationOrchestrator.post_dns_calls
                      "user@example.com" "example.com"))
    by (simpl; tauto).
  specialize (Hall Hin). vm_compute in Hall.
  repeat (destruct Hall as [Hall | Hall]; [discriminate |]).
  exact Hall.
Qed.

Example reputation_failure_propagates :
  ValidationOrchestrator.validate_email
    Scenarios.reputation_down_env "user@example.com"
  = (Raise (mk_exn NameError "name 'logger' is not defined"),
     snd (ValidationOrchestrator.validate_email
            Scenarios.reputation_down_env "user@example.com"))
  /\ ValidationOrchestrator.is_valid
       (ValidationOrchestrator.results
          (snd (ValidationOrchestrator.validate_email
                  Scenarios.reputation_down_env "user@example.com")))
     = VBool false.
Proof. split; vm_compute; reflexivity. Qed.

(** ** Orchestrator: the healthy scenario (C2) *)

Section HealthyScenario.

Import ValidationOrchestrator.

Variable env : Env.

(** The state that [validate_email] leaves for "user@example.com" with
    every external check healthy: syntax and DNS checks passed, all
    seven later checks called, the reputation 80 recorded and
    [is_valid] set to [True]; the dictionary has no ["risk_level"]
    entry. *)
Lemma healthy_scenario_state :
  healthy env "user@example.com" ->
  let domain := extract_domain env "user@example.com" in
  let st := snd (validate_email env "user@example.com") in
  calls st = DnsValidateDomain domain :: post_dns_calls "user@example.com" domain
  /\ syntax_is_valid (checks (results st)) = true
  /\ reputation_score (checks (results st)) = VInt 80
  /\ is_valid (results st) = VBool true
  /\ results_dict (results st) !! "risk_level" = None.
Proof.
  intros (dns_results & smtp_result & Hdns & Hmx & Hsmtp & Hverified
          & Hdisposable & Hrole & Htypo & Hreputation & Hspam & Hcatch)
         domain st.
  assert (Hsyntax : SyntaxValidator.re_match "user@example.com" = true)
    by reflexivity.
  assert (Hrecords : (truthy (get dns_results "has_mx")
                      || truthy (get dns_results "has_a")) = true)
    by (unfold get; rewrite Hmx; reflexivity).
  destruct (validate_email_state_after_gates env "user@example.com" dns_results
              Hsyntax Hdns Hrecords) as (Hcalls & Hchecks & Hvalid).
  subst st domain. rewrite Hcalls, Hchecks, Hvalid. clear Hcalls Hchecks Hvalid.
  unfold additional_steps, state_after_gates, bindM, call, modify, lift,
    get_results, ret.
  run_steps.
  rewrite Hsmtp; run_steps.
  rewrite Hdisposable; run_steps.
  rewrite Hrole; run_steps.
  rewrite Htypo; cbn beta iota zeta delta [calls results fst snd truthy].
  rewrite Hreputation; run_steps.
  rewrite Hspam; run_steps.
  rewrite Hcatch; run_steps.
  rewrite calculate_risk_score_key_error; run_steps.
  split; [reflexivity |].
  split; [reflexivity |].
  split; [reflexivity |].
  split; [| apply results_dict_has_no_flat_keys].
  cbn [is_valid with_is_valid]. unfold get_or_false. rewrite Hmx.
  reflexivity.
Qed.

End HealthyScenario.

Example healthy_scenario_outcome :
  fst (ValidationOrchestrator.validate_email
         Scenarios.healthy_env "user@example.com")
  = Raise (mk_exn NameError "name 'logger' is not defined")
  /\ ValidationOrchestrator.score
       (ValidationOrchestrator.results
          (snd (ValidationOrchestrator.validate_email
                  Scenarios.healthy_env "user@example.com")))
     = VInt 0.
Proof. split; vm_compute; reflexivity. Qed.

Example healthy_scenario_outcome_with_logger :
  match fst (ValidationOrchestrator.validate_email
               Scenarios.healthy_env_with_logger "user@example.com") with
  | Ret r =>
      ValidationOrchestrator.is_valid r = VBool true
      /\ ValidationOrchestrator.score r = VInt 0
      /\ ValidationOrchestrator.error r
         = Some "Validation error: 'syntax_valid'"
  | Raise _ => False
  end.
Proof. vm_compute. repeat split; reflexivity. Qed.

(** ** The batch path that is never taken (C1) *)

Section ProcessBatchFacts.

Import ValidationOrchestrator.

Variable env : Env.

Lemma validate_email_keeps_email (e : string) (r : Results) :
  fst (validate_email env e) = Ret r -> email r = e.
Proof.
  destruct (SyntaxValidator.re_match e) eqn:Hsyntax.
  - destruct (dns_validate_domain env (extract_domain env e))
      as [dns_results | err] eqn:Hdns.
    + destruct (truthy (get dns_results "has_mx")
                || truthy (get dns_results "has_a")) eqn:Hrecords.
      * destruct (validate_email_after_gates env e dns_results
                    Hsyntax Hdns Hrecords) as (x & _ & Hrun).
        rewrite Hrun.
        destruct (logger_bound env); [| discriminate].
        simpl. intros H; inversion H; subst r; clear H. simpl.
        now rewrite (proj2 (proj2 (additional_steps_spec env _ _ _ _))).
      * unfold validate_email, validate_email_body, syntax_validation,
          dns_validation, SyntaxValidator.validate_syntax.
        rewrite Hsyntax.
        unfold try_M, bindM, lift, modify, call, ret, set_error, get_results.
        cbn. rewrite Hdns. cbn.
        apply orb_false_iff in Hrecords as [-> ->]. cbn.
        intros H; inversion H; reflexivity.
    + unfold validate_email, validate_email_body, syntax_validation,
        dns_validation, SyntaxValidator.validate_syntax.
      rewrite Hsyntax.
      unfold try_M, bindM, lift, modify, call, ret, set_error, get_results,
        log, unbound, raise.
      cbn. rewrite Hdns. cbn. rewrite isinstance_Exception.
      destruct (RateLimitExceeded_bound env); cbn; [| discriminate].
      destruct (isinstance err RateLimitExceeded), (isinstance err ValidationError),
        (logger_bound env); cbn; try discriminate;
        intros H; inversion H; reflexivity.
  - rewrite (validate_email_on_invalid_syntax env e Hsyntax).
    destruct (logger_bound env); [| discriminate].
    simpl. intros H; inversion H; reflexivity.
Qed.

(** [process_batch], had it been called, keeps length and positions. *)
Lemma process_batch_keeps_positions (batch : list string) :
  map item_email (process_batch env batch) = batch.
Proof.
  unfold process_batch.
  induction batch as [| e batch IH]; [reflexivity |].
  cbn [map combine]. f_equal; [| exact IH].
  destruct (fst (validate_email env e)) as [r | err] eqn:H; simpl.
  - now apply validate_email_keeps_email.
  - reflexivity.
Qed.

End ProcessBatchFacts.

(** ** The repository's unit tests, replayed on the embedding *)

Section ReplayedTests.

(** [tests/test_syntax_validator.py] *)
Example test_valid_syntax :
  SyntaxValidator.validate_syntax "user@example.com" = Ret true.
Proof. reflexivity. Qed.

Example test_invalid_syntax_missing_at :
  SyntaxValidator.validate_syntax "userexample.com"
  = Raise (mk_exn ValidationError "Invalid email syntax.").
Proof. reflexivity. Qed.

Example test_invalid_syntax_invalid_domain :
  SyntaxValidator.validate_syntax "user@.com"
  = Raise (mk_exn ValidationError "Invalid email syntax.").
Proof. reflexivity. Qed.

Example test_valid_syntax_with_subdomain :
  SyntaxValidator.validate_syntax "user@mail.example.com" = Ret true.
Proof. reflexivity. Qed.

(** [tests/test_utils/test_smtp_verifier.py] *)
Example test_smtp_verification_success :
  let r :=
    fst (SmtpVerifier.verify_smtp
           (fun _ => Ret {| SmtpVerifier.dns_valid := true;
                            SmtpVerifier.mx_records :=
                              [ (10%Z, "mail.example.com") ] |})
           (fun _ _ =>
              {| SmtpVerifier.connect := Ret tt;
                 SmtpVerifier.helo := Ret tt;
                 SmtpVerifier.has_starttls := true;
                 SmtpVerifier.starttls := Ret tt;
                 SmtpVerifier.helo_again := Ret tt;
                 SmtpVerifier.mail := Ret tt;
                 SmtpVerifier.rcpt := Ret (250%Z, "OK");
                 SmtpVerifier.decode := Ret "OK";
                 SmtpVerifier.leave := Ret tt |})
           "test@example.com") in
  SmtpVerifier.valid r = true
  /\ SmtpVerifier.code r = 250%Z
  /\ SmtpVerifier.supports_tls r = true
  /\ SmtpVerifier.error r = "".
Proof. repeat split; reflexivity. Qed.

Example test_smtp_verification_dns_failure :
  fst (SmtpVerifier.verify_smtp
         (fun _ => Ret {| SmtpVerifier.dns_valid := false;
                          SmtpVerifier.mx_records := [] |})
         Scenarios.all_reject "test@invalid.com")
  = SmtpVerifier.failed "DNS validation failed" SmtpVerifier.DnsDetails.
Proof. reflexivity. Qed.

Example test_smtp_verification_connection_failure :
  SmtpVerifier.verify_smtp
    (fun _ => Ret {| SmtpVerifier.dns_valid := true;
                     SmtpVerifier.mx_records :=
                       [ (10%Z, "mail.example.com") ] |})
    (fun _ _ =>
       {| SmtpVerifier.connect :=
            Raise (mk_exn SMTPException "Connection failed");
          SmtpVerifier.helo := Ret tt;
          SmtpVerifier.has_starttls := false;
          SmtpVerifier.starttls := Ret tt;
          SmtpVerifier.helo_again := Ret tt;
          SmtpVerifier.mail := Ret tt;
          SmtpVerifier.rcpt := Ret (0%Z, "");
          SmtpVerifier.decode := Ret "";
          SmtpVerifier.leave := Ret tt |})
    "test@example.com"
  = (SmtpVerifier.failed "All MX servers failed verification"
       (SmtpVerifier.TriedServers [ "mail.example.com" ]),
     [ "mail.example.com" ]).
Proof. reflexivity. Qed.

Example test_smtp_verification_no_mx_records :
  fst (SmtpVerifier.verify_smtp
         (fun _ => Ret {| SmtpVerifier.dns_valid := true;
                          SmtpVerifier.mx_records := [] |})
         Scenarios.all_reject "test@example.com")
  = SmtpVerifier.failed "No MX records found for domain: example.com"
                        SmtpVerifier.NoDetails.
Proof. reflexivity. Qed.

(** The empty batch. *)
Example validate_emails_batch_empty :
  ValidationOrchestrator.validate_emails_batch [] 50
  = ValidationOrchestrator.ResultsAndSummary []
      {| ValidationOrchestrator.total := 0;
         ValidationOrchestrator.valid := 0;
         ValidationOrchestrator.invalid := 0;
         ValidationOrchestrator.errors := 0 |}.
Proof. reflexivity. Qed.

(** A thread pool that cannot start is one more way into the fallback
    of [check_reputation]. *)
Example check_reputation_without_threads :
  DomainReputationChecker.check_reputation
    {| DomainReputationChecker.whois_age_days := fun _ => Ret (Some 30%Z);
       DomainReputationChecker.gethostbyname_ex := fun _ => Ret true;
       DomainReputationChecker.thread_pool :=
         Raise (mk_exn Exception "can't start new thread");
       DomainReputationChecker.tls_certificate := fun _ => Ret tt;
       DomainReputationChecker.https_status := fun _ => Ret 200%Z;
       DomainReputationChecker.getaddrinfo := fun _ => Ret true;
       DomainReputationChecker.gethostbyname := fun _ => Ret tt |}
    "example.com"
  = Ret {| DomainReputationChecker.score := 100;
           DomainReputationChecker.risk_level := "high";
           DomainReputationChecker.details := None;
           DomainReputationChecker.error := "can't start new thread" |}.
Proof. reflexivity. Qed.

(** A young domain on every blacklist, without certificate, web site or
    mail records: the weighted sum is 25 + 30 + 15 + 7.5 + 15 = 92.5. *)
Example check_reputation_worst_computed :
  match DomainReputationChecker.check_reputation
          {| DomainReputationChecker.whois_age_days := fun _ => Ret (Some 0%Z);
             DomainReputationChecker.gethostbyname_ex := fun _ => Ret true;
             DomainReputationChecker.thread_pool := Ret tt;
             DomainReputationChecker.tls_certificate := fun _ =>
               Raise (mk_exn OSError "Connection refused");
             DomainReputationChecker.https_status := fun _ =>
               Raise (mk_exn RequestsConnectionError "Connection refused");
             DomainReputationChecker.getaddrinfo := fun _ => Ret false;
             DomainReputationChecker.gethostbyname := fun _ =>
               Raise (mk_exn OSError "Name or service not known") |}
          "example.com" with
  | Ret r => (DomainReputationChecker.score r == 92.5)%Q
             /\ DomainReputationChecker.risk_level r = "high"
  | Raise _ => False
  end.
Proof. split; reflexivity. Qed.

End ReplayedTests.

(* ===================================================================== *)
(** * Further properties of the modelled code                             *)
(* ===================================================================== *)

(** ** syntax_validator.py: the shape of an accepted address *)

Section SyntaxShape.

Import SyntaxValidator.

Lemma local_char_is_not_at (c : ascii) :
  is_local_char c = true -> Ascii.eqb c "@" = false.
Proof.
  intros H. destruct (Ascii.eqb_spec c "@") as [-> |]; [| reflexivity].
  discriminate H.
Qed.

Lemma match_domain_shape (seen : bool) (s : string) :
  match_domain seen s = true ->
  split "@" s = [s] /\ (seen = false -> s <> "").
Proof.
  revert seen. induction s as [| c rest IH]; intros seen H; simpl in H.
  - subst seen. split; [reflexivity | discriminate].
  - split; [| discriminate].
    assert (Hat : Ascii.eqb c "@" = false /\ split "@" rest = [rest]).
    { destruct (is_domain_char c) eqn:Hd.
      - split; [| apply (IH true H)].
        destruct (Ascii.eqb_spec c "@") as [-> |]; [discriminate Hd | reflexivity].
      - destruct (Ascii.eqb_spec c ".") as [-> |].
        + apply andb_true_iff in H as [_ H].
          split; [reflexivity | apply (IH false H)].
        + destruct (Ascii.eqb_spec c newline) as [-> |]; [| discriminate].
          apply andb_true_iff in H as [_ H].
          destruct rest; [split; reflexivity | discriminate]. }
    destruct Hat as [Hat Hrest]. simpl. rewrite Hat, Hrest. reflexivity.
Qed.

Lemma match_local_shape (seen : bool) (s : string) :
  match_local seen s = true ->
  exists local_part domain,
    split "@" s = [local_part; domain]
    /\ domain <> ""
    /\ (seen = false -> local_part <> "").
Proof.
  revert seen. induction s as [| c rest IH]; intros seen H; simpl in H;
    [discriminate |].
  destruct (is_local_char c) eqn:Hl.
  - destruct (IH true H) as (l & d & Hsplit & Hd & _).
    exists (String c l), d. simpl.
    rewrite (local_char_is_not_at c Hl), Hsplit.
    repeat split; [exact Hd | discriminate].
  - destruct (Ascii.eqb_spec c "@") as [-> |]; [| discriminate].
    apply andb_true_iff in H as [Hseen H].
    destruct (match_domain_shape false rest H) as [Hsplit Hne].
    exists "", rest. simpl. rewrite Hsplit.
    repeat split; [now apply Hne | intros ->; discriminate].
Qed.

(** X1: an address [validate_syntax] accepts has exactly one "@", with a
    non-empty local part before it and a non-empty domain after it; so
    [email.split('@')] has two elements, and [split[1]] (what
    [extract_domain] takes) and [split[-1]] (what the disposable
    detector takes) are the same string. *)
Theorem accepted_address_has_one_at (email : string) :
  validate_syntax email = Ret true ->
  exists local_part domain,
    split "@" email = [local_part; domain]
    /\ local_part <> "" /\ domain <> ""
    /\ index1 (split "@" email) = Ret domain
    /\ index_last (split "@" email) = domain.
Proof.
  unfold validate_syntax, re_match.
  destruct (match_local false email) eqn:H; [intros _ | discriminate].
  destruct (match_local_shape false email H) as (l & d & Hsplit & Hd & Hl).
  exists l, d. rewrite Hsplit.
  repeat split; auto.
Qed.

Lemma accepted_address_has_one_at_witness :
  exists local_part domain,
    split "@" "user@example.com" = [local_part; domain]
    /\ local_part <> "" /\ domain <> ""
    /\ index1 (split "@" "user@example.com") = Ret domain
    /\ index_last (split "@" "user@example.com") = domain.
Proof.
  exact (accepted_address_has_one_at "user@example.com" eq_refl).
Defined.

Lemma match_domain_before_newline (seen : bool) (s : string) :
  match_domain seen s = true ->
  (forall t, s <> t +:+ String newline "") ->
  match_domain seen (s +:+ String newline "") = true.
Proof.
  revert seen. induction s as [| c rest IH]; intros seen H Hnl.
  - simpl in H. subst seen. reflexivity.
  - simpl in H. cbn [String.append]. simpl.
    assert (Hrest : forall t, rest <> t +:+ String newline "").
    { intros t ->. apply (Hnl (String c t)). reflexivity. }
    destruct (is_domain_char c); [now apply IH |].
    destruct (Ascii.eqb c ".").
    + apply andb_true_iff in H as [-> H]. simpl. now apply IH.
    + destruct (Ascii.eqb_spec c newline) as [-> |]; [| discriminate].
      apply andb_true_iff in H as [_ H].
      destruct rest; [| discriminate].
      exfalso. apply (Hnl ""). reflexivity.
Qed.

Lemma match_local_before_newline (seen : bool) (s : string) :
  match_local seen s = true ->
  (forall t, s <> t +:+ String newline "") ->
  match_local seen (s +:+ String newline "") = true.
Proof.
  revert seen. induction s as [| c rest IH]; intros seen H Hnl;
    [discriminate |].
  simpl in H. cbn [String.append]. simpl.
  assert (Hrest : forall t, rest <> t +:+ String newline "").
  { intros t ->. apply (Hnl (String c t)). reflexivity. }
  destruct (is_local_char c); [now apply IH |].
  destruct (Ascii.eqb c "@"); [| discriminate].
  apply andb_true_iff in H as [-> H]. simpl.
  now apply match_domain_before_newline.
Qed.

(** X2: the regex ends in [$] and is matched without flags, so an
    accepted address stays accepted when one newline is appended to it:
    [validate_syntax] does not reject a trailing line feed. *)
Theorem accepted_address_with_trailing_newline (email : string) :
  validate_syntax email = Ret true ->
  (forall t, email <> t +:+ String newline "") ->
  validate_syntax (email +:+ String newline "") = Ret true.
Proof.
  unfold validate_syntax, re_match.
  destruct (match_local false email) eqn:H; [intros _ Hnl | discriminate].
  now rewrite (match_local_before_newline false email H Hnl).
Qed.

End SyntaxShape.

Lemma accepted_address_with_trailing_newline_witness :
  SyntaxValidator.validate_syntax
    ("user@example.com" +:+ String SyntaxValidator.newline "") = Ret true.
Proof.
  apply (accepted_address_with_trailing_newline "user@example.com");
    [reflexivity |].
  intros t H.
  repeat (destruct t as [| ? t]; cbn [String.append] in H;
          [discriminate H | injection H as _ H]).
  destruct t; discriminate H.
Defined.

(** ** validation_orchestrator.py: the other ways through [validate_email] *)

Section OrchestratorPaths.

Import ValidationOrchestrator.

Variable env : Env.

(** The run of [validate_email] that ends at the "no valid mail servers"
    exit, step by step. *)
Lemma validate_email_no_mail_servers_run
  (email : string) (dns_results : gmap string pyval) :
  SyntaxValidator.re_match email = true ->
  dns_validate_domain env (extract_domain env email) = Ret dns_results ->
  (truthy (get dns_results "has_mx") || truthy (get dns_results "has_a")) = false ->
  exists r,
    validate_email env email
    = (Ret r, {| results := r;
                 calls := [ DnsValidateDomain (extract_domain env email) ] |})
    /\ is_valid r = VBool false
    /\ error r = Some "Domain has no valid mail servers"
    /\ dns (checks r) = dns_results
    /\ syntax_is_valid (checks r) = true
    /\ score r = VInt 0.
Proof.
  intros Hsyntax Hdns Hrecords.
  eexists. split.
  - unfold validate_email, validate_email_body, syntax_validation,
      dns_validation, SyntaxValidator.validate_syntax.
    rewrite Hsyntax.
    unfold try_M, bindM, lift, modify, call, ret, set_error, get_results.
    cbn. rewrite Hdns. cbn.
    apply orb_false_iff in Hrecords as [-> ->]. cbn. reflexivity.
  - repeat split; reflexivity.
Qed.

(** X3: when the DNS check returns a record in which neither ["has_mx"]
    nor ["has_a"] is truthy, [validate_email] returns at once: the
    result has [is_valid=False] and the error "Domain has no valid mail
    servers", the DNS record is stored under [checks["dns"]], and the
    DNS lookup is the only call made. *)
Theorem validate_email_without_mail_servers
  (email : string) (dns_results : gmap string pyval) :
  SyntaxValidator.re_match email = true ->
  dns_validate_domain env (extract_domain env email) = Ret dns_results ->
  (truthy (get dns_results "has_mx") || truthy (get dns_results "has_a")) = false ->
  exists r,
    validate_email env email
    = (Ret r, {| results := r;
                 calls := [ DnsValidateDomain (extract_domain env email) ] |})
    /\ is_valid r = VBool false
    /\ error r = Some "Domain has no valid mail servers"
    /\ dns (checks r) = dns_results
    /\ syntax_is_valid (checks r) = true
    /\ score r = VInt 0.
Proof. exact (validate_email_no_mail_servers_run email dns_results). Qed.

(** X4: when the DNS check raises, no later check is called.  As
    shipped, with [RateLimitExceeded] unbound, the lookup of that name
    in the first [except] clause fails and the call ends in a
    [NameError], whatever was raised; with the name bound, an exception
    that is neither a [RateLimitExceeded] nor a [ValidationError]
    propagates unchanged. *)
Theorem validate_email_when_dns_raises (email : string) (e : exn) :
  SyntaxValidator.re_match email = true ->
  dns_validate_domain env (extract_domain env email) = Raise e ->
  calls (snd (validate_email env email))
  = [ DnsValidateDomain (extract_domain env email) ]
  /\ (RateLimitExceeded_bound env = false ->
      fst (validate_email env email)
      = Raise (mk_exn NameError "name 'RateLimitExceeded' is not defined"))
  /\ (RateLimitExceeded_bound env = true ->
      isinstance e RateLimitExceeded = false ->
      isinstance e ValidationError = false ->
      fst (validate_email env email) = Raise e).
Proof.
  intros Hsyntax Hdns.
  unfold validate_email, validate_email_body, syntax_validation,
    dns_validation, SyntaxValidator.validate_syntax.
  rewrite Hsyntax.
  unfold try_M, bindM, lift, modify, call, ret, set_error, get_results,
    log, unbound, raise.
  cbn. rewrite Hdns. cbn. rewrite isinstance_Exception.
  destruct (RateLimitExceeded_bound env); cbn.
  - destruct (isinstance e RateLimitExceeded), (isinstance e ValidationError),
      (logger_bound env); cbn;
      (split; [reflexivity | split; intros; first [discriminate | reflexivity]]).
  - split; [reflexivity | split; intros; first [discriminate | reflexivity]].
Qed.

End OrchestratorPaths.

Lemma validate_email_without_mail_servers_witness :
  exists r,
    ValidationOrchestrator.validate_email
      Scenarios.no_mail_servers_env "user@example.com"
    = (Ret r,
       {| ValidationOrchestrator.results := r;
          ValidationOrchestrator.calls :=
            [ ValidationOrchestrator.DnsValidateDomain "example.com" ] |})
    /\ ValidationOrchestrator.error r
       = Some "Domain has no valid mail servers".
Proof.
  destruct (validate_email_without_mail_servers
              Scenarios.no_mail_servers_env "user@example.com"
              {[ "a_record" := VBool true; "has_mx" := VBool false;
                 "has_ptr" := VBool false ]}
              eq_refl eq_refl ltac:(vm_compute; reflexivity))
    as (r & Hrun & _ & Herror & _).
  exists r. split; [exact Hrun | exact Herror].
Defined.

Lemma validate_email_when_dns_raises_witness :
  fst (ValidationOrchestrator.validate_email
         Scenarios.dns_timeout_env "user@example.com")
  = Raise (mk_exn NameError "name 'RateLimitExceeded' is not defined").
Proof.
  apply (validate_email_when_dns_raises
           Scenarios.dns_timeout_env "user@example.com"
           (mk_exn ValidationError "Domain validation failed: timeout")
           eq_refl eq_refl).
  reflexivity.
Defined.

Section OrchestratorNeverSucceeds.

Import ValidationOrchestrator.

Variable env : Env.

(** The additional steps never get to assign [results["score"]]. *)
Lemma additional_steps_keep_score (email domain : string)
      (dns_results : gmap string pyval) (st : State) :
  score (results (snd (additional_steps env email domain dns_results st)))
  = score (results st).
Proof.
  destruct st as [r cs].
  unfold additional_steps, bindM, call, modify, lift, get_results, ret.
  run_steps.
  destruct (verify_smtp env domain); run_steps; [| reflexivity].
  destruct (is_disposable_email env email); run_steps; [| reflexivity].
  destruct (is_role_account env email); run_steps; [| reflexivity].
  destruct (detect_typo env email) as [typo |]; run_steps; [| reflexivity].
  destruct (truthy typo); run_steps;
    (destruct (get_domain_reputation env domain); run_steps; [| reflexivity]);
    (destruct (spam_trap_check env email); run_steps; [| reflexivity]);
    (destruct (catch_all_check env domain); run_steps; [| reflexivity]);
    rewrite calculate_risk_score_key_error; run_steps; reflexivity.
Qed.

(** X5: [validate_email] never reports a success.  Every result it
    returns carries an error message and the initial score 0: past the
    syntax and DNS checks the additional steps always end in an
    exception (at the latest in the scorer), so the only results come
    from the error exits. *)
Theorem validate_email_returns_only_failures (email : string) (r : Results) :
  fst (validate_email env email) = Ret r ->
  error r <> None /\ score r = VInt 0.
Proof.
  destruct (SyntaxValidator.re_match email) eqn:Hsyntax.
  - destruct (dns_validate_domain env (extract_domain env email))
      as [dns_results | err] eqn:Hdns.
    + destruct (truthy (get dns_results "has_mx")
                || truthy (get dns_results "has_a")) eqn:Hrecords.
      * destruct (validate_email_after_gates env email dns_results
                    Hsyntax Hdns Hrecords) as (x & _ & Hrun).
        rewrite Hrun.
        destruct (logger_bound env); [| discriminate].
        simpl. intros H; inversion H; subst r; clear H.
        split; [discriminate |].
        cbn [score with_error].
        now rewrite additional_steps_keep_score.
      * destruct (validate_email_no_mail_servers_run env email dns_results
                    Hsyntax Hdns Hrecords)
          as (r' & Hrun & _ & Herror & _ & _ & Hscore).
        rewrite Hrun. simpl. intros H; inversion H; subst r'.
        rewrite Herror. split; [discriminate | exact Hscore].
    + unfold validate_email, validate_email_body, syntax_validation,
        dns_validation, SyntaxValidator.validate_syntax.
      rewrite Hsyntax.
      unfold try_M, bindM, lift, modify, call, ret, set_error, get_results,
        log, unbound, raise.
      cbn. rewrite Hdns. cbn. rewrite isinstance_Exception.
      destruct (RateLimitExceeded_bound env); cbn; [| discriminate].
      destruct (isinstance err RateLimitExceeded), (isinstance err ValidationError),
        (logger_bound env); cbn; try discriminate;
        intros H; inversion H; (split; [discriminate | reflexivity]).
  - rewrite (validate_email_on_invalid_syntax env email Hsyntax).
    destruct (logger_bound env); [| discriminate].
    simpl. intros H; inversion H. split; [discriminate | reflexivity].
Qed.

End OrchestratorNeverSucceeds.

Lemma validate_email_returns_only_failures_witness :
  exists r,
    fst (ValidationOrchestrator.validate_email
           Scenarios.healthy_env_with_logger "user@example.com") = Ret r
    /\ ValidationOrchestrator.error r <> None
    /\ ValidationOrchestrator.score r = VInt 0.
Proof.
  eexists. split; [vm_compute; reflexivity |].
  apply (validate_email_returns_only_failures
           Scenarios.healthy_env_with_logger "user@example.com").
  vm_compute. reflexivity.
Defined.

(** ** validation_orchestrator.py: the scorer defined in the module *)

Section LocalRiskScore.

Import ValidationOrchestrator.
Local Open Scope Q_scope.

Lemma bind_ret_inv {A B} (m : outcome A) (k : A -> outcome B) (b : B) :
  bind m k = Ret b -> exists a, m = Ret a /\ k a = Ret b.
Proof. destruct m as [a | e]; simpl; [eauto | discriminate]. Qed.

Lemma add_unless_bounds (d : gmap string pyval) (k : string) (n s s' : Q) :
  0 <= n -> add_unless d k n s = Ret s' ->
  is_Some (d !! k) /\ s <= s' <= s + n.
Proof.
  intros Hn H. unfold add_unless, getitem in H.
  destruct (d !! k) as [v |]; simpl in H; [| discriminate].
  split; [eauto |].
  destruct (truthy v); inversion H; subst; lra.
Qed.

Lemma add_if_bounds (d : gmap string pyval) (k : string) (n s s' : Q) :
  0 <= n -> add_if d k n s = Ret s' ->
  is_Some (d !! k) /\ s <= s' <= s + n.
Proof.
  intros Hn H. unfold add_if, getitem in H.
  destruct (d !! k) as [v |]; simpl in H; [| discriminate].
  split; [eauto |].
  destruct (truthy v); inversion H; subst; lra.
Qed.

(** X6: whenever the module's [calculate_risk_score] returns, all ten
    keys it indexes are present, the reputation is a number, and the
    score is at most 100; it is at least 0 provided the reputation is at
    most 100 (a larger reputation makes the reputation factor negative,
    and the function has no lower cap). *)
Theorem calculate_risk_score_bounds (d : gmap string pyval) (s : Q) :
  calculate_risk_score d = Ret s ->
  (forall k, In k flat_keys -> is_Some (d !! k))
  /\ s <= 100
  /\ exists reputation,
       (exists v, d !! "domain_reputation" = Some v /\ number v = Ret reputation)
       /\ (reputation <= 100 -> 0 <= s).
Proof.
  unfold calculate_risk_score. intros H.
  apply bind_ret_inv in H as (s1 & H1 & H).
  apply bind_ret_inv in H as (s2 & H2 & H).
  apply bind_ret_inv in H as (s3 & H3 & H).
  apply bind_ret_inv in H as (s4 & H4 & H).
  apply bind_ret_inv in H as (s5 & H5 & H).
  apply bind_ret_inv in H as (s6 & H6 & H).
  apply bind_ret_inv in H as (s7 & H7 & H).
  apply bind_ret_inv in H as (s8 & H8 & H).
  apply bind_ret_inv in H as (s9 & H9 & H).
  apply bind_ret_inv in H as (v & Hv & H).
  apply bind_ret_inv in H as (q & Hq & H).
  apply add_unless_bounds in H1 as [K1 B1]; [| lra].
  apply add_unless_bounds in H2 as [K2 B2]; [| lra].
  apply add_unless_bounds in H3 as [K3 B3]; [| lra].
  apply add_unless_bounds in H4 as [K4 B4]; [| lra].
  apply add_unless_bounds in H5 as [K5 B5]; [| lra].
  apply add_if_bounds in H6 as [K6 B6]; [| lra].
  apply add_if_bounds in H7 as [K7 B7]; [| lra].
  apply add_if_bounds in H8 as [K8 B8]; [| lra].
  apply add_if_bounds in H9 as [K9 B9]; [| lra].
  unfold getitem in Hv.
  destruct (d !! "domain_reputation") as [v' |] eqn:Hrep; [| discriminate].
  inversion Hv; subst v'; clear Hv.
  split; [| split].
  - intros k Hk. unfold flat_keys in Hk. simpl in Hk.
    repeat (destruct Hk as [<- | Hk]; [eauto |]).
    contradiction.
  - destruct (Qle_bool 100 (s9 + (100 - q) * 0.2)) eqn:Hcap;
      inversion H; subst s; [lra |].
    assert (~ 100 <= s9 + (100 - q) * 0.2)
      by (intros Hle; apply Qle_bool_iff in Hle; congruence).
    lra.
  - exists q. split; [eauto |].
    intros Hle.
    destruct (Qle_bool 100 (s9 + (100 - q) * 0.2)); inversion H; subst s; lra.
Qed.

End LocalRiskScore.

Lemma calculate_risk_score_bounds_witness :
  ValidationOrchestrator.calculate_risk_score Scenarios.clean_flat_record
  = Ret (40 # 10)%Q
  /\ (40 # 10 <= 100)%Q.
Proof.
  assert (H : ValidationOrchestrator.calculate_risk_score
                Scenarios.clean_flat_record = Ret (40 # 10)%Q)
    by (vm_compute; reflexivity).
  split; [exact H |].
  exact (proj1 (proj2 (calculate_risk_score_bounds
                         Scenarios.clean_flat_record (40 # 10)%Q H))).
Defined.

(** ** risk_score.py: the scorer the orchestrator imports *)

Section ImportedRiskScore.

Import ValidationOrchestrator.

Lemma checks_dict_lookups (c : Checks) :
  checks_dict c !! "syntax" = Some (VDict {[ "is_valid" := VBool (syntax_is_valid c) ]})
  /\ checks_dict c !! "dns" = Some (VDict (dns c))
  /\ checks_dict c !! "disposable"
     = Some (VDict {[ "is_disposable" := disposable_is_disposable c ]})
  /\ checks_dict c !! "spam_trap"
     = Some (VDict {[ "is_trap" := spam_trap_is_trap c ]})
  /\ checks_dict c !! "reputation"
     = Some (VDict {[ "score" := reputation_score c ]})
  /\ checks_dict c !! "smtp"
     = match smtp_verified c with
       | Some v => Some (VDict {[ "verified" := v ]})
       | None => None
       end.
Proof.
  unfold checks_dict.
  destruct (smtp_verified c); repeat split; simplify_map_eq; reflexivity.
Qed.


Lemma results_dict_checks (r : Results) :
  results_dict r !! "checks" = Some (VDict (checks_dict (checks r))).
Proof. unfold results_dict. simplify_map_eq. reflexivity. Qed.

Lemma py_int_nonneg (x : Q) : (0 <= x)%Q -> (0 <= RiskScore.py_int x)%Z.
Proof.
  unfold RiskScore.py_int, Qle. simpl. intros H.
  apply Z.quot_pos; lia.
Qed.

Lemma round_half_even_nonneg (x : Q) :
  (0 <= x)%Q -> (0 <= RiskScore.round_half_even x)%Z.
Proof.
  intros H. unfold RiskScore.round_half_even.
  assert (Hf : (0 <= Qfloor x)%Z).
  { change 0%Z with (Qfloor 0). now apply Qfloor_resp_le. }
  destruct (x - inject_Z (Qfloor x) ?= 1 # 2)%Q;
    [destruct (Z.even (Qfloor x)) | |]; lia.
Qed.

Lemma to_float_nonneg (x : Q) : (0 <= x)%Q -> (0 <= RiskScore.to_float x)%Q.
Proof.
  intros H. unfold RiskScore.to_float.
  destruct (Qeq_bool x 0); [apply Qle_refl |].
  set (quantum := (2 ^ _)%Q).
  assert (Hquantum : (0 < quantum)%Q) by (now apply Qpower_0_lt).
  apply Qmult_le_0_compat; [| now apply Qlt_le_weak].
  change 0%Q with (inject_Z 0). rewrite <- Zle_Qle.
  apply round_half_even_nonneg.
  apply Qle_shift_div_l; [exact Hquantum |].
  now rewrite Qmult_0_l.
Qed.

(** The points for a reputation that is a number: none when the scaled
    value leaves the range of floats, and not negative for a reputation
    that is not negative. *)
Lemma reputation_points_of_number (v : pyval) (q : Q) :
  RiskScore.number v = Ret q ->
  if RiskScore.overflows v
  then exists message,
         RiskScore.reputation_points v = Raise (mk_exn OverflowError message)
  else exists points,
         RiskScore.reputation_points v = Ret points
         /\ ((0 <= q)%Q -> (0 <= points)%Z).
Proof.
  assert (Hscaled : forall z : Z, (0 <= z)%Z ->
            (0 <= inject_Z (RiskScore.W_reputation * z) / 100)%Q).
  { intros z Hz. apply Qle_shift_div_l; [reflexivity |].
    rewrite Qmult_0_l. change 0%Q with (inject_Z 0). rewrite <- Zle_Qle.
    unfold RiskScore.W_reputation. lia. }
  destruct v as [| b | z | x | | |]; try discriminate;
    unfold RiskScore.number, RiskScore.overflows, RiskScore.reputation_points;
    intros Hq; injection Hq as <-.
  - assert (Hb : RiskScore.too_large_for_float
                   (inject_Z (RiskScore.W_reputation
                              * (if b then 1 else 0)%Z) / 100) = false)
      by (destruct b; vm_compute; reflexivity).
    rewrite Hb.
    eexists. split; [reflexivity |]. intros _.
    apply py_int_nonneg, to_float_nonneg, Hscaled.
    destruct b; lia.
  - destruct (RiskScore.too_large_for_float _).
    + eexists. reflexivity.
    + eexists. split; [reflexivity |]. intros Hz.
      apply py_int_nonneg, to_float_nonneg, Hscaled.
      change 0%Q with (inject_Z 0) in Hz. now rewrite <- Zle_Qle in Hz.
  - destruct (RiskScore.too_large_for_float _).
    + eexists. reflexivity.
    + eexists. split; [reflexivity |]. intros Hx.
      apply py_int_nonneg, to_float_nonneg.
      apply Qle_shift_div_l; [reflexivity |]. rewrite Qmult_0_l.
      apply to_float_nonneg.
      apply Qmult_le_0_compat; [discriminate | exact Hx].
Qed.

(** The imported scorer on a dictionary of [validate_email] whose
    reputation entry is a number. *)
Lemma imported_scorer_on_results (r : Results) (q : Q) :
  RiskScore.number (reputation_score (checks r)) = Ret q ->
  (RiskScore.overflows (reputation_score (checks r)) = false ->
   exists s,
     RiskScore.calculate_risk_score (results_dict r) = Ret s
     /\ (0 <= s <= 100)%Z
     /\ (syntax_is_valid (checks r) = true ->
         truthy (get (dns (checks r)) "has_mx") = true ->
         (exists v, smtp_verified (checks r) = Some v /\ truthy v = true) ->
         truthy (disposable_is_disposable (checks r)) = false ->
         truthy (spam_trap_is_trap (checks r)) = false ->
         (0 <= q)%Q ->
         (75 <= s)%Z))
  /\ (RiskScore.overflows (reputation_score (checks r)) = true ->
      exists message,
        RiskScore.calculate_risk_score (results_dict r)
        = Raise (mk_exn OverflowError message)).
Proof.
  intros Hq.
  pose proof (reputation_points_of_number _ _ Hq) as Hpoints.
  destruct (checks_dict_lookups (checks r))
    as (Hsyntax & Hdns & Hdisposable & Hspam & Hreputation & Hsmtp).
  unfold RiskScore.calculate_risk_score, getitem.
  rewrite results_dict_checks.
  cbn [bind RiskScore.index getitem dict_get].
  unfold getitem.
  rewrite Hsyntax, Hdns, Hdisposable, Hspam, Hreputation, Hsmtp.
  cbn [bind RiskScore.index getitem dict_get].
  unfold getitem.
  rewrite !lookup_singleton_eq.
  cbn [bind].
  set (has_mx := truthy match dns (checks r) !! "has_mx" with
                        | Some x => x | None => VNone end).
  set (has_a := truthy match dns (checks r) !! "has_a" with
                       | Some x => x | None => VNone end).
  set (has_ptr := truthy match dns (checks r) !! "has_ptr" with
                         | Some x => x | None => VNone end).
  split; intros Hover; rewrite Hover in Hpoints.
  - destruct Hpoints as (points & Hpoints & Hrep).
    destruct (smtp_verified (checks r)) as [v |];
      cbn [dict_get]; rewrite ?lookup_singleton_eq, ?lookup_empty;
      cbn [bind]; rewrite Hpoints; cbn [bind];
      (eexists; split; [reflexivity |]);
      (split; [lia |]);
      intros Hsyn Hmx (v' & Hv & Hverified) Hdisp Htrap Hq0;
      [| discriminate].
    inversion Hv; subst v'. specialize (Hrep Hq0).
    change (has_mx = true) in Hmx.
    rewrite Hsyn, Hmx, Hverified, Hdisp, Htrap.
    unfold RiskScore.W_syntax, RiskScore.W_dns, RiskScore.W_smtp,
      RiskScore.W_disposable, RiskScore.W_spam_trap.
    cbn [truthy negb].
    destruct has_a, has_ptr; lia.
  - destruct Hpoints as (message & Hpoints). exists message.
    destruct (smtp_verified (checks r)) as [v |];
      cbn [dict_get]; rewrite ?lookup_singleton_eq, ?lookup_empty;
      cbn [bind]; rewrite Hpoints; reflexivity.
Qed.

(** X7: the scorer of [risk_score.py] accepts the dictionary that
    [validate_email] builds, without a [KeyError], whenever the
    reputation entry is a number ([int], [bool] or finite [float]).
    Unless that number is so large that scaling it leaves the range of
    floats, the scorer returns a score between 0 and 100, and higher is
    better: when syntax, MX and SMTP checks passed, the address is
    neither disposable nor a spam trap and the reputation is not
    negative, the score is at least 75.  For a number that large the
    scorer raises [OverflowError]. *)
Theorem imported_scorer_accepts_results (r : Results) (q : Q) :
  RiskScore.number (reputation_score (checks r)) = Ret q ->
  (RiskScore.overflows (reputation_score (checks r)) = false ->
   exists s,
     RiskScore.calculate_risk_score (results_dict r) = Ret s
     /\ (0 <= s <= 100)%Z
     /\ (syntax_is_valid (checks r) = true ->
         truthy (get (dns (checks r)) "has_mx") = true ->
         (exists v, smtp_verified (checks r) = Some v /\ truthy v = true) ->
         truthy (disposable_is_disposable (checks r)) = false ->
         truthy (spam_trap_is_trap (checks r)) = false ->
         (0 <= q)%Q ->
         (75 <= s)%Z))
  /\ (RiskScore.overflows (reputation_score (checks r)) = true ->
      exists message,
        RiskScore.calculate_risk_score (results_dict r)
        = Raise (mk_exn OverflowError message)).
Proof. exact (imported_scorer_on_results r q). Qed.

End ImportedRiskScore.

Lemma imported_scorer_accepts_results_witness :
  exists s,
    RiskScore.calculate_risk_score
      (ValidationOrchestrator.results_dict Scenarios.healthy_results) = Ret s
    /\ (0 <= s <= 100)%Z.
Proof.
  destruct (imported_scorer_accepts_results Scenarios.healthy_results 80%Q)
    as [Hreturns _].
  - vm_compute. reflexivity.
  - destruct Hreturns as (s & Hs & Hbounds & _).
    + vm_compute. reflexivity.
    + exists s. split; [exact Hs | exact Hbounds].
Defined.

Example imported_scorer_on_huge_int_reputation :
  RiskScore.calculate_risk_score
    (ValidationOrchestrator.results_dict
       (Scenarios.results_with_reputation Scenarios.huge_int_reputation))
  = Raise (mk_exn OverflowError
             "integer division result too large for a float").
Proof. vm_compute. reflexivity. Qed.

Example imported_scorer_on_huge_float_reputation :
  RiskScore.calculate_risk_score
    (ValidationOrchestrator.results_dict
       (Scenarios.results_with_reputation Scenarios.huge_float_reputation))
  = Raise (mk_exn OverflowError "cannot convert float infinity to integer").
Proof. vm_compute. reflexivity. Qed.

(** Rounding as the interpreter does it: [0.1], [2**53 + 1] and
    [1e16 - 0.1] read as floats. *)
Example to_float_samples :
  Qred (RiskScore.to_float (1 # 10))
  = (3602879701896397 # 36028797018963968)%Q
  /\ Qred (RiskScore.to_float (inject_Z (2 ^ 53 + 1))) = inject_Z (2 ^ 53)
  /\ Qred (RiskScore.to_float (inject_Z (10 ^ 16) - (1 # 10)))
     = inject_Z (10 ^ 16).
Proof. vm_compute. repeat split. Qed.

Example imported_scorer_on_healthy_results :
  RiskScore.calculate_risk_score
    (ValidationOrchestrator.results_dict Scenarios.healthy_results) = Ret 98%Z.
Proof. vm_compute. reflexivity. Qed.

(** ** Orchestrator: what the healthy scenario returns *)

Section HealthyScenarioOutcome.

Import ValidationOrchestrator.

Variable env : Env.

(** C2: for "user@example.com" with every external check healthy,
    [validate_email] gets through all its checks and sets [is_valid] to
    [True], and then loses the score.  The module's own
    [calculate_risk_score], which shadows the imported one, looks up
    ["syntax_valid"] in [results] and raises [KeyError]; the handler
    uses [logger], a name the module never binds.  As shipped the call
    therefore raises [NameError] and returns nothing; with [logger]
    bound it returns [results] with [is_valid] true, the error
    "Validation error: 'syntax_valid'", the score still 0 and no risk
    level.  The imported scorer returns a score of at least 75 for the
    same dictionary. *)
Theorem healthy_scenario_loses_the_score :
  healthy env "user@example.com" ->
  let domain := extract_domain env "user@example.com" in
  let run := validate_email env "user@example.com" in
  let r := results (snd run) in
  calls (snd run)
  = DnsValidateDomain domain :: post_dns_calls "user@example.com" domain
  /\ is_valid r = VBool true
  /\ calculate_risk_score (results_dict r)
     = Raise (mk_exn KeyError "'syntax_valid'")
  /\ fst run
     = (if logger_bound env then Ret r
        else Raise (mk_exn NameError "name 'logger' is not defined"))
  /\ error r
     = (if logger_bound env then Some "Validation error: 'syntax_valid'"
        else None)
  /\ score r = VInt 0
  /\ results_dict r !! "risk_level" = None
  /\ (exists s, RiskScore.calculate_risk_score (results_dict r) = Ret s
                /\ (75 <= s <= 100)%Z).
Proof.
  intros Hhealthy domain run r.
  destruct Hhealthy
    as (dns_results & smtp_result & Hdns & Hmx & Hsmtp & Hverified
        & Hdisposable & Hrole & Htypo & Hreputation & Hspam & Hcatch).
  assert (Hsyntax : SyntaxValidator.re_match "user@example.com" = true)
    by reflexivity.
  assert (Hrecords : (truthy (get dns_results "has_mx")
                      || truthy (get dns_results "has_a")) = true)
    by (unfold get; rewrite Hmx; reflexivity).
  destruct (validate_email_after_gates env "user@example.com" dns_results
              Hsyntax Hdns Hrecords) as (e & He & Hrun).
  subst r run domain. rewrite Hrun. clear Hrun. revert He.
  unfold additional_steps, state_after_gates, bindM, call, modify, lift,
    get_results, ret.
  run_steps.
  rewrite Hsmtp; run_steps.
  rewrite Hdisposable; run_steps.
  rewrite Hrole; run_steps.
  rewrite Htypo; cbn beta iota zeta delta [calls results fst snd truthy].
  rewrite Hreputation; run_steps.
  rewrite Hspam; run_steps.
  rewrite Hcatch; run_steps.
  rewrite calculate_risk_score_key_error; run_steps.
  intros He. injection He as <-.
  assert (Hhas : get_or_false dns_results "has_mx" = VBool true)
    by (unfold get_or_false; rewrite Hmx; reflexivity).
  assert (Hget : truthy (get dns_results "has_mx") = true)
    by (unfold get; rewrite Hmx; reflexivity).
  destruct (logger_bound env); cbn [fst snd results calls];
    (split; [reflexivity |]);
    (split; [cbn [is_valid with_error with_is_valid]; rewrite Hhas;
             reflexivity |]);
    (split; [apply calculate_risk_score_key_error |]);
    (split; [reflexivity |]);
    (split; [reflexivity |]);
    (split; [reflexivity |]);
    (split; [apply results_dict_has_no_flat_keys |]).
  all: match goal with
       | |- exists s, RiskScore.calculate_risk_score (results_dict ?R) = _ /\ _ =>
           destruct (imported_scorer_on_results R 80%Q) as [Hreturns _];
             [reflexivity |];
           destruct Hreturns as (s & Hs & Hbounds & Hhigh); [reflexivity |];
           exists s; split; [exact Hs |]; split; [| lia];
           apply Hhigh;
             [ reflexivity
             | exact Hget
             | exists smtp_result; split; [reflexivity | exact Hverified]
             | reflexivity
             | reflexivity
             | discriminate ]
       end.
Qed.

End HealthyScenarioOutcome.

Lemma healthy_scenario_loses_the_score_witness :
  ValidationOrchestrator.healthy Scenarios.healthy_env "user@example.com"
  /\ fst (ValidationOrchestrator.validate_email
            Scenarios.healthy_env "user@example.com")
     = Raise (mk_exn NameError "name 'logger' is not defined")
  /\ ValidationOrchestrator.score
       (ValidationOrchestrator.results
          (snd (ValidationOrchestrator.validate_email
                  Scenarios.healthy_env "user@example.com")))
     = VInt 0.
Proof.
  assert (Hhealthy : ValidationOrchestrator.healthy
                       Scenarios.healthy_env "user@example.com").
  { do 2 eexists.
    split; [reflexivity |].
    split; [vm_compute; reflexivity |].
    split; [reflexivity |].
    split; [vm_compute; reflexivity |].
    repeat split; reflexivity. }
  split; [exact Hhealthy |].
  destruct (healthy_scenario_loses_the_score Scenarios.healthy_env Hhealthy)
    as (_ & _ & _ & Hreturned & _ & Hscore & _).
  split; [exact Hreturned | exact Hscore].
Defined.

(** With [logger] bound the healthy scenario returns a result: valid,
    with the score 0, an error message and no risk level. *)
Example healthy_scenario_with_logger_returns_score_0 :
  exists r,
    fst (ValidationOrchestrator.validate_email
           Scenarios.healthy_env_with_logger "user@example.com") = Ret r
    /\ ValidationOrchestrator.is_valid r = VBool true
    /\ ValidationOrchestrator.score r = VInt 0
    /\ ValidationOrchestrator.error r
       = Some "Validation error: 'syntax_valid'"
    /\ ValidationOrchestrator.results_dict r !! "risk_level" = None.
Proof.
  eexists. split; [vm_compute; reflexivity |].
  split; [reflexivity |]. split; [reflexivity |]. split; [reflexivity |].
  apply results_dict_has_no_flat_keys.
Qed.

(** ** smtp_verifier.py: what a result of [verify_smtp] tells *)

Section SmtpInvariants.

Import SmtpVerifier.

Variable validate_dns : string -> outcome DnsResult.
Variable server : string -> string -> Session.

(** The loop over the servers, whatever they answer: the hosts tried are
    a prefix of the list, and a result comes from the first host whose
    probe is valid. *)
Lemma try_servers_inv (email domain : string) (l : list (Z * string)) :
  match fst (try_servers server email domain l) with
  | Some r =>
      exists before p h after,
        l = (before ++ (p, h) :: after)%list
        /\ (forall x, In x before ->
                      accepted_by server email domain (snd x) = false)
        /\ _check_smtp_server server email h domain = Ret r
        /\ valid r = true
        /\ snd (try_servers server email domain l)
           = (map snd before ++ [h])%list
  | None =>
      snd (try_servers server email domain l) = map snd l
      /\ (forall x, In x l -> accepted_by server email domain (snd x) = false)
  end.
Proof.
  induction l as [| [p h] l IH]; [simpl; split; [reflexivity | intros x []] |].
  destruct (accepted_by server email domain h) eqn:Hacc.
  - unfold accepted_by in Hacc.
    destruct (_check_smtp_server server email h domain) as [r |] eqn:Hret;
      [| discriminate].
    simpl. rewrite try_except_Exception, Hret. simpl. rewrite Hacc. simpl.
    exists [], p, h, l. repeat split; auto. intros x [].
  - rewrite (try_servers_step_reject server email domain p h l Hacc).
    cbn [fst snd].
    destruct (fst (try_servers server email domain l)) as [r |].
    + destruct IH as (before & q & g & after & Hl & Hbefore & Hret & Hv & Htried).
      exists ((p, h) :: before), q, g, after.
      repeat split; auto.
      * now rewrite Hl.
      * intros x [<- | Hx]; [exact Hacc | now apply Hbefore].
      * now rewrite Htried.
    + destruct IH as [Htried Hall]. split.
      * now rewrite Htried.
      * intros x [<- | Hx]; [exact Hacc | now apply Hall].
Qed.

(** X8: [verify_smtp] never reports an address as valid without a 250:
    a valid result is the result of probing one of the MX hosts of the
    DNS answer, that host answered RCPT TO with 250, every host before it
    in priority order was tried and did not accept, and no host after it
    was contacted. *)
Theorem verify_smtp_valid_only_after_250
  (email : string) (r : SMTPResult) (tried : list string) :
  verify_smtp validate_dns server email = (r, tried) ->
  valid r = true ->
  exists d domain before p h after,
    validate_dns email = Ret d
    /\ dns_valid d = true
    /\ index1 (split "@" email) = Ret domain
    /\ sorted (mx_records d) = (before ++ (p, h) :: after)%list
    /\ (forall x, In x before ->
                  accepted_by server email domain (snd x) = false)
    /\ In (p, h) (mx_records d)
    /\ _check_smtp_server server email h domain = Ret r
    /\ code r = 250%Z
    /\ error r = ""
    /\ tried = (map snd before ++ [h])%list.
Proof.
  unfold verify_smtp.
  destruct (validate_dns email) as [d | e];
    [| intros H; inversion H; subst; discriminate].
  destruct (dns_valid d) eqn:Hvalid; simpl;
    [| intros H; inversion H; subst; discriminate].
  destruct (index1 (split "@" email)) as [domain | e];
    [| intros H; inversion H; subst; discriminate].
  destruct (mx_records d) as [| mx mxs] eqn:Hmx;
    [intros H; inversion H; subst; discriminate |].
  rewrite <- Hmx.
  pose proof (try_servers_inv email domain (sorted (mx_records d))) as Hinv.
  destruct (try_servers server email domain (sorted (mx_records d)))
    as [[r' |] tried'];
    cbn [fst snd] in Hinv;
    [| intros H; inversion H; subst; discriminate].
  intros H _; inversion H; subst r' tried'; clear H.
  destruct Hinv as (before & p & h & after & Horder & Hbefore & Hret & Hv & Htried).
  exists d, domain, before, p, h, after.
  repeat split; auto.
  - eapply Permutation_in; [symmetry; apply sorted_perm |].
    rewrite Horder. apply in_or_app. right. now left.
  - pose proof (check_smtp_server_valid_iff_250 server _ _ _ _ Hret) as Hc.
    rewrite Hv in Hc. symmetry in Hc. now apply Z.eqb_eq in Hc.
  - pose proof Hret as Hrun.
    apply check_smtp_server_returns in Hrun as [_ Hrun].
    apply dialogue_returns in Hrun
      as (_ & _ & _ & _ & reply & text & _ & _ & ->).
    reflexivity.
Qed.

(** X9: a failed verification never passes on what a server answered:
    whenever the result has [valid=False], its code is 0, its message is
    empty and [supports_tls] is false (the dataclass defaults), and its
    error text is not empty; the 550 of a rejecting server is lost. *)
Theorem verify_smtp_failure_hides_server_reply (email : string) :
  valid (fst (verify_smtp validate_dns server email)) = false ->
  code (fst (verify_smtp validate_dns server email)) = 0%Z
  /\ message (fst (verify_smtp validate_dns server email)) = ""
  /\ supports_tls (fst (verify_smtp validate_dns server email)) = false
  /\ error (fst (verify_smtp validate_dns server email)) <> "".
Proof.
  unfold verify_smtp.
  destruct (validate_dns email) as [d | e];
    [| intros _; repeat split; discriminate].
  destruct (dns_valid d); simpl; [| intros _; repeat split; discriminate].
  destruct (index1 (split "@" email)) as [domain | e];
    [| intros _; repeat split; discriminate].
  destruct (mx_records d) as [| mx mxs] eqn:Hmx;
    [intros _; repeat split; discriminate |].
  rewrite <- Hmx.
  pose proof (try_servers_inv email domain (sorted (mx_records d))) as Hinv.
  destruct (try_servers server email domain (sorted (mx_records d)))
    as [[r' |] tried'];
    cbn [fst snd] in Hinv |- *;
    [| intros _; repeat split; discriminate].
  destruct Hinv as (_ & _ & _ & _ & _ & _ & _ & Hv & _).
  rewrite Hv. discriminate.
Qed.

(** X10: [verify_smtp] only ever contacts MX hosts of the DNS answer, in
    ascending priority order and without skipping one: the hosts
    contacted are a prefix of the sorted MX list; and it contacts no host
    at all when the DNS check raises or does not report the domain as
    valid. *)
Theorem verify_smtp_contacts_a_prefix (email : string) :
  match validate_dns email with
  | Ret d =>
      (exists rest,
          map snd (sorted (mx_records d))
          = (snd (verify_smtp validate_dns server email) ++ rest)%list)
      /\ (dns_valid d = false
          -> snd (verify_smtp validate_dns server email) = [])
  | Raise _ => snd (verify_smtp validate_dns server email) = []
  end.
Proof.
  unfold verify_smtp.
  destruct (validate_dns email) as [d | e]; [| reflexivity].
  destruct (dns_valid d); simpl;
    [| split; [eexists; reflexivity | reflexivity]].
  split; [| discriminate].
  destruct (index1 (split "@" email)) as [domain | e];
    [| eexists; reflexivity].
  destruct (mx_records d) as [| mx mxs] eqn:Hmx; [eexists; reflexivity |].
  rewrite <- Hmx.
  pose proof (try_servers_inv email domain (sorted (mx_records d))) as Hinv.
  destruct (try_servers server email domain (sorted (mx_records d)))
    as [[r' |] tried'];
    cbn [fst snd] in Hinv |- *.
  - destruct Hinv as (before & p & h & after & Horder & _ & _ & _ & Htried).
    exists (map snd after). rewrite Horder, Htried, map_app. simpl.
    now rewrite <- app_assoc.
  - destruct Hinv as [-> _]. exists []. now rewrite app_nil_r.
Qed.

End SmtpInvariants.

Lemma verify_smtp_valid_only_after_250_witness :
  exists h,
    In h [ "b.example"; "a.example" ]
    /\ SmtpVerifier.code
         (fst (SmtpVerifier.verify_smtp
                 Scenarios.two_mx_dns Scenarios.reject_then_accept
                 "user@example.com")) = 250%Z
    /\ snd (SmtpVerifier.verify_smtp
              Scenarios.two_mx_dns Scenarios.reject_then_accept
              "user@example.com") = [ "a.example"; h ].
Proof.
  destruct (verify_smtp_valid_only_after_250
              Scenarios.two_mx_dns Scenarios.reject_then_accept
              "user@example.com" _ _ eq_refl eq_refl)
    as (d & domain & before & p & h & after & Hdns & _ & _ & Horder & _
        & Hin & _ & Hcode & _ & Htried).
  injection Hdns as <-.
  exists h. split; [| split].
  - apply (in_map snd) in Hin. exact Hin.
  - exact Hcode.
  - vm_compute in Horder.
    destruct before as [| x [| y before]].
    + injection Horder as _ Hafter. subst after. discriminate Htried.
    + injection Horder as <- <- _. exact Htried.
    + injection Horder as _ _ Hnil. destruct before; discriminate Hnil.
Defined.

Lemma verify_smtp_failure_hides_server_reply_witness :
  SmtpVerifier.rcpt (Scenarios.all_reject "a.example" "user@example.com")
  = Ret (550%Z, "User unknown")
  /\ SmtpVerifier.code
       (fst (SmtpVerifier.verify_smtp
               Scenarios.two_mx_dns Scenarios.all_reject "user@example.com"))
     = 0%Z.
Proof.
  split; [reflexivity |].
  apply (verify_smtp_failure_hides_server_reply
           Scenarios.two_mx_dns Scenarios.all_reject "user@example.com").
  reflexivity.
Defined.

Lemma verify_smtp_contacts_a_prefix_witness :
  exists rest,
    [ "a.example"; "b.example" ]
    = (snd (SmtpVerifier.verify_smtp
              Scenarios.two_mx_dns Scenarios.timeout_then_accept
              "user@example.com") ++ rest)%list.
Proof.
  exact (proj1 (verify_smtp_contacts_a_prefix
                  Scenarios.two_mx_dns Scenarios.timeout_then_accept
                  "user@example.com")).
Defined.

(** ** disposable_email_detector.py: beyond the fail-open cases *)

Section DisposableInvariants.

Import DisposableEmailDetector.

Variable requests_get : string -> outcome Response.

(** X11: [is_disposable_email] never flags an address on its own: a
    truthy answer is the ["is_disposable"] entry of the JSON object the
    API sent with status 200. *)
Theorem is_disposable_email_flags_only_on_api_hit (email : string) (v : pyval) :
  is_disposable_email requests_get email = Ret v ->
  truthy v = true ->
  exists response d,
    requests_get (lookup_url email) = Ret response
    /\ status_code response = 200%Z
    /\ json response = Ret (VDict d)
    /\ d !! "is_disposable" = Some v.
Proof.
  unfold is_disposable_email.
  destruct (requests_get (lookup_url email)) as [response | e]; simpl.
  - destruct (status_code response =? 200)%Z eqn:Hstatus; simpl.
    + apply Z.eqb_eq in Hstatus.
      destruct (json response) as [data | e] eqn:Hjson; simpl.
      * destruct data as [| | | | | | d]; simpl; try discriminate.
        destruct (d !! "is_disposable") as [x |] eqn:Hd.
        -- intros H Hv; inversion H; subst x. now exists response, d.
        -- intros H Hv; inversion H; subst v. discriminate Hv.
      * destruct (isinstance e RequestException);
          [intros H Hv; inversion H; subst v; discriminate Hv | discriminate].
    + intros H Hv; inversion H; subst v. discriminate Hv.
  - destruct (isinstance e RequestException);
      [intros H Hv; inversion H; subst v; discriminate Hv | discriminate].
Qed.

(** X12: [is_disposable_email] is fail-open for the [requests]
    exceptions only.  An exception it lets out is not a
    [RequestException], and it is either the one [requests.get] raised,
    or the one [response.json()] raised on a 200 answer, or the
    [AttributeError] of [data.get] when the JSON of a 200 answer is not
    an object. *)
Theorem is_disposable_email_raises_only (email : string) (e : exn) :
  is_disposable_email requests_get email = Raise e ->
  isinstance e RequestException = false
  /\ (requests_get (lookup_url email) = Raise e
      \/ exists response,
           requests_get (lookup_url email) = Ret response
           /\ status_code response = 200%Z
           /\ (json response = Raise e
               \/ exists data,
                    json response = Ret data
                    /\ (forall d, data <> VDict d)
                    /\ exn_cls e = AttributeError)).
Proof.
  unfold is_disposable_email.
  destruct (requests_get (lookup_url email)) as [response | e0]; simpl.
  - destruct (status_code response =? 200)%Z eqn:Hstatus; simpl;
      [| discriminate].
    apply Z.eqb_eq in Hstatus.
    destruct (json response) as [data | e0] eqn:Hjson; simpl.
    + destruct data as [| | | | | | d]; simpl; try discriminate;
        intros H; inversion H; subst e;
        (split; [reflexivity |]); right; exists response;
        (split; [reflexivity |]); (split; [exact Hstatus |]); right;
        eexists; (split; [exact Hjson |]); (split; [| reflexivity]);
        intros d; discriminate.
    + destruct (isinstance e0 RequestException) eqn:Hcls; [discriminate |].
      intros H; inversion H; subst e0.
      split; [exact Hcls |]. right. exists response. auto.
  - destruct (isinstance e0 RequestException) eqn:Hcls; [discriminate |].
    intros H; inversion H; subst e0. split; [exact Hcls | now left].
Qed.

End DisposableInvariants.

Lemma is_disposable_email_flags_only_on_api_hit_witness :
  exists response d,
    (fun _ : string =>
       Ret {| DisposableEmailDetector.status_code := 200;
              DisposableEmailDetector.json :=
                Ret (VDict {[ "is_disposable" := VBool true ]}) |})
      (DisposableEmailDetector.lookup_url "user@mailinator.com")
    = Ret response
    /\ DisposableEmailDetector.status_code response = 200%Z
    /\ DisposableEmailDetector.json response = Ret (VDict d)
    /\ d !! "is_disposable" = Some (VBool true).
Proof.
  apply (is_disposable_email_flags_only_on_api_hit
           (fun _ =>
              Ret {| DisposableEmailDetector.status_code := 200;
                     DisposableEmailDetector.json :=
                       Ret (VDict {[ "is_disposable" := VBool true ]}) |})
           "user@mailinator.com" (VBool true));
    reflexivity.
Defined.

Lemma is_disposable_email_raises_only_witness :
  DisposableEmailDetector.is_disposable_email
    (fun _ =>
       Ret {| DisposableEmailDetector.status_code := 200;
              DisposableEmailDetector.json := Ret (VList []) |})
    "user@mailinator.com"
  = Raise (mk_exn AttributeError "object has no attribute 'get'")
  /\ isinstance (mk_exn AttributeError "object has no attribute 'get'")
                RequestException = false.
Proof.
  split; [reflexivity |].
  apply (is_disposable_email_raises_only
           (fun _ =>
              Ret {| DisposableEmailDetector.status_code := 200;
                     DisposableEmailDetector.json := Ret (VList []) |})
           "user@mailinator.com"
           (mk_exn AttributeError "object has no attribute 'get'")).
  reflexivity.
Defined.

(** ** typo_detector.py: what [detect_typo] can answer *)

Section DifflibTermination.

Import Difflib.

Variables a b : list ascii.
Variables alo blo bhi : nat.

Lemma j2lenget_pred_within (bound : nat) (j2len : gmap nat nat) (j : nat) :
  runs_within bound j2len -> (j2lenget_pred j2len j <= bound)%nat.
Proof.
  intros H. destruct j as [| p]; simpl; [lia |].
  destruct (j2len !! p) as [v |] eqn:E; simpl; [now apply (H p) | lia].
Qed.

Lemma row_inv (i : nat) (j2len : gmap nat nat) :
  (alo <= i)%nat ->
  runs_within (i - alo) j2len ->
  forall js newj2len best,
    runs_within (S i - alo) newj2len ->
    block_within alo (S i) best ->
    runs_within (S i - alo) (fst (row i blo bhi j2len js newj2len best))
    /\ block_within alo (S i) (snd (row i blo bhi j2len js newj2len best)).
Proof.
  intros Hi Hj2len.
  induction js as [| j js IH]; intros newj2len best Hnew Hbest; simpl;
    [now split |].
  destruct (j <? blo)%nat; [now apply IH |].
  destruct (bhi <=? j)%nat; [now split |].
  destruct best as [[besti bestj] bestsize].
  pose proof (j2lenget_pred_within _ _ j Hj2len) as Hk.
  apply IH.
  - intros j' v. destruct (decide (j = j')) as [<- | Hne].
    + rewrite lookup_insert_eq. intros [= <-]. lia.
    + rewrite lookup_insert_ne by exact Hne. apply Hnew.
  - destruct (bestsize <? j2lenget_pred j2len j + 1)%nat; [| exact Hbest].
    simpl. lia.
Qed.

Lemma rows_inv (n : nat) :
  forall i j2len best,
    (alo <= i)%nat ->
    runs_within (i - alo) j2len ->
    block_within alo i best ->
    block_within alo (i + n) (rows a b blo bhi n i j2len best).
Proof.
  induction n as [| n IH]; intros i j2len best Hi Hj2len Hbest; simpl.
  - now rewrite Nat.add_0_r.
  - assert (Hbest' : block_within alo (S i) best).
    { destruct best as [[besti bestj] bestsize]. simpl in *. lia. }
    assert (Hempty : runs_within (S i - alo) ∅).
    { intros j v. rewrite lookup_empty. discriminate. }
    pose proof (row_inv i j2len Hi Hj2len (b2j b (at_ a i)) ∅ best
                        Hempty Hbest') as [Hnew Hblock].
    destruct (row i blo bhi j2len (b2j b (at_ a i)) ∅ best)
      as [newj2len best'].
    replace (i + S n)%nat with (S i + n)%nat by lia.
    apply IH; [lia | exact Hnew | exact Hblock].
Qed.

Lemma extend_left_inv (hi : nat) :
  forall besti bestj bestsize,
    block_within alo hi (besti, bestj, bestsize) ->
    block_within alo hi (extend_left a b alo blo besti bestj bestsize).
Proof.
  induction besti as [| bi IH]; intros bestj bestsize Hbest; simpl;
    [exact Hbest |].
  destruct ((alo <? S bi)%nat && (blo <? bestj)%nat
            && Ascii.eqb (at_ a bi) (at_ b (bestj - 1))) eqn:E;
    [| exact Hbest].
  apply andb_true_iff in E as [E _]. apply andb_true_iff in E as [E _].
  apply Nat.ltb_lt in E.
  apply IH. simpl in *. lia.
Qed.

Lemma extend_right_inv (ahi besti bestj : nat) (n : nat) :
  forall bestsize,
    (besti + bestsize <= ahi)%nat ->
    (besti + extend_right a b ahi bhi besti bestj bestsize n <= ahi)%nat.
Proof.
  induction n as [| n IH]; intros bestsize Hbest; simpl; [exact Hbest |].
  destruct ((besti + bestsize <? ahi)%nat && (bestj + bestsize <? bhi)%nat
            && Ascii.eqb (at_ a (besti + bestsize)) (at_ b (bestj + bestsize)))
    eqn:E; [| exact Hbest].
  apply andb_true_iff in E as [E _]. apply andb_true_iff in E as [E _].
  apply Nat.ltb_lt in E.
  apply IH. lia.
Qed.

End DifflibTermination.

Section DifflibFacts.

Import Difflib.

(** The block [find_longest_match] returns lies in [a[alo:ahi]]. *)
Lemma find_longest_match_within (a b : list ascii) (alo ahi blo bhi : nat) :
  (alo <= ahi)%nat ->
  block_within alo ahi (find_longest_match a b alo ahi blo bhi).
Proof.
  intros Hle. unfold find_longest_match.
  assert (Hrows : block_within alo ahi
                    (rows a b blo bhi (ahi - alo) alo ∅ (alo, blo, 0%nat))).
  { replace ahi with (alo + (ahi - alo))%nat at 1 by lia.
    apply rows_inv; [lia | | simpl; lia].
    intros j v. rewrite lookup_empty. discriminate. }
  destruct (rows a b blo bhi (ahi - alo) alo ∅ (alo, blo, 0%nat))
    as [[besti bestj] bestsize].
  pose proof (extend_left_inv a b alo blo ahi besti bestj bestsize Hrows)
    as Hleft.
  destruct (extend_left a b alo blo besti bestj bestsize)
    as [[besti' bestj'] bestsize'].
  destruct Hleft as [Hlo Hhi].
  split; [exact Hlo |].
  now apply extend_right_inv.
Qed.

Lemma matches_unfold (f : nat) (a b : list ascii) (alo ahi blo bhi : nat) :
  matches (S f) a b alo ahi blo bhi
  = let '(i, j, k) := find_longest_match a b alo ahi blo bhi in
    if (k =? 0)%nat then Some 0%nat
    else
      match
        (if (alo <? i)%nat && (blo <? j)%nat
         then matches f a b alo i blo j else Some 0%nat),
        (if (i + k <? ahi)%nat && (j + k <? bhi)%nat
         then matches f a b (i + k) ahi (j + k) bhi else Some 0%nat)
      with
      | Some l, Some r => Some (k + l + r)%nat
      | _, _ => None
      end.
Proof. reflexivity. Qed.

(** The regions searched get shorter in [a]: with more fuel than
    [ahi - alo] the search for matching blocks ends. *)
Lemma matches_terminates (a b : list ascii) (fuel : nat) :
  forall alo ahi blo bhi,
    (alo <= ahi)%nat -> (ahi - alo < fuel)%nat ->
    exists m, matches fuel a b alo ahi blo bhi = Some m.
Proof.
  induction fuel as [| f IH]; intros alo ahi blo bhi Hle Hfuel; [lia |].
  rewrite matches_unfold.
  pose proof (find_longest_match_within a b alo ahi blo bhi Hle) as Hin.
  destruct (find_longest_match a b alo ahi blo bhi) as [[i j] k].
  destruct Hin as [Hlo Hhi].
  destruct (k =? 0)%nat eqn:Hk; [eauto |].
  apply Nat.eqb_neq in Hk.
  assert (Hl : exists l,
             (if (alo <? i)%nat && (blo <? j)%nat
              then matches f a b alo i blo j else Some 0%nat) = Some l).
  { destruct ((alo <? i)%nat && (blo <? j)%nat); [| eauto].
    apply IH; lia. }
  assert (Hr : exists r,
             (if (i + k <? ahi)%nat && (j + k <? bhi)%nat
              then matches f a b (i + k) ahi (j + k) bhi else Some 0%nat)
             = Some r).
  { destruct ((i + k <? ahi)%nat && (j + k <? bhi)%nat); [| eauto].
    apply IH; lia. }
  destruct Hl as [l ->], Hr as [r ->]. eauto.
Qed.

Lemma ratio_returns (a b : list ascii) : exists r, ratio a b = Some r.
Proof.
  unfold ratio.
  destruct (matches_terminates a b (S (length a)) 0 (length a) 0 (length b))
    as [m ->]; [lia | lia | eauto].
Qed.

Lemma scored_returns (word : list ascii) (cutoff : Q)
      (possibilities : list string) :
  exists result,
    scored word cutoff possibilities = Some result
    /\ forall p, In p result -> In (snd p) possibilities.
Proof.
  induction possibilities as [| x rest IH]; simpl.
  - exists []. split; [reflexivity | intros p []].
  - destruct IH as (tl & -> & Htl).
    destruct (Qle_bool cutoff (real_quick_ratio (list_ascii_of_string x) word)
              && Qle_bool cutoff (quick_ratio (list_ascii_of_string x) word)).
    + destruct (ratio_returns (list_ascii_of_string x) word) as [r ->].
      eexists. split; [reflexivity |].
      destruct (Qle_bool cutoff r); intros p Hp.
      * destruct Hp as [<- | Hp]; [now left | right; now apply Htl].
      * right. now apply Htl.
    + exists tl. split; [reflexivity |]. intros p Hp. right. now apply Htl.
Qed.

Lemma insert_desc_in (p q : Q * string) (l : list (Q * string)) :
  In q (insert_desc p l) -> q = p \/ In q l.
Proof.
  induction l as [| x l IH]; simpl.
  - intros [<- | []]. now left.
  - destruct (tuple_ltb p x); simpl.
    + intros [<- | H]; [right; now left |].
      destruct (IH H) as [-> | H']; [now left | right; now right].
    + intros [<- | H]; [now left | now right].
Qed.

Lemma firstn_in {A} (n : nat) (l : list A) (x : A) :
  In x (firstn n l) -> In x l.
Proof.
  revert l. induction n as [| n IH]; intros [| y l]; simpl; try tauto.
  intros [-> | H]; [now left | right; now apply IH].
Qed.

Lemma nlargest_in (n : nat) (l : list (Q * string)) (q : Q * string) :
  In q (nlargest n l) -> In q l.
Proof.
  unfold nlargest. intros H. apply firstn_in in H. revert H.
  induction l as [| x l IH]; simpl; [tauto |].
  intros H. apply insert_desc_in in H as [-> | H]; [now left | right; auto].
Qed.

(** [get_close_matches] always ends, with at most [n] words, each taken
    from [possibilities]. *)
Lemma get_close_matches_returns (word : string) (possibilities : list string)
      (n : nat) (cutoff : Q) :
  exists l,
    get_close_matches word possibilities n cutoff = Some l
    /\ (length l <= n)%nat
    /\ forall x, In x l -> In x possibilities.
Proof.
  unfold get_close_matches.
  destruct (scored_returns (list_ascii_of_string word) cutoff possibilities)
    as (result & -> & Hresult).
  eexists. split; [reflexivity | split].
  - rewrite length_map. unfold nlargest. rewrite length_firstn. lia.
  - intros x Hx. apply in_map_iff in Hx as (p & <- & Hp).
    apply Hresult. now apply nlargest_in in Hp.
Qed.

End DifflibFacts.

Section TypoInvariants.

Import TypoDetector.

Variable lower : string -> string.

(** X13: [detect_typo] always answers, and a suggestion it makes is
    "Did you mean '@d'?" for one of the ten [COMMON_EMAIL_DOMAINS] [d],
    which differs from the lowercased domain of an address with exactly
    one "@". *)
Theorem detect_typo_suggests_a_common_domain (email : string) :
  exists answer,
    detect_typo lower email = Some answer
    /\ (answer = None
        \/ exists local_part domain d,
             split "@" email = [local_part; domain]
             /\ In d COMMON_EMAIL_DOMAINS
             /\ d <> lower domain
             /\ answer = Some ("Did you mean '@" +:+ d +:+ "'?")).
Proof.
  unfold detect_typo.
  destruct (split "@" email) as [| local_part [| domain [| x rest]]];
    try (exists None; split; [reflexivity | now left]).
  destruct (get_close_matches_returns
              (lower domain) COMMON_EMAIL_DOMAINS 1 0.8%Q)
    as (l & -> & _ & Hin).
  destruct l as [| m l]; [exists None; split; [reflexivity | now left] |].
  destruct (String.eqb_spec m (lower domain)) as [Heq | Hne]; simpl.
  - exists None. split; [reflexivity | now left].
  - eexists. split; [reflexivity |]. right.
    exists local_part, domain, m.
    repeat split; [apply Hin; now left | exact Hne].
Qed.

End TypoInvariants.

(** ** domain_reputation_checker.py: the two kinds of answer *)

Section ReputationInvariants.

Import DomainReputationChecker.
Local Open Scope Q_scope.

Variable w : World.

(** X14: a domain whose WHOIS record has no creation date is always
    rated worst.  [_check_domain_age] then falls off its end and returns
    [None], the weighted sum fails on it, and [check_reputation] answers
    with its fallback: score 100, risk level "high", no details,
    whatever the four other checks found. *)
Theorem check_reputation_without_creation_date (domain : string) :
  whois_age_days w domain = Ret None ->
  _check_domain_age w domain = None
  /\ exists message,
       check_reputation w domain
       = Ret {| score := 100; risk_level := "high"; details := None;
                error := message |}.
Proof.
  intros Hwhois.
  assert (Hage : _check_domain_age w domain = None)
    by (unfold _check_domain_age; now rewrite Hwhois).
  split; [exact Hage |].
  unfold check_reputation, check_reputation_try.
  rewrite try_except_Exception, Hage.
  destruct (_check_blacklists w domain); simpl; eauto.
Qed.

(** X15: [check_reputation] never raises, and its answer is of one of
    two kinds: with details, the score is the weighted sum, between 0
    and 92.5 (the web-presence score never exceeds 50), and the error
    text is empty; without details it is the fallback score 100 with
    risk level "high".  So a score of 100 always tells that a check
    failed. *)
Theorem check_reputation_never_raises (domain : string) :
  exists r,
    check_reputation w domain = Ret r
    /\ match details r with
       | Some _ =>
           0 <= score r <= 92.5
           /\ risk_level r = risk_of (score r)
           /\ error r = ""%string
       | None => score r = 100 /\ risk_level r = "high"%string
       end.
Proof.
  unfold check_reputation. rewrite try_except_Exception.
  destruct (check_reputation_try w domain) as [r | e] eqn:Htry.
  - exists r. split; [reflexivity |].
    unfold check_reputation_try in Htry.
    destruct (_check_blacklists w domain) as [bl |] eqn:Hbl;
      simpl in Htry; [| discriminate].
    destruct (_check_domain_age w domain) as [age |] eqn:Hage;
      simpl in Htry; [| discriminate].
    inversion Htry; subst r; clear Htry. simpl.
    pose proof (domain_age_bounds w domain age Hage).
    pose proof (blacklists_bounds w domain bl Hbl).
    pose proof (ssl_bounds w domain).
    pose proof (web_presence_bounds w domain).
    pose proof (mail_config_bounds w domain).
    unfold W_domain_age, W_blacklist_status, W_ssl_status, W_web_presence,
      W_mail_config.
    repeat split; lra.
  - eexists. split; [reflexivity |]. simpl. split; reflexivity.
Qed.

End ReputationInvariants.

Lemma check_reputation_without_creation_date_witness :
  exists message,
    DomainReputationChecker.check_reputation
      Scenarios.no_creation_date_world "example.com"
    = Ret {| DomainReputationChecker.score := 100;
             DomainReputationChecker.risk_level := "high";
             DomainReputationChecker.details := None;
             DomainReputationChecker.error := message |}.
Proof.
  exact (proj2 (check_reputation_without_creation_date
                  Scenarios.no_creation_date_world "example.com" eq_refl)).
Defined.

(** ** batch_validator.py and batch_processing.py: callers of [validate_email] *)

Section BatchValidatorFacts.

Import ValidationOrchestrator.

Variable env : Env.

Lemma batch_items_emails (batch : list string) :
  map BatchValidator.item_email (BatchValidator.batch_items env batch) = batch.
Proof.
  unfold BatchValidator.batch_items.
  induction batch as [| e batch IH]; [reflexivity |].
  cbn [map combine]. f_equal; [| exact IH].
  destruct (fst (validate_email env e)) as [r |] eqn:Hrun; [| reflexivity].
  simpl. now apply (validate_email_keeps_email env).
Qed.

(** The slices taken at the starts of [range(i, len(l), step)] make up
    [l[i:]]. *)
Lemma slices_cover {A} (l : list A) (step : Z) (fuel : nat) :
  (0 < step)%Z ->
  forall i : Z,
    (0 <= i)%Z ->
    (Z.of_nat (length l) - i <= Z.of_nat fuel)%Z ->
    flat_map (fun i => BatchValidator.slice l i (i + step)%Z)
             (BatchValidator.range_up fuel i (Z.of_nat (length l)) step)
    = skipn (Z.to_nat i) l.
Proof.
  intros Hstep.
  induction fuel as [| f IH]; intros i Hi Hfuel; simpl.
  - symmetry. apply skipn_all2. lia.
  - destruct (i <? Z.of_nat (length l))%Z eqn:Hlt.
    + apply Z.ltb_lt in Hlt. simpl.
      rewrite IH by lia.
      unfold BatchValidator.slice.
      replace (Z.to_nat (i + step)) with (Z.to_nat (i + step - i) + Z.to_nat i)%nat
        by lia.
      rewrite <- skipn_skipn. apply firstn_skipn.
    + apply Z.ltb_ge in Hlt. symmetry. apply skipn_all2. lia.
Qed.

(** X16: with a positive batch size, [validate_emails_batch] of
    [batch_validator] returns one entry per input address, in the order
    of the input, whatever the batch size and whether the single
    validations return or raise. *)
Theorem batch_validator_keeps_order (emails : list string) (batch_size : Z) :
  (0 < batch_size)%Z ->
  exists results,
    BatchValidator.validate_emails_batch env emails batch_size = Ret results
    /\ map BatchValidator.item_email results = emails
    /\ length results = length emails.
Proof.
  intros Hsize.
  unfold BatchValidator.validate_emails_batch, BatchValidator.py_range.
  destruct (batch_size =? 0)%Z eqn:H0; [apply Z.eqb_eq in H0; lia |].
  destruct (0 <? batch_size)%Z eqn:Hpos; [| apply Z.ltb_ge in Hpos; lia].
  simpl. eexists. split; [reflexivity |].
  assert (Hemails :
            map BatchValidator.item_email
              (flat_map
                 (fun i => BatchValidator.batch_items env
                             (BatchValidator.slice emails i (i + batch_size)%Z))
                 (BatchValidator.range_up
                    (Z.to_nat (Z.of_nat (length emails) - 0)) 0
                    (Z.of_nat (length emails)) batch_size))
            = emails).
  { rewrite flat_map_concat_map, concat_map, map_map.
    erewrite map_ext by (intros i; apply batch_items_emails).
    rewrite <- flat_map_concat_map.
    rewrite slices_cover by lia. reflexivity. }
  split; [exact Hemails |].
  apply (f_equal (@length string)) in Hemails.
  now rewrite length_map in Hemails.
Qed.

(** X17: a batch size that is not positive loses the input: with 0 the
    call raises [ValidationError] ("range() arg 3 must not be zero"),
    the empty input included, and with a negative size it returns the
    empty list for every input, validating nothing. *)
Theorem batch_validator_nonpositive_size (emails : list string) (batch_size : Z) :
  (batch_size <= 0)%Z ->
  BatchValidator.validate_emails_batch env emails batch_size
  = if (batch_size =? 0)%Z then
      Raise (mk_exn ValidationError
               "Batch validation failed: range() arg 3 must not be zero")
    else Ret [].
Proof.
  intros Hsize.
  unfold BatchValidator.validate_emails_batch, BatchValidator.py_range.
  destruct (batch_size =? 0)%Z eqn:H0; [reflexivity |].
  apply Z.eqb_neq in H0.
  destruct (0 <? batch_size)%Z eqn:Hpos; [apply Z.ltb_lt in Hpos; lia |].
  replace (Z.to_nat (0 - Z.of_nat (length emails))) with 0%nat by lia.
  reflexivity.
Qed.

End BatchValidatorFacts.

Lemma batch_validator_keeps_order_witness :
  exists results,
    BatchValidator.validate_emails_batch
      Scenarios.healthy_env_with_logger
      [ "user@example.com"; "not-an-email"; "other@example.com" ] 2
    = Ret results
    /\ map BatchValidator.item_email results
       = [ "user@example.com"; "not-an-email"; "other@example.com" ].
Proof.
  destruct (batch_validator_keeps_order
              Scenarios.healthy_env_with_logger
              [ "user@example.com"; "not-an-email"; "other@example.com" ] 2
              ltac:(lia))
    as (results & Hrun & Hemails & _).
  exists results. split; [exact Hrun | exact Hemails].
Defined.

Lemma batch_validator_nonpositive_size_witness :
  BatchValidator.validate_emails_batch
    Scenarios.healthy_env [ "user@example.com" ] (-1) = Ret [].
Proof.
  exact (batch_validator_nonpositive_size
           Scenarios.healthy_env [ "user@example.com" ] (-1) ltac:(lia)).
Defined.

Section BatchProcessingFacts.

Import ValidationOrchestrator BatchProcessing.

Variable env : Env.

Lemma process_email_batch_entries (batch : list string) :
  process_email_batch env batch = map (entry_of env) batch.
Proof.
  unfold process_email_batch, entry_of.
  induction batch as [| e batch IH]; [reflexivity |].
  cbn [map combine]. rewrite <- IH.
  now destruct (fst (validate_email env e)).
Qed.

(** X18: [process_email_batch] returns one entry per address of the
    batch, at the address's position: the entry of an address whose
    validation returned is that result, which carries the address, and
    the entry of one whose validation raised is the error dictionary
    built for that address. *)
Theorem process_email_batch_keeps_positions (batch : list string) :
  length (process_email_batch env batch) = length batch
  /\ map item_email (process_email_batch env batch) = batch
  /\ forall i e,
       nth_error batch i = Some e ->
       nth_error (process_email_batch env batch) i
       = Some (match fst (validate_email env e) with
               | Ret r => Validated r
               | Raise x => Errored e (exn_str x)
               end).
Proof.
  rewrite process_email_batch_entries.
  split; [apply length_map | split].
  - induction batch as [| e batch IH]; [reflexivity |].
    cbn [map]. f_equal; [| exact IH].
    unfold entry_of.
    destruct (fst (validate_email env e)) as [r |] eqn:Hrun; [| reflexivity].
    simpl. now apply (validate_email_keeps_email env).
  - intros i e Hnth. now rewrite nth_error_map, Hnth.
Qed.

Lemma count_if_partition (cond : gmap string pyval -> bool)
      (results : list (gmap string pyval)) :
  (count_if cond results + count_if (fun r => negb (cond r)) results
   = Z.of_nat (length results))%Z.
Proof.
  unfold count_if.
  induction results as [| r results IH]; [reflexivity |].
  simpl. destruct (cond r); simpl length; lia.
Qed.

Lemma count_if_le (p q : gmap string pyval -> bool)
      (results : list (gmap string pyval)) :
  (forall r, In r results -> p r = true -> q r = true) ->
  (count_if p results <= count_if q results)%Z.
Proof.
  unfold count_if.
  induction results as [| r results IH]; intros Himp; [simpl; lia |].
  assert (IH' := IH (fun x Hx => Himp x (or_intror Hx))).
  pose proof (Himp r (or_introl eq_refl)) as Hr.
  simpl. destruct (p r).
  - rewrite (Hr eq_refl). simpl length. lia.
  - destruct (q r); simpl length; lia.
Qed.

Lemma entry_status (e : string) :
  eq_str (get_or (item_dict (entry_of env e)) "status" VNone) "Error"
  = negb (returns (fst (validate_email env e))).
Proof.
  unfold entry_of.
  destruct (fst (validate_email env e)) as [r | x]; [| reflexivity].
  unfold get_or, item_dict, results_dict. simplify_map_eq. reflexivity.
Qed.

Lemma entry_is_valid (e : string) :
  truthy (get_or (item_dict (entry_of env e)) "is_valid" (VBool false))
  = match fst (validate_email env e) with
    | Ret r => truthy (is_valid r)
    | Raise _ => false
    end.
Proof.
  unfold entry_of.
  destruct (fst (validate_email env e)) as [r | x]; [| reflexivity].
  unfold get_or, item_dict, results_dict. simplify_map_eq. reflexivity.
Qed.

(** X19: the summary [generate_batch_summary] gives of a batch
    processed by [process_email_batch]: [total] is the size of the
    batch, every address counts as either valid or invalid, [errors] is
    the number of addresses whose validation raised, and each of these
    is among the invalid ones. *)
Theorem batch_summary_of_processed_batch (batch : list string) :
  let summary :=
    generate_batch_summary (map item_dict (process_email_batch env batch)) in
  total summary = Z.of_nat (length batch)
  /\ (valid summary + invalid summary = total summary)%Z
  /\ errors summary
     = Z.of_nat (length (List.filter
                           (fun e => negb (returns (fst (validate_email env e))))
                           batch))
  /\ (errors summary <= invalid summary)%Z.
Proof.
  rewrite process_email_batch_entries. cbn zeta.
  unfold generate_batch_summary. cbn [total valid invalid errors].
  split; [now rewrite !length_map | split; [apply count_if_partition | split]].
  - unfold count_if. f_equal.
    induction batch as [| e batch IH]; [reflexivity |].
    cbn [map List.filter]. rewrite entry_status.
    destruct (negb (returns (fst (validate_email env e)))); simpl; lia.
  - apply count_if_le. intros r Hin Herr.
    apply in_map_iff in Hin as (item & <- & Hin).
    apply in_map_iff in Hin as (e & <- & _).
    rewrite entry_status in Herr. rewrite entry_is_valid.
    now destruct (fst (validate_email env e)).
Qed.

End BatchProcessingFacts.

Lemma process_email_batch_keeps_positions_witness :
  nth_error
    (BatchProcessing.process_email_batch
       Scenarios.healthy_env [ "user@example.com"; "not-an-email" ]) 1
  = Some (ValidationOrchestrator.Errored
            "not-an-email" "name 'logger' is not defined").
Proof.
  exact (proj2 (proj2 (process_email_batch_keeps_positions
                         Scenarios.healthy_env
                         [ "user@example.com"; "not-an-email" ]))
               1%nat "not-an-email" eq_refl).
Defined.

(** ** sqlite_cache.py, cache_manager.py and domain_reputation.py *)

Section CacheFacts.

Import SqliteCache.

Lemma cleanup_lookup (now : Z) (t : Table) (key : string) :
  filter (fun kv : string * Row => (now <= expiry kv.2)%Z) t !! key
  = match t !! key with
    | Some row => if (now <=? expiry row)%Z then Some row else None
    | None => None
    end.
Proof.
  destruct (t !! key) as [row |] eqn:E.
  - destruct (Z.leb_spec now (expiry row)) as [Hle | Hgt].
    + apply map_lookup_filter_Some. split; [exact E | exact Hle].
    + apply map_lookup_filter_None. right. intros x Hx.
      rewrite E in Hx. injection Hx as <-. simpl. lia.
  - apply map_lookup_filter_None. left. exact E.
Qed.

(** What [get_cache] answers on a usable database. *)
Lemma get_cache_answer (key : string) (now_cleanup now : Z) (t : Table) :
  fst (CacheManager.get_cache (Ret tt) key now_cleanup now t)
  = match t !! key with
    | Some row =>
        if (now_cleanup <=? expiry row)%Z && (now <=? expiry row)%Z
        then value row else VNone
    | None => VNone
    end.
Proof.
  unfold CacheManager.get_cache, get_cache, _cleanup_expired. cbn [fst].
  rewrite cleanup_lookup.
  destruct (t !! key) as [row |]; [| reflexivity].
  destruct (now_cleanup <=? expiry row)%Z; reflexivity.
Qed.

(** X20: on a usable database, with a value that JSON can carry and an
    expiry and clock readings that fit SQLite's integers, [set_cache]
    returns [True], and the value stored at second [stored] is what
    [get_cache] answers for its key up to and including second
    [stored + expire], and [None] is answered from then on; the entries
    of the other keys are answered as before. *)
Theorem cache_round_trip
  (key : string) (v : pyval) (expire stored now_cleanup now : Z) (t : Table) :
  json_value 100 v ->
  sqlite_integer (stored + expire) = true ->
  sqlite_integer now_cleanup = true ->
  sqlite_integer now = true ->
  (now_cleanup <= now)%Z ->
  let t' := snd (CacheManager.set_cache (Ret tt) key v expire stored t) in
  fst (CacheManager.set_cache (Ret tt) key v expire stored t) = true
  /\ fst (CacheManager.get_cache (Ret tt) key now_cleanup now t')
     = (if (now <=? stored + expire)%Z then v else VNone)
  /\ forall other,
       other <> key ->
       fst (CacheManager.get_cache (Ret tt) other now_cleanup now t')
       = fst (CacheManager.get_cache (Ret tt) other now_cleanup now t).
Proof.
  intros _ _ _ _ Hclock t'. subst t'.
  unfold CacheManager.set_cache, set_cache. cbn [fst snd].
  split; [reflexivity | split].
  - rewrite get_cache_answer, lookup_insert_eq. cbn [expiry value].
    destruct (Z.leb_spec now (stored + expire)) as [Hle | Hgt].
    + replace (now_cleanup <=? stored + expire)%Z with true
        by (symmetry; apply Z.leb_le; lia).
      reflexivity.
    + now rewrite andb_false_r.
  - intros other Hother.
    rewrite !get_cache_answer, lookup_insert_ne by congruence. reflexivity.
Qed.

End CacheFacts.

Section DomainReputationFacts.

Import SqliteCache DomainReputation.

Variable DOMAIN_REPUTATION_API_URL : string.

Lemma get_cache_miss (key : string) (now_cleanup now : Z) (t : Table) :
  t !! key = None ->
  CacheManager.get_cache (Ret tt) key now_cleanup now t
  = (VNone, filter (fun kv : string * Row => (now_cleanup <= expiry kv.2)%Z) t).
Proof.
  intros Hmiss.
  unfold CacheManager.get_cache, get_cache, _cleanup_expired.
  now rewrite cleanup_lookup, Hmiss.
Qed.

(** X21: a score obtained from the API is served from the cache for the
    next hour.  When no entry is cached for the domain and the API
    answers 200 with a JSON object, [get_domain_reputation] returns the
    object's ["reputation_score"] (50 when absent); a second call within
    3600 seconds of the storing returns the same score whatever the API
    would answer then, even if it is unreachable. *)
Theorem reputation_is_served_from_cache
  (requests_get : string -> outcome DisposableEmailDetector.Response)
  (domain : string) (response : DisposableEmailDetector.Response)
  (data : gmap string pyval)
  (now_cleanup now_select stored : Z) (t : Table) :
  t !! cache_key domain = None ->
  requests_get (lookup_url DOMAIN_REPUTATION_API_URL domain) = Ret response ->
  DisposableEmailDetector.status_code response = 200%Z ->
  DisposableEmailDetector.json response = Ret (VDict data) ->
  let score := default (VInt 50) (data !! "reputation_score") in
  let first_call :=
    get_domain_reputation DOMAIN_REPUTATION_API_URL requests_get (Ret tt)
                          domain now_cleanup now_select stored t in
  fst first_call = Ret score
  /\ forall requests_get' later_cleanup later_select later_set,
       (later_cleanup <= later_select <= stored + 3600)%Z ->
       fst (get_domain_reputation
              DOMAIN_REPUTATION_API_URL requests_get' (Ret tt)
              domain later_cleanup later_select later_set (snd first_call))
       = Ret score.
Proof.
  intros Hmiss Hget Hstatus Hjson score first_call.
  assert (Hfirst :
            first_call
            = (Ret score,
               <[ cache_key domain :=
                    {| value := VDict {[ "reputation_score" := score ]};
                       expiry := (stored + 3600)%Z |} ]>
                 (filter (fun kv : string * Row =>
                            (now_cleanup <= expiry kv.2)%Z) t))).
  { subst first_call. unfold get_domain_reputation.
    rewrite (get_cache_miss _ _ _ _ Hmiss). cbn [is_none negb].
    unfold fetch. rewrite Hget, Hstatus, Hjson. reflexivity. }
  rewrite Hfirst. cbn [fst snd]. split; [reflexivity |].
  intros requests_get' later_cleanup later_select later_set Hclock.
  unfold get_domain_reputation.
  destruct (CacheManager.get_cache (Ret tt) (cache_key domain)
              later_cleanup later_select _) as [cached t'] eqn:Hcached.
  apply (f_equal fst) in Hcached. cbn [fst] in Hcached.
  rewrite get_cache_answer, lookup_insert_eq in Hcached.
  cbn [expiry value] in Hcached.
  replace (later_cleanup <=? stored + 3600)%Z with true in Hcached
    by (symmetry; apply Z.leb_le; lia).
  replace (later_select <=? stored + 3600)%Z with true in Hcached
    by (symmetry; apply Z.leb_le; lia).
  subst cached. cbn [andb is_none negb fst].
  unfold RiskScore.index, getitem. now rewrite lookup_singleton_eq.
Qed.

(** X22: a failed lookup is answered with the neutral score 50 and is
    not cached.  When no entry is cached for the domain and
    [requests.get] raises one of the [requests] exceptions or the API
    answers with a status other than 200, [get_domain_reputation]
    returns 50 and leaves the domain without a cache entry, so the next
    call asks the API again. *)
Theorem reputation_neutral_on_failed_lookup
  (requests_get : string -> outcome DisposableEmailDetector.Response)
  (domain : string) (now_cleanup now_select now_set : Z) (t : Table) :
  t !! cache_key domain = None ->
  DisposableEmailDetector.lookup_failed
    (requests_get (lookup_url DOMAIN_REPUTATION_API_URL domain)) ->
  fst (get_domain_reputation DOMAIN_REPUTATION_API_URL requests_get (Ret tt)
                             domain now_cleanup now_select now_set t)
  = Ret (VInt 50)
  /\ snd (get_domain_reputation DOMAIN_REPUTATION_API_URL requests_get (Ret tt)
                                domain now_cleanup now_select now_set t)
     !! cache_key domain = None.
Proof.
  intros Hmiss Hfailed.
  unfold get_domain_reputation.
  rewrite (get_cache_miss _ _ _ _ Hmiss). cbn [is_none negb].
  assert (Hclean :
            filter (fun kv : string * Row => (now_cleanup <= expiry kv.2)%Z) t
            !! cache_key domain = None)
    by (now rewrite cleanup_lookup, Hmiss).
  unfold fetch, DisposableEmailDetector.lookup_failed in *.
  destruct (requests_get (lookup_url DOMAIN_REPUTATION_API_URL domain))
    as [response | e].
  - apply Z.eqb_neq in Hfailed. rewrite Hfailed. now split.
  - rewrite Hfailed. now split.
Qed.

End DomainReputationFacts.

Lemma cache_round_trip_witness :
  fst (CacheManager.get_cache
         (Ret tt) "dns:example.com:mx" 1500 2000
         (snd (CacheManager.set_cache
                 (Ret tt) "dns:example.com:mx" (VInt 1) 3600 1000 ∅)))
  = VInt 1.
Proof.
  exact (proj1 (proj2 (cache_round_trip
                         "dns:example.com:mx" (VInt 1) 3600 1000 1500 2000 ∅
                         (SqliteCache.json_int 100 1 eq_refl) eq_refl eq_refl eq_refl
                         ltac:(lia)))).
Defined.

Lemma reputation_is_served_from_cache_witness :
  fst (DomainReputation.get_domain_reputation
         Scenarios.reputation_api_url Scenarios.reputation_api_down (Ret tt)
         "example.com" 2000 2000 2000
         (snd (DomainReputation.get_domain_reputation
                 Scenarios.reputation_api_url Scenarios.reputation_api_80
                 (Ret tt) "example.com" 0 0 1000 ∅)))
  = Ret (VInt 80).
Proof.
  apply (proj2 (reputation_is_served_from_cache
                  Scenarios.reputation_api_url Scenarios.reputation_api_80
                  "example.com" _ {[ "reputation_score" := VInt 80 ]}
                  0 0 1000 ∅ (lookup_empty _) eq_refl eq_refl eq_refl)
               Scenarios.reputation_api_down 2000%Z 2000%Z 2000%Z).
  lia.
Defined.

Lemma reputation_neutral_on_failed_lookup_witness :
  fst (DomainReputation.get_domain_reputation
         Scenarios.reputation_api_url Scenarios.reputation_api_down (Ret tt)
         "example.com" 0 0 0 ∅)
  = Ret (VInt 50).
Proof.
  exact (proj1 (reputation_neutral_on_failed_lookup
                  Scenarios.reputation_api_url Scenarios.reputation_api_down
                  "example.com" 0 0 0 ∅ (lookup_empty _) eq_refl)).
Defined.

(** ** email_dns_validator.py: the per-domain rate limit *)

Section RateLimitFacts.

Import EmailDnsValidator.

Variables limit window : Z.
Variable domain : string.

Lemma filter_recent_later (now later : Z) (l : list Z) :
  (now <= later)%Z ->
  List.filter (recent window later) (List.filter (recent window now) l)
  = List.filter (recent window later) l.
Proof.
  intros Hle. induction l as [| t l IH]; [reflexivity |].
  simpl. destruct (recent window now t) eqn:Hnow; simpl.
  - now rewrite IH.
  - rewrite IH.
    replace (recent window later t) with false; [reflexivity |].
    symmetry. unfold recent in *.
    apply Z.ltb_ge in Hnow. apply Z.ltb_ge. lia.
Qed.

(** One check: a check of another domain, or one that is refused,
    leaves what is tracked for [domain]; a check of [domain] that is let
    through found fewer than [limit] recent ones, and is tracked. *)
Lemma check_rate_limit_step (last_check : LastCheck) (history : list Z)
      (now : Z) (d : string) :
  (1 <= limit)%Z ->
  tracks window domain last_check history ->
  Forall (fun t => (t <= now)%Z) history ->
  if String.eqb d domain
     && negb (fst (_check_rate_limit last_check now d limit window))
  then
    tracks window domain
           (snd (_check_rate_limit last_check now d limit window))
           (history ++ [now])%list
    /\ (Z.of_nat (length (List.filter (recent window now) history)) < limit)%Z
  else
    tracks window domain
           (snd (_check_rate_limit last_check now d limit window)) history.
Proof.
  intros Hlimit Htracks Hpast.
  unfold _check_rate_limit.
  destruct (String.eqb_spec d domain) as [-> | Hother]; cbn [andb].
  - unfold tracks in Htracks.
    destruct (last_check !! domain) as [checks |] eqn:Hentry.
    + fold (recent window now).
      pose proof (Htracks now Hpast) as Hkept.
      destruct (limit <=? Z.of_nat (length (List.filter (recent window now) checks)))%Z
        eqn:Hfull; cbn [fst snd negb].
      * unfold tracks. now rewrite Hentry.
      * apply Z.leb_gt in Hfull. rewrite Hkept in Hfull.
        split; [| exact Hfull].
        unfold tracks. rewrite lookup_insert_eq.
        intros later Hlater.
        apply Forall_app in Hlater as [Hhistory Hnow].
        assert (now <= later)%Z by now inversion Hnow.
        rewrite !List.filter_app, filter_recent_later by assumption.
        now rewrite (Htracks later Hhistory).
    + cbn [fst snd negb]. subst history.
      split; [| simpl; lia].
      unfold tracks. now rewrite lookup_insert_eq.
  - assert (Hsame :
              snd (match last_check !! d with
                   | Some checks =>
                       if (limit <=? Z.of_nat
                             (length (List.filter
                                        (fun t => (now - t <? timedelta_seconds window)%Z)
                                        checks)))%Z
                       then (true, last_check)
                       else (false,
                             <[ d := (List.filter
                                        (fun t => (now - t <? timedelta_seconds window)%Z)
                                        checks ++ [now])%list ]> last_check)
                   | None => (false, <[ d := [now] ]> last_check)
                   end) !! domain
              = last_check !! domain).
    { destruct (last_check !! d) as [checks |];
        [destruct (_ <=? _)%Z |]; cbn [snd];
        rewrite ?lookup_insert_ne by exact Hother; reflexivity. }
    unfold tracks in *. now rewrite Hsame.
Qed.

Lemma check_all_window (calls : list (Z * string)) :
  forall (last_check : LastCheck) (history : list Z),
    (1 <= limit)%Z ->
    tracks window domain last_check history ->
    StronglySorted Z.le (map fst calls) ->
    Forall (fun t => Forall (Z.le t) (map fst calls)) history ->
    forall before now after,
      (history
       ++ let_through domain (fst (check_all limit window last_check calls)))%list
      = (before ++ now :: after)%list ->
      (length history <= length before)%nat ->
      (Z.of_nat (length (List.filter (recent window now) before)) < limit)%Z.
Proof.
  induction calls as [| [now d] rest IH];
    intros last_check history Hlimit Htracks Hsorted Hbound
           before at_ after Hsplit Hlen.
  - simpl in Hsplit. rewrite app_nil_r in Hsplit.
    apply (f_equal (@length Z)) in Hsplit.
    rewrite length_app in Hsplit. simpl in Hsplit. lia.
  - simpl in Hsorted. apply StronglySorted_inv in Hsorted as [Hsorted Hnow].
    assert (Hrest : Forall (fun t => Forall (Z.le t) (map fst rest)) history).
    { eapply List.Forall_impl; [| exact Hbound].
      intros t Ht. simpl in Ht. now inversion Ht. }
    assert (Hpast : Forall (fun t => (t <= now)%Z) history).
    { eapply List.Forall_impl; [| exact Hbound].
      intros t Ht. simpl in Ht. now inversion Ht. }
    pose proof (check_rate_limit_step last_check history now d
                                      Hlimit Htracks Hpast) as Hstep.
    cbn [check_all] in Hsplit.
    destruct (_check_rate_limit last_check now d limit window)
      as [exceeded last_check'].
    cbn [fst snd] in Hstep.
    specialize (IH last_check').
    destruct (check_all limit window last_check' rest) as [log final].
    cbn [fst] in Hsplit, IH.
    unfold let_through in Hsplit. cbn [List.filter] in Hsplit.
    fold (let_through domain log) in Hsplit.
    destruct (String.eqb d domain && negb exceeded).
    + destruct Hstep as [Htracks' Hroom]. cbn [map] in Hsplit.
      destruct (decide (length before = length history)) as [Heq | Hne].
      * apply app_inj_1 in Hsplit as [<- Htail]; [| now symmetry].
        injection Htail as <- _. exact Hroom.
      * apply (IH (history ++ [now])%list Hlimit Htracks' Hsorted)
          with (after := after).
        -- apply Forall_app. split; [exact Hrest |].
           constructor; [exact Hnow | constructor].
        -- now rewrite <- app_assoc.
        -- rewrite length_app. simpl. lia.
    + now apply (IH history Hlimit Hstep Hsorted Hrest) with (after := after).
Qed.

(** X23: the rate limit holds over any sequence of checks made on a
    fresh validator with a clock that does not run backwards: whenever a
    check of a domain is let through, fewer than [limit] of the earlier
    checks of that domain that were let through lie less than [window]
    seconds back.  So no span of [window] seconds ending at an admitted
    check holds more than [limit] admitted checks of the domain. *)
Theorem check_rate_limit_bounds_window
  (calls : list (Z * string)) (before : list Z) (now : Z) (after : list Z) :
  (1 <= limit)%Z ->
  StronglySorted Z.le (map fst calls) ->
  let_through domain (fst (check_all limit window ∅ calls))
  = (before ++ now :: after)%list ->
  (Z.of_nat (length (List.filter (recent window now) before)) < limit)%Z.
Proof.
  intros Hlimit Hsorted Hsplit.
  apply (check_all_window calls ∅ [] Hlimit) with (after := after).
  - unfold tracks. now rewrite lookup_empty.
  - exact Hsorted.
  - constructor.
  - exact Hsplit.
  - simpl. lia.
Qed.

End RateLimitFacts.

Lemma check_rate_limit_bounds_window_witness :
  EmailDnsValidator.let_through
    "example.com"
    (fst (EmailDnsValidator.check_all
            2 60 ∅
            [ (0%Z, "example.com"); (1000000%Z, "example.com");
              (2000000%Z, "example.com"); (61000000%Z, "example.com") ]))
  = [ 0%Z; 1000000%Z; 61000000%Z ]
  /\ (Z.of_nat (length (List.filter (EmailDnsValidator.recent 60 61000000)
                                    [ 0%Z; 1000000%Z ])) < 2)%Z.
Proof.
  split; [vm_compute; reflexivity |].
  apply (check_rate_limit_bounds_window
           2 60 "example.com"
           [ (0%Z, "example.com"); (1000000%Z, "example.com");
             (2000000%Z, "example.com"); (61000000%Z, "example.com") ]
           [ 0%Z; 1000000%Z ] 61000000 []).
  - lia.
  - cbn [map fst].
    repeat match goal with
           | |- StronglySorted _ (_ :: _) => apply SSorted_cons
           | |- StronglySorted _ [] => apply SSorted_nil
           | |- Forall _ (_ :: _) => apply List.Forall_cons
           | |- Forall _ [] => apply List.Forall_nil
           end; lia.
  - vm_compute. reflexivity.
Defined.

Section ValidationScoreFacts.

Import EmailDnsValidator.

(** X24: [get_validation_score] is the sum of the weights 40, 20, 10
    and 30 of the checks ["has_mx"], ["has_a"], ["has_aaaa"] and
    ["has_ptr"] that hold in the result; it lies between 0 and 100, is
    100 exactly when all four hold, and is 0 exactly when none does.  A
    result without the keys ["has_a"] and ["has_aaaa"] scores at most
    70. *)
Theorem get_validation_score_range (result : gmap string pyval) :
  (0 <= get_validation_score result <= 100)%Z
  /\ (get_validation_score result = 100%Z
      <-> holds result "has_mx" = true /\ holds result "has_a" = true
          /\ holds result "has_aaaa" = true /\ holds result "has_ptr" = true)
  /\ (get_validation_score result = 0%Z
      <-> holds result "has_mx" = false /\ holds result "has_a" = false
          /\ holds result "has_aaaa" = false /\ holds result "has_ptr" = false)
  /\ (result !! "has_a" = None -> result !! "has_aaaa" = None ->
      (get_validation_score result <= 70)%Z).
Proof.
  unfold get_validation_score, weights, holds. cbn [fold_left].
  split; [| split; [| split]].
  - destruct (truthy _), (truthy _), (truthy _), (truthy _); lia.
  - destruct (truthy _), (truthy _), (truthy _), (truthy _);
      split; intros H; try lia; try (repeat split; reflexivity);
      try (destruct H as (? & ? & ? & ?); discriminate).
  - destruct (truthy _), (truthy _), (truthy _), (truthy _);
      split; intros H; try lia; try (repeat split; reflexivity);
      try (destruct H as (? & ? & ? & ?); discriminate).
  - intros -> ->. cbn [truthy].
    destruct (truthy _), (truthy _); lia.
Qed.

End ValidationScoreFacts.

Lemma get_validation_score_range_witness :
  (EmailDnsValidator.get_validation_score
     {[ "a_record" := VBool true; "has_mx" := VBool true;
        "has_ptr" := VBool true ]} <= 70)%Z.
Proof.
  apply (proj2 (proj2 (proj2 (get_validation_score_range
                                {[ "a_record" := VBool true;
                                   "has_mx" := VBool true;
                                   "has_ptr" := VBool true ]}))));
    vm_compute; reflexivity.
Defined.

(** ** catch_all_detector.py: the probe of the primary MX *)

Section CatchAllFacts.

Import CatchAllDetector.

Lemma sorted_by_preference_head (l : list (Z * string)) :
  match sorted_by_preference l with
  | [] => l = []
  | primary :: _ =>
      In primary l /\ forall x, In x l -> (fst primary <= fst x)%Z
  end.
Proof.
  induction l as [| x l IH]; [reflexivity |].
  simpl. destruct (sorted_by_preference l) as [| y rest].
  - subst l. simpl. split; [now left |].
    intros z [<- | []]. lia.
  - destruct IH as [Hin Hmin]. simpl.
    destruct (fst x <=? fst y)%Z eqn:Hle.
    + apply Z.leb_le in Hle. split; [now left |].
      intros z [<- | Hz]; [lia |]. specialize (Hmin z Hz). lia.
    + apply Z.leb_gt in Hle. split; [now right |].
      intros z [<- | Hz]; [lia | now apply Hmin].
Qed.

Variable resolve : string -> MxAnswer.

(** X25: [get_mx_record] returns the exchange of a record of lowest
    preference when the resolver returns records, and raises
    [SMTPVerificationError] in every other case: no answer, no such
    domain, any other failure of the resolver, and an empty list of
    records. *)
Theorem get_mx_record_primary (domain : string) :
  match resolve domain with
  | Answers ((_ :: _) as records) =>
      exists preference primary_mx,
        get_mx_record resolve domain = Ret primary_mx
        /\ In (preference, primary_mx) records
        /\ forall x, In x records -> (preference <= fst x)%Z
  | _ =>
      exists e,
        get_mx_record resolve domain = Raise e
        /\ exn_cls e = SMTPVerificationError
  end.
Proof.
  unfold get_mx_record.
  destruct (resolve domain) as [[| x records] | | | e];
    try (eexists; split; reflexivity).
  pose proof (sorted_by_preference_head (x :: records)) as Hhead.
  destruct (sorted_by_preference (x :: records)) as [| [p h] rest];
    [discriminate |].
  destruct Hhead as [Hin Hmin].
  exists p, h. split; [reflexivity | split; [exact Hin | exact Hmin]].
Qed.

Variable server : string -> string -> Probe.
Variable random_local_part : string.

Lemma isinstance_SMTPVerificationError (e : exn) :
  isinstance e SMTPVerificationError = true ->
  exn_cls e = SMTPVerificationError.
Proof.
  destruct e as [[] s]; cbv; intros H; first [reflexivity | discriminate H].
Qed.

(** X26: [is_catch_all] answers [True] only when the primary MX
    answered the RCPT for the random address with 250 (any other code
    gives [False]), and every failure on the way, from the MX lookup to
    [quit], comes out as an [SMTPVerificationError]: the detector never
    answers when it could not complete the probe. *)
Theorem is_catch_all_answers_after_probe (domain : string) :
  match is_catch_all resolve server random_local_part domain with
  | Ret answer =>
      exists mx_record reply,
        get_mx_record resolve domain = Ret mx_record
        /\ rcpt (server mx_record
                        (generate_random_email random_local_part domain))
           = Ret reply
        /\ quit (server mx_record
                        (generate_random_email random_local_part domain))
           = Ret tt
        /\ answer = (fst reply =? 250)%Z
  | Raise e => exn_cls e = SMTPVerificationError
  end.
Proof.
  unfold is_catch_all.
  destruct (get_mx_record resolve domain) as [mx_record | e] eqn:Hmx; simpl.
  - set (s := server mx_record
                     (generate_random_email random_local_part domain)).
    destruct (connect s) as [[] | e]; simpl;
      [| destruct (isinstance e SMTPVerificationError) eqn:H;
         [now apply isinstance_SMTPVerificationError | reflexivity]].
    destruct (helo s) as [[] | e]; simpl;
      [| destruct (isinstance e SMTPVerificationError) eqn:H;
         [now apply isinstance_SMTPVerificationError | reflexivity]].
    destruct (mail s) as [[] | e]; simpl;
      [| destruct (isinstance e SMTPVerificationError) eqn:H;
         [now apply isinstance_SMTPVerificationError | reflexivity]].
    destruct (rcpt s) as [reply | e] eqn:Hrcpt; simpl;
      [| destruct (isinstance e SMTPVerificationError) eqn:H;
         [now apply isinstance_SMTPVerificationError | reflexivity]].
    destruct (quit s) as [[] | e] eqn:Hquit; simpl;
      [| destruct (isinstance e SMTPVerificationError) eqn:H;
         [now apply isinstance_SMTPVerificationError | reflexivity]].
    exists mx_record, reply. repeat split; first [assumption | reflexivity].
  - destruct (isinstance e SMTPVerificationError) eqn:H;
      [now apply isinstance_SMTPVerificationError | reflexivity].
Qed.

End CatchAllFacts.

Lemma get_mx_record_primary_witness :
  exists preference primary_mx,
    CatchAllDetector.get_mx_record Scenarios.two_mx_answers "example.com"
    = Ret primary_mx
    /\ In (preference, primary_mx)
          [ (20%Z, "b.example."); (10%Z, "a.example.") ]
    /\ forall x,
         In x [ (20%Z, "b.example."); (10%Z, "a.example.") ] ->
         (preference <= fst x)%Z.
Proof.
  exact (get_mx_record_primary Scenarios.two_mx_answers "example.com").
Defined.

Example get_mx_record_of_two :
  CatchAllDetector.get_mx_record Scenarios.two_mx_answers "example.com"
  = Ret "a.example.".
Proof. reflexivity. Qed.

(** ** validation_orchestrator.py: when an address is marked valid *)

Section OrchestratorVerdict.

Import ValidationOrchestrator.

Variable env : Env.

Lemma truthy_py_and (a b : pyval) :
  truthy (py_and a b) = truthy a && truthy b.
Proof. unfold py_and. destruct (truthy a) eqn:Ha; [reflexivity | exact Ha]. Qed.

(** The additional steps either stop at a check that raises and leave
    [results["is_valid"]] alone, or all seven checks returned and the
    verdict is the [and] of the four conditions, after which the scorer
    raises. *)
Lemma additional_steps_verdict (email domain : string)
      (dns_results : gmap string pyval) (st : State) :
  let st' := snd (additional_steps env email domain dns_results st) in
  (Exists (fun c => call_returns env c = false) (post_dns_calls email domain)
   /\ is_valid (results st') = is_valid (results st))
  \/ (Forall (fun c => call_returns env c = true) (post_dns_calls email domain)
      /\ fst (additional_steps env email domain dns_results st)
         = Raise (mk_exn KeyError "'syntax_valid'")
      /\ is_disposable_email env email
         = Ret (disposable_is_disposable (checks (results st')))
      /\ spam_trap_check env email
         = Ret (spam_trap_is_trap (checks (results st')))
      /\ is_valid (results st')
         = py_and (VBool (syntax_is_valid (checks (results st))))
             (py_and (get_or_false dns_results "has_mx")
                (py_and (py_not (disposable_is_disposable (checks (results st'))))
                        (py_not (spam_trap_is_trap (checks (results st'))))))).
Proof.
  destruct st as [r cs].
  unfold additional_steps, bindM, call, modify, lift, get_results, ret.
  cbn [post_dns_calls].
  assert (Hstop : forall c,
             In c [ VerifySmtp domain; IsDisposableEmail email;
                    IsRoleAccount email; DetectTypo email;
                    GetDomainReputation domain; SpamTrapCheck email;
                    CatchAllCheck domain ] ->
             call_returns env c = false ->
             Exists (fun c => call_returns env c = false)
                    [ VerifySmtp domain; IsDisposableEmail email;
                      IsRoleAccount email; DetectTypo email;
                      GetDomainReputation domain; SpamTrapCheck email;
                      CatchAllCheck domain ]).
  { intros c Hin Hc. apply List.Exists_exists. now exists c. }
  run_steps.
  destruct (verify_smtp env domain) eqn:H1; run_steps;
    [| left; split; [apply (Hstop (VerifySmtp domain));
                     [simpl; tauto | cbn [call_returns]; now rewrite H1]
                    | reflexivity]].
  destruct (is_disposable_email env email) eqn:H2; run_steps;
    [| left; split; [apply (Hstop (IsDisposableEmail email));
                     [simpl; tauto | cbn [call_returns]; now rewrite H2]
                    | reflexivity]].
  destruct (is_role_account env email) eqn:H3; run_steps;
    [| left; split; [apply (Hstop (IsRoleAccount email));
                     [simpl; tauto | cbn [call_returns]; now rewrite H3]
                    | reflexivity]].
  destruct (detect_typo env email) as [typo |] eqn:H4; run_steps;
    [| left; split; [apply (Hstop (DetectTypo email));
                     [simpl; tauto | cbn [call_returns]; now rewrite H4]
                    | reflexivity]].
  destruct (truthy typo); run_steps;
    (destruct (get_domain_reputation env domain) eqn:H5; run_steps;
     [| left; split; [apply (Hstop (GetDomainReputation domain));
                      [simpl; tauto | cbn [call_returns]; now rewrite H5]
                     | reflexivity]]);
    (destruct (spam_trap_check env email) eqn:H6; run_steps;
     [| left; split; [apply (Hstop (SpamTrapCheck email));
                      [simpl; tauto | cbn [call_returns]; now rewrite H6]
                     | reflexivity]]);
    (destruct (catch_all_check env domain) eqn:H7; run_steps;
     [| left; split; [apply (Hstop (CatchAllCheck domain));
                      [simpl; tauto | cbn [call_returns]; now rewrite H7]
                     | reflexivity]]);
    rewrite calculate_risk_score_key_error; run_steps;
    right;
    (split;
     [repeat (constructor;
              [cbn [call_returns]; rewrite ?H1, ?H2, ?H3, ?H4, ?H5, ?H6, ?H7;
               reflexivity |]);
      constructor
     | repeat split; reflexivity]).
Qed.

(** X27: [validate_email] marks an address as valid only after every
    check has run.  If a result it returns has a truthy ["is_valid"],
    then the address passed the syntax check, the DNS check returned a
    record with a truthy ["has_mx"], all seven later checks returned,
    the disposable and spam-trap answers stored in the result are falsy,
    and the error recorded is the scorer's [KeyError]. *)
Theorem validate_email_valid_only_after_all_checks
  (email : string) (r : Results) :
  fst (validate_email env email) = Ret r ->
  truthy (is_valid r) = true ->
  SyntaxValidator.re_match email = true
  /\ (exists dns_results,
         dns_validate_domain env (extract_domain env email) = Ret dns_results
         /\ truthy (get dns_results "has_mx") = true)
  /\ Forall (fun c => call_returns env c = true)
            (post_dns_calls email (extract_domain env email))
  /\ truthy (disposable_is_disposable (checks r)) = false
  /\ truthy (spam_trap_is_trap (checks r)) = false
  /\ error r = Some "Validation error: 'syntax_valid'".
Proof.
  destruct (SyntaxValidator.re_match email) eqn:Hsyntax.
  - destruct (dns_validate_domain env (extract_domain env email))
      as [dns_results | err] eqn:Hdns.
    + destruct (truthy (get dns_results "has_mx")
                || truthy (get dns_results "has_a")) eqn:Hrecords.
      * destruct (validate_email_after_gates env email dns_results
                    Hsyntax Hdns Hrecords) as (x & Hraise & Hrun).
        rewrite Hrun.
        destruct (logger_bound env); [| discriminate].
        cbn [fst]. intros H; inversion H; subst r; clear H.
        cbn [is_valid checks error with_error].
        destruct (additional_steps_verdict
                    email (extract_domain env email) dns_results
                    (state_after_gates env email dns_results))
          as [[_ Hsame] | (Hall & Hkey & _ & _ & Hverdict)].
        -- rewrite Hsame. discriminate.
        -- rewrite Hverdict, !truthy_py_and.
           intros Hv.
           apply andb_true_iff in Hv as [_ Hv].
           apply andb_true_iff in Hv as [Hmx Hv].
           apply andb_true_iff in Hv as [Hdisp Hspam].
           apply negb_true_iff in Hdisp, Hspam.
           split; [reflexivity |].
           split; [exists dns_results; split; [reflexivity |] |].
           { revert Hmx. unfold get_or_false, get.
             now destruct (dns_results !! "has_mx"). }
           split; [exact Hall |].
           split; [exact Hdisp |].
           split; [exact Hspam |].
           rewrite Hkey in Hraise. injection Hraise as <-. reflexivity.
      * destruct (validate_email_no_mail_servers_run env email dns_results
                    Hsyntax Hdns Hrecords)
          as (r' & Hrun & Hvalid & _).
        rewrite Hrun. cbn [fst]. intros H; inversion H; subst r'.
        rewrite Hvalid. discriminate.
    + unfold validate_email, validate_email_body, syntax_validation,
        dns_validation, SyntaxValidator.validate_syntax.
      rewrite Hsyntax.
      unfold try_M, bindM, lift, modify, call, ret, set_error, get_results,
        log, unbound, raise.
      cbn. rewrite Hdns. cbn. rewrite isinstance_Exception.
      destruct (RateLimitExceeded_bound env); cbn; [| discriminate].
      destruct (isinstance err RateLimitExceeded), (isinstance err ValidationError),
        (logger_bound env); cbn; try discriminate;
        intros H; inversion H; discriminate.
  - rewrite (validate_email_on_invalid_syntax env email Hsyntax).
    destruct (logger_bound env); [| discriminate].
    simpl. intros H; inversion H. discriminate.
Qed.

(** X28: the verdict looks at three answers only.  When the address
    passes the syntax and DNS checks and all seven later checks return,
    the ["is_valid"] left in [results] is truthy exactly when ["has_mx"]
    is truthy in the DNS record and the disposable and spam-trap answers
    are falsy; what the SMTP verification, the role-account, typo,
    reputation and catch-all checks answered plays no part. *)
Theorem verdict_depends_on_three_answers
  (email : string) (dns_results : gmap string pyval)
  (is_disposable is_spam_trap : pyval) :
  SyntaxValidator.re_match email = true ->
  dns_validate_domain env (extract_domain env email) = Ret dns_results ->
  (truthy (get dns_results "has_mx") || truthy (get dns_results "has_a")) = true ->
  Forall (fun c => call_returns env c = true)
         (post_dns_calls email (extract_domain env email)) ->
  is_disposable_email env email = Ret is_disposable ->
  spam_trap_check env email = Ret is_spam_trap ->
  truthy (is_valid (results (snd (validate_email env email))))
  = truthy (get dns_results "has_mx")
    && negb (truthy is_disposable) && negb (truthy is_spam_trap).
Proof.
  intros Hsyntax Hdns Hrecords Hall Hdisp Hspam.
  destruct (validate_email_state_after_gates env email dns_results
              Hsyntax Hdns Hrecords) as (_ & _ & ->).
  destruct (additional_steps_verdict
              email (extract_domain env email) dns_results
              (state_after_gates env email dns_results))
    as [[Hstop _] | (_ & _ & Hdisp' & Hspam' & ->)].
  - exfalso. apply List.Exists_exists in Hstop as (c & Hin & Hc).
    rewrite List.Forall_forall in Hall. rewrite (Hall c Hin) in Hc.
    discriminate.
  - rewrite Hdisp in Hdisp'. injection Hdisp' as <-.
    rewrite Hspam in Hspam'. injection Hspam' as <-.
    rewrite !truthy_py_and. cbn [state_after_gates results].
    replace (truthy (get_or_false dns_results "has_mx"))
      with (truthy (get dns_results "has_mx"))
      by (unfold get_or_false, get; now destruct (dns_results !! "has_mx")).
    unfold py_not. cbn [truthy].
    change (syntax_is_valid
              (checks
                 (with_checks (set_dns dns_results)
                    (with_checks (set_syntax_is_valid true)
                                 (initial_results email)))))
      with true.
    cbn [andb]. now rewrite andb_assoc.
Qed.

End OrchestratorVerdict.

Lemma validate_email_valid_only_after_all_checks_witness :
  exists r,
    fst (ValidationOrchestrator.validate_email
           Scenarios.healthy_env_with_logger "user@example.com") = Ret r
    /\ truthy (ValidationOrchestrator.is_valid r) = true
    /\ ValidationOrchestrator.error r
       = Some "Validation error: 'syntax_valid'".
Proof.
  eexists. split; [vm_compute; reflexivity |].
  split; [vm_compute; reflexivity |].
  apply (validate_email_valid_only_after_all_checks
           Scenarios.healthy_env_with_logger "user@example.com");
    vm_compute; reflexivity.
Defined.

Lemma verdict_depends_on_three_answers_witness :
  truthy (ValidationOrchestrator.is_valid
            (ValidationOrchestrator.results
               (snd (ValidationOrchestrator.validate_email
                       Scenarios.healthy_env "user@example.com"))))
  = truthy (ValidationOrchestrator.get
              {[ "has_mx" := VBool true; "has_a" := VBool true;
                 "has_ptr" := VBool true ]} "has_mx")
    && negb (truthy (VBool false)) && negb (truthy (VBool false)).
Proof.
  apply (verdict_depends_on_three_answers
           Scenarios.healthy_env "user@example.com"
           {[ "has_mx" := VBool true; "has_a" := VBool true;
              "has_ptr" := VBool true ]}
           (VBool false) (VBool false)).
  - reflexivity.
  - reflexivity.
  - vm_compute. reflexivity.
  - repeat (apply List.Forall_cons; [reflexivity |]). apply List.Forall_nil.
  - reflexivity.
  - reflexivity.
Defined.

(** ** The SMTP check as the orchestrator calls it *)

Section SmtpOfDomain.

Import SmtpVerifier.

Lemma ascii_lower_at (c : ascii) :
  Ascii.eqb (ascii_lower c) "@" = Ascii.eqb c "@".
Proof.
  destruct c as [[] [] [] [] [] [] [] []]; reflexivity.
Qed.

Lemma split_not_nil (s : string) : split "@" s <> [].
Proof.
  destruct s as [| c rest]; simpl; [discriminate |].
  destruct (Ascii.eqb c "@"); [discriminate |].
  destruct (split "@" rest); discriminate.
Qed.

Lemma split_singleton (s : string) :
  split "@" s = [s] ->
  match s with
  | EmptyString => True
  | String c rest => Ascii.eqb c "@" = false /\ split "@" rest = [rest]
  end.
Proof.
  destruct s as [| c rest]; [trivial |].
  simpl. destruct (Ascii.eqb c "@"); [discriminate |].
  pose proof (split_not_nil rest) as Hne.
  destruct (split "@" rest) as [| w ws]; [contradiction |].
  intros H; inversion H; subst. now split.
Qed.

Lemma lower_ascii_without_at (s : string) :
  split "@" s = [s] -> split "@" (lower_ascii s) = [lower_ascii s].
Proof.
  induction s as [| c rest IH]; intros H; [reflexivity |].
  apply split_singleton in H as [Hc Hrest].
  simpl. now rewrite ascii_lower_at, Hc, (IH Hrest).
Qed.

(** The domain of an address the regex matches has no "@". *)
Lemma match_local_domain (seen : bool) (s : string) :
  SyntaxValidator.match_local seen s = true ->
  exists local_part domain,
    split "@" s = [local_part; domain] /\ split "@" domain = [domain].
Proof.
  revert seen. induction s as [| c rest IH]; intros seen H; simpl in H;
    [discriminate |].
  destruct (SyntaxValidator.is_local_char c) eqn:Hl.
  - destruct (IH true H) as (l & d & Hsplit & Hd).
    exists (String c l), d. simpl.
    rewrite (local_char_is_not_at c Hl), Hsplit. now split.
  - destruct (Ascii.eqb_spec c "@") as [-> |]; [| discriminate].
    apply andb_true_iff in H as [_ H].
    destruct (match_domain_shape false rest H) as [Hsplit _].
    exists "", rest. simpl. rewrite Hsplit. now split.
Qed.

Variable validate_dns : string -> outcome DnsResult.
Variable server : string -> string -> Session.

Lemma verify_smtp_without_at (text : string) :
  split "@" text = [text] ->
  valid (fst (verify_smtp validate_dns server text)) = false
  /\ snd (verify_smtp validate_dns server text) = [].
Proof.
  intros Hsplit. unfold verify_smtp. rewrite Hsplit.
  destruct (validate_dns text) as [d | e]; [| now split].
  destruct (dns_valid d); now split.
Qed.

(** X29: [validate_email] hands [verify_smtp] the domain
    ([verify_smtp(domain)]), not the address.  On the domain of an
    address that [validate_syntax] accepts, [verify_smtp] never answers
    [valid=True] and never contacts a server: the text has no "@", so
    [email.split('@')[1]] fails and the function returns its failure
    result, whatever the DNS and the mail servers would answer. *)
Theorem verify_smtp_of_extracted_domain_never_verifies
  (env : ValidationOrchestrator.Env) (email : string) :
  ValidationOrchestrator.str_lower env = lower_ascii ->
  SyntaxValidator.validate_syntax email = Ret true ->
  let domain := ValidationOrchestrator.extract_domain env email in
  valid (fst (verify_smtp validate_dns server domain)) = false
  /\ snd (verify_smtp validate_dns server domain) = [].
Proof.
  intros Hlower Haccepted domain. subst domain.
  apply verify_smtp_without_at.
  unfold ValidationOrchestrator.extract_domain. rewrite Hlower.
  unfold SyntaxValidator.validate_syntax, SyntaxValidator.re_match in Haccepted.
  destruct (SyntaxValidator.match_local false email) eqn:Hmatch;
    [| discriminate].
  destruct (match_local_domain false email Hmatch) as (l & d & -> & Hd).
  cbn [index1]. now apply lower_ascii_without_at.
Qed.

End SmtpOfDomain.

Lemma verify_smtp_of_extracted_domain_never_verifies_witness :
  SmtpVerifier.valid
    (fst (SmtpVerifier.verify_smtp
            Scenarios.two_mx_dns Scenarios.timeout_then_accept
            (ValidationOrchestrator.extract_domain
               Scenarios.healthy_env "user@example.com")))
  = false.
Proof.
  exact (proj1 (verify_smtp_of_extracted_domain_never_verifies
                  Scenarios.two_mx_dns Scenarios.timeout_then_accept
                  Scenarios.healthy_env "user@example.com"
                  eq_refl eq_refl)).
Defined.
